(** * CityGuardAlert: the incident pipeline, embedded and verified

    A shallow embedding of the ingestion-and-notification pipeline
    ([gemini.py], [models.py], [agents/notification_agent.py],
    [agents/data_agent.py]).

    Conventions of the embedding.
    - Python [float] is IEEE binary64: relevance scores are primitive
      floats, compared and multiplied with the kernel's operations.
    - Python [str] is [string]; a character stands for a code point below
      256, on which [str.lower] and [str.strip] are modelled exactly.
    - [datetime] values are [Z], in microseconds.
    - A raised exception is the [Raise] case of [result]; [try]/[except]
      is [try_except].
    - Whatever the outside world answers (the Gemini service, the news
      provider, the mail transport, the database engine, the clock) is an
      explicit argument. *)

From Stdlib Require Import Bool List String Ascii ZArith NArith Lia.
From Stdlib Require Import DecimalString Sorted Permutation.
From Stdlib Require Import PrimFloat SpecFloat FloatOps FloatAxioms.
Import ListNotations.

Set Warnings "-inexact-float".
Local Open Scope string_scope.

(* ================================================================== *)
(** * Python primitives *)
(* ================================================================== *)

Module Py.

(** ** Exceptions *)

Inductive result (A : Type) : Type :=
| Ok (a : A)
| Raise (e : string).
Arguments Ok {A} a.
Arguments Raise {A} e.

Definition bind {A B} (c : result A) (k : A -> result B) : result B :=
  match c with
  | Ok a => k a
  | Raise e => Raise e
  end.

(** [try: body / except Exception as e: handler e] *)
Definition try_except {A} (body : result A) (handler : string -> result A)
  : result A :=
  match body with
  | Ok a => Ok a
  | Raise e => handler e
  end.

Definition raises {A} (c : result A) : bool :=
  match c with Ok _ => false | Raise _ => true end.

(** ** Floats: [x >= y] *)

Definition ge (x y : float) : bool := PrimFloat.leb y x.

(** ** Strings *)

(** [s[:n]] *)
Definition slice_to (n : nat) (s : string) : string := substring 0 n s.

(** [x in s] on strings *)
Fixpoint contains (x s : string) : bool :=
  if prefix x s then true
  else match s with
       | EmptyString => false
       | String _ s' => contains x s'
       end.

(** [str.lower], on code points below 256: A-Z, and the Latin-1 capitals
    U+00C0..U+00DE without the multiplication sign U+00D7. *)
Definition lower_char (c : ascii) : ascii :=
  let n := N_of_ascii c in
  if ((65 <=? n) && (n <=? 90)
      || (192 <=? n) && (n <=? 222) && negb (n =? 215))%N
  then ascii_of_N (n + 32)
  else c.

Fixpoint lower (s : string) : string :=
  match s with
  | EmptyString => EmptyString
  | String c s' => String (lower_char c) (lower s')
  end.

(** [str.isspace] on one code point below 256 *)
Definition is_space (c : ascii) : bool :=
  let n := N_of_ascii c in
  ((9 <=? n) && (n <=? 13) || (28 <=? n) && (n <=? 32)
   || (n =? 133) || (n =? 160))%N.

Fixpoint lstrip (s : string) : string :=
  match s with
  | EmptyString => EmptyString
  | String c s' => if is_space c then lstrip s' else s
  end.

Fixpoint rstrip (s : string) : string :=
  match s with
  | EmptyString => EmptyString
  | String c s' =>
      match rstrip s' with
      | EmptyString => if is_space c then EmptyString else String c EmptyString
      | t => String c t
      end
  end.

(** [str.strip()] *)
Definition strip (s : string) : string := rstrip (lstrip s).

(** Truth value of an optional string: [None] and [''] are false. *)
Definition truthy (o : option string) : bool :=
  match o with
  | None | Some EmptyString => false
  | Some _ => true
  end.

(** ** Dictionaries with string keys, as built by a literal *)

Fixpoint dict_get {V} (d : list (string * V)) (k : string) (default : V) : V :=
  match d with
  | [] => default
  | (k', v) :: d' => if String.eqb k' k then v else dict_get d' k default
  end.

(** [x in [a, b, ...]] on strings *)
Definition in_list (x : string) (l : list string) : bool :=
  existsb (String.eqb x) l.

(** ** Dictionary entries that hold a string *)

(** What a key of a decoded JSON object, or of a dictionary built from a
    row, holds when the schema makes it a string: nothing, [None], or a
    string. *)
Inductive entry :=
| Missing
| IsNone
| Text (s : string).

(** [d.get(key, default)] inside an f-string. *)
Definition render (e : entry) (default : string) : string :=
  match e with
  | Missing => default
  | IsNone => "None"
  | Text s => s
  end.

(** [str(n)] for a length. *)
Definition str_nat (n : nat) : string := NilZero.string_of_uint (Nat.to_uint n).

(** The characters written [\n] and [°] in the source. *)
Definition newline : string := String (ascii_of_nat 10) EmptyString.

Definition degree_sign : string := String (ascii_of_nat 176) EmptyString.

(** [sep.join(l)] *)
Definition join (sep : string) (l : list string) : string := String.concat sep l.

End Py.
Import Py.

Declare Scope py_scope.
Notation "x <- c ;; k" := (Py.bind c (fun x => k))
  (at level 61, c at next level, right associativity) : py_scope.
Local Open Scope py_scope.

(* ================================================================== *)
(** * models.py *)
(* ================================================================== *)

Module models.

Record User := mkUser {
  user_id : Z;
  username : string;
  email : string;
  user_location : string;
  email_notifications : bool;
  user_created_at : Z
}.

Record Incident := mkIncident {
  id : Z;
  title : string;
  description : string;
  source : string;
  location : string;
  severity : string;
  category : string;
  url : option string;
  raw_data : option string;
  ai_summary : option string;
  relevance_score : float;
  is_verified : bool;
  created_at : Z;
  updated_at : Z
}.

Record AlertSubscription := mkAlertSubscription {
  sub_id : Z;
  sub_user_id : Z;
  sub_location : string;
  categories : option string;
  min_severity : string;
  is_active : bool
}.

(** [log_id] and [sent_at] are [None] until the row is flushed. *)
Record NotificationLog := mkNotificationLog {
  log_id : option Z;
  incident_id : Z;
  log_user_id : option Z;
  notification_type : string;
  status : string;
  error_message : option string;
  sent_at : option Z
}.

(** The tables, each in insertion order. *)
Record Db := mkDb {
  incidents : list Incident;
  users : list User;
  subscriptions : list AlertSubscription;
  notification_logs : list NotificationLog
}.

Definition with_incidents (db : Db) (l : list Incident) : Db :=
  mkDb l (users db) (subscriptions db) (notification_logs db).

Definition with_subscriptions (db : Db) (l : list AlertSubscription) : Db :=
  mkDb (incidents db) (users db) l (notification_logs db).

Definition with_notification_logs (db : Db) (l : list NotificationLog) : Db :=
  mkDb (incidents db) (users db) (subscriptions db) l.

(** Integer primary key of the next inserted row. *)
Definition next_id (ids : list Z) : Z := (1 + fold_right Z.max 0 ids)%Z.

(** [db.session.commit()]: succeeds, or raises and leaves the tables as
    they were. *)
Definition commit (ok : bool) (db' : Db) : result Db :=
  if ok then Ok db' else Raise "commit failed".

(** [Query.first()]: the first row, in table order, that passes. *)
Definition first {A} (p : A -> bool) (rows : list A) : option A := find p rows.

(** Attribute writes on the object [first] returned reach that row. *)
Fixpoint update_first {A} (p : A -> bool) (f : A -> A) (rows : list A) : list A :=
  match rows with
  | [] => []
  | r :: rows' => if p r then f r :: rows' else r :: update_first p f rows'
  end.

(** A dictionary as the extractors of the data agent build it: [title],
    [description], [source], [location] and [category] are always
    present; [url] and [raw_data] are read with [.get]. *)
Record incident_data := mkIncidentData {
  d_title : string;
  d_description : string;
  d_source : string;
  d_location : string;
  d_category : string;
  d_url : option string;
  d_raw_data : option string
}.

(** [timedelta(hours=24)] *)
Definition hours24 : Z := (24 * 3600 * 1000000)%Z.

(** [Query.order_by]: [before r r'] says that [r] may stand before [r'];
    rows that tie keep the order of the table. *)
Fixpoint insert_row {A} (before : A -> A -> bool) (r : A) (sorted : list A) : list A :=
  match sorted with
  | [] => [r]
  | r' :: sorted' =>
      if before r r' then r :: sorted else r' :: insert_row before r sorted'
  end.

Definition order_by {A} (before : A -> A -> bool) (rows : list A) : list A :=
  fold_right (insert_row before) [] rows.

(** [timedelta(hours=hours)], in microseconds: the days of a [timedelta]
    stay within 999999999 either way. *)
Definition timedelta_hours (hours : Z) : result Z :=
  if ((-999999999 <=? hours / 24) && (hours / 24 <=? 999999999))%Z
  then Ok (hours * 3600 * 1000000)%Z
  else Raise "OverflowError".

(** [datetime.min] and [datetime.max], in microseconds from 1970. *)
Definition datetime_min : Z := (-62135596800000000)%Z.

Definition datetime_max : Z := 253402300799999999%Z.

(** [t - delta] on a [datetime]. *)
Definition datetime_sub (t delta : Z) : result Z :=
  if ((datetime_min <=? t - delta) && (t - delta <=? datetime_max))%Z
  then Ok (t - delta)%Z
  else Raise "OverflowError".

End models.
Import models.

(* ================================================================== *)
(** * gemini.py *)
(* ================================================================== *)

Module gemini.

Record IncidentAnalysis := mkIncidentAnalysis {
  relevance_score : float;
  severity : string;
  category : string;
  is_credible : bool;
  summary : string
}.

(** What the structured [generate_content] call comes to: it raises, or
    it answers with [response.text], and [decoded] is what [json.loads]
    followed by the [IncidentAnalysis] constructor gives on that text (a
    validated analysis, or the exception of the decoder or validator). *)
Inductive analysis_reply :=
| AnalysisRaised (e : string)
| AnalysisText (raw_json : option string) (decoded : result IncidentAnalysis).

(** What the free-text [generate_content] call comes to. *)
Inductive text_reply :=
| TextRaised (e : string)
| TextReply (text : option string).

(** The [try] block of [analyze_incident]. *)
Definition analyze_incident_try (reply : analysis_reply) : result IncidentAnalysis :=
  match reply with
  | AnalysisRaised e => Raise e
  | AnalysisText raw_json decoded =>
      if truthy raw_json then decoded
      else Raise "Empty response from Gemini model"
  end.

(** The default analysis of the [except] block. *)
Definition default_analysis (title description : string) : IncidentAnalysis :=
  mkIncidentAnalysis 0.5 "medium" "other" true
    (title ++ ": " ++ slice_to 100 description ++ "...").

Definition analyze_incident (title description source location : string)
    (reply : analysis_reply) : result IncidentAnalysis :=
  try_except (analyze_incident_try reply)
    (fun _ => Ok (default_analysis title description)).

(** The [try] block of [filter_credible_sources]. *)
Definition filter_credible_sources_try (reply : text_reply) : result bool :=
  match reply with
  | TextRaised e => Raise e
  | TextReply text =>
      let result :=
        if truthy text
        then match text with Some t => lower (strip t) | None => "" end
        else "" in
      Ok (String.eqb result "true")
  end.

Definition filter_credible_sources (content : string) (source_url : option string)
    (reply : text_reply) : result bool :=
  try_except (filter_credible_sources_try reply) (fun _ => Ok true).

(** ** summarize_multiple_incidents *)

(** An incident as a dictionary, by the keys the summary reads. *)
Record summary_item := mkSummaryItem {
  item_title : entry;
  item_ai_summary : entry;
  item_description : entry
}.

(** One element of the list comprehension; slicing [None] raises. *)
Definition summary_line (inc : summary_item) : result string :=
  text <- match item_ai_summary inc with
          | Text s => Ok s
          | IsNone => Raise "TypeError"
          | Missing =>
              match item_description inc with
              | Text s => Ok s
              | IsNone => Raise "TypeError"
              | Missing => Ok ""
              end
          end ;;
  Ok ("- " ++ render (item_title inc) "" ++ ": " ++ slice_to 100 text).

Fixpoint summary_lines (incidents : list summary_item) : result (list string) :=
  match incidents with
  | [] => Ok []
  | inc :: rest =>
      line <- summary_line inc ;;
      lines <- summary_lines rest ;;
      Ok (line :: lines)
  end.

Definition summary_prompt (incidents_text : string) : string :=
  "Create a brief, clear summary of these local incidents for a safety dashboard. "
  ++ "Focus on the most important information residents need to know. "
  ++ "Use bullet points and keep it under 200 words:" ++ newline ++ newline
  ++ incidents_text.

(** The [try] block; [model] is the free-text call, by its prompt. *)
Definition summarize_multiple_incidents_try (model : string -> text_reply)
    (incidents : list summary_item) : result string :=
  match incidents with
  | [] => Ok "No active incidents in your area."
  | _ =>
      lines <- summary_lines (firstn 10 incidents) ;;
      match model (summary_prompt (join newline lines)) with
      | TextRaised e => Raise e
      | TextReply text =>
          Ok (if truthy text
              then match text with Some t => t | None => "" end
              else "Multiple incidents reported. Check individual alerts for details.")
      end
  end.

Definition summarize_multiple_incidents (model : string -> text_reply)
    (incidents : list summary_item) : result string :=
  try_except (summarize_multiple_incidents_try model incidents)
    (fun _ => Ok ("Found " ++ str_nat (List.length incidents)
                  ++ " active incidents. Check individual alerts for details.")).

End gemini.

(* ================================================================== *)
(** * agents/notification_agent.py *)
(* ================================================================== *)

Module notification_agent.

(** What [EmailService.send_alert_email] comes to. *)
Inductive email_reply :=
| EmailReturned (success : bool)
| EmailRaised (e : string).

(** The outside world as one iteration of [process_incidents] meets it.
    The worlds of successive iterations are not independent of each
    other: a session that an earlier iteration left without the rollback
    it needed refuses the next incident query, and that iteration's world
    has [incident_commit_ok] false ([respects_the_session] below says
    so). *)
Record World := mkWorld {
  analysis_reply : gemini.analysis_reply;
  credibility_reply : gemini.text_reply;
  (** [datetime.utcnow()] when the lookup is built *)
  utcnow_lookup : Z;
  (** [datetime.utcnow()] when a row is written *)
  utcnow_write : Z;
  (** do the incident query and the commit go through? (When they do,
      so does the reload of the committed row for the log line.) *)
  incident_commit_ok : bool;
  (** does the user query go through? *)
  users_query_ok : bool;
  send_alert_email : User -> Incident -> email_reply;
  (** does the commit of the notification log rows go through? (When it
      does, so does the reload of the row for the log line.) *)
  log_commit_ok : bool;
  (** does [db.session.rollback()] go through? (Outside an application
      context, as in the scheduled job of [app.py], it raises.) *)
  rollback_ok : bool
}.

(** ** save_analyzed_incident *)

Definition same_title_source (d : incident_data) (i : Incident) : bool :=
  String.eqb (title i) (d_title d) && String.eqb (source i) (d_source d).

(** [Incident.created_at >= datetime.utcnow() - timedelta(hours=24)] *)
Definition created_within_24h (now : Z) (i : Incident) : bool :=
  (now - hours24 <=? created_at i)%Z.

Definition existing_filter (now : Z) (d : incident_data) (i : Incident) : bool :=
  same_title_source d i && created_within_24h now i.

Definition update_existing (now : Z) (analysis : gemini.IncidentAnalysis)
    (existing : Incident) : Incident :=
  mkIncident (id existing) (title existing) (description existing)
    (source existing) (location existing)
    (gemini.severity analysis) (gemini.category analysis)
    (url existing) (raw_data existing)
    (Some (gemini.summary analysis)) (gemini.relevance_score analysis)
    (gemini.is_credible analysis)
    (created_at existing) now.

Definition new_incident (new_id now : Z) (d : incident_data)
    (analysis : gemini.IncidentAnalysis) : Incident :=
  mkIncident new_id (d_title d) (d_description d) (d_source d) (d_location d)
    (gemini.severity analysis) (gemini.category analysis)
    (d_url d) (d_raw_data d)
    (Some (gemini.summary analysis)) (gemini.relevance_score analysis)
    (gemini.is_credible analysis)
    now now.

(** The [try] block: the tables after the commit and the row returned. *)
Definition save_analyzed_incident_try (db : Db) (w : World)
    (d : incident_data) (analysis : gemini.IncidentAnalysis)
  : result (Db * Incident) :=
  let p := existing_filter (utcnow_lookup w) d in
  match first p (incidents db) with
  | Some existing =>
      let upd := update_existing (utcnow_write w) analysis in
      db' <- commit (incident_commit_ok w)
               (with_incidents db (update_first p upd (incidents db))) ;;
      Ok (db', upd existing)
  | None =>
      let incident :=
        new_incident (next_id (map id (incidents db))) (utcnow_write w) d analysis in
      db' <- commit (incident_commit_ok w)
               (with_incidents db (incidents db ++ [incident])) ;;
      Ok (db', incident)
  end.

(** The tables after the call, and what the call comes to. On an
    exception of the [try] block the handler rolls the session back and
    returns [None]; when [db.session.rollback()] raises in its turn, that
    exception leaves the function. *)
Definition save_analyzed_incident (db : Db) (w : World)
    (d : incident_data) (analysis : gemini.IncidentAnalysis)
  : Db * result (option Incident) :=
  match save_analyzed_incident_try db w d analysis with
  | Ok (db', incident) => (db', Ok (Some incident))
  | Raise _ =>
      if rollback_ok w then (db, Ok None)
      else (db, Raise "rollback raised")
  end.

(** ** get_eligible_users *)

Definition severity_levels : list (string * Z) :=
  [("low", 1); ("medium", 2); ("high", 3); ("critical", 4)]%Z.

Definition location_matches (user : User) (incident : Incident) : bool :=
  contains (lower (user_location user)) (lower (location incident))
  || contains (lower (location incident)) (lower (user_location user)).

(** The body of the [for] loop: [eligible_users] after one more user. *)
Definition eligible_step (incident : Incident) (eligible_users : list User)
    (user : User) : list User :=
  if location_matches user incident then
    let incident_severity_level :=
      dict_get severity_levels (severity incident) 2%Z in
    if (2 <=? incident_severity_level)%Z then eligible_users ++ [user]
    else eligible_users
  else eligible_users.

(** [User.query.filter_by(email_notifications=True).all()] *)
Definition query_opted_in (db : Db) (w : World) : result (list User) :=
  if users_query_ok w then Ok (filter email_notifications (users db))
  else Raise "query failed".

Definition get_eligible_users (db : Db) (w : World) (incident : Incident)
  : list User :=
  match query_opted_in db w with
  | Ok users => fold_left (eligible_step incident) users []
  | Raise _ => []
  end.

(** ** send_notifications *)

Definition log_entry (incident : Incident) (user : User)
    (status : string) (error_message : option string) : NotificationLog :=
  mkNotificationLog None (id incident) (Some (user_id user)) "email"
    status error_message None.

(** What the loop of [send_notifications] does, in order: calls of the
    mail transport and rows passed to [db.session.add]. *)
Inductive Event :=
| Called (user : User)
| Added (log : NotificationLog).

(** The inner [try] block for one user whose flag is set: the call, then
    the row for its result. *)
Definition notify_try (w : World) (incident : Incident) (user : User)
  : result (list Event) :=
  success <- match send_alert_email w user incident with
             | EmailReturned success => Ok success
             | EmailRaised e => Raise e
             end ;;
  Ok [Called user;
      Added (log_entry incident user
               (if success then "sent" else "failed")
               (if success then None else Some "Email sending failed"))].

(** One pass of the loop body; the [except] block adds the row of a call
    that raised. *)
Definition notify_user (w : World) (incident : Incident) (user : User)
  : list Event :=
  if email_notifications user then
    match notify_try w incident user with
    | Ok events => events
    | Raise e => [Called user; Added (log_entry incident user "failed" (Some e))]
    end
  else [].

Definition calls (events : list Event) : list User :=
  flat_map (fun ev => match ev with Called user => [user] | Added _ => [] end) events.

Definition rows (events : list Event) : list NotificationLog :=
  flat_map (fun ev => match ev with Called _ => [] | Added log => [log] end) events.

(** The flush at commit: primary keys and [sent_at] are filled in. *)
Fixpoint flush_logs (next now : Z) (pending : list NotificationLog)
  : list NotificationLog :=
  match pending with
  | [] => []
  | l :: pending' =>
      mkNotificationLog (Some next) (incident_id l) (log_user_id l)
        (notification_type l) (status l) (error_message l) (Some now)
      :: flush_logs (next + 1) now pending'
  end.

Definition log_ids (logs : list NotificationLog) : list Z :=
  flat_map (fun l => match log_id l with Some i => [i] | None => [] end) logs.

(** What one call of [send_notifications] did, and the exception that
    left it, if any. *)
Record Dispatch := mkDispatch {
  eligible_users : list User;
  events : list Event;
  committed : bool;
  raised : option string
}.

(** The users on whom [send_alert_email] was called, in order. *)
Definition attempts (r : Dispatch) : list User := calls (events r).

(** The rows passed to [db.session.add], in order. *)
Definition added (r : Dispatch) : list NotificationLog := rows (events r).

(** The tables after the call and what the call did. A commit that raises
    leaves the session inactive and its rows expired: the handler's log
    line reads [incident.id], which raises before [db.session.rollback()]
    is reached, so the exception leaves the function and the session
    stays as it is. The mail calls have been made by then. *)
Definition send_notifications (db : Db) (w : World) (incident : Incident)
  : Db * Dispatch :=
  let eligible_users := get_eligible_users db w incident in
  let events := flat_map (notify_user w incident) eligible_users in
  let db' :=
    with_notification_logs db
      (notification_logs db
       ++ flush_logs (next_id (log_ids (notification_logs db)))
            (utcnow_write w) (rows events)) in
  match commit (log_commit_ok w) db' with
  | Ok db' => (db', mkDispatch eligible_users events true None)
  | Raise _ =>
      (db, mkDispatch eligible_users events false (Some "PendingRollbackError"))
  end.

(** ** process_incidents *)

(** Lines 35-37: the analysis object after the override. *)
Definition override (analysis : gemini.IncidentAnalysis) (is_credible : bool)
  : gemini.IncidentAnalysis :=
  if negb is_credible then
    gemini.mkIncidentAnalysis
      (gemini.relevance_score analysis * 0.5)%float
      (gemini.severity analysis) (gemini.category analysis)
      false
      (gemini.summary analysis)
  else analysis.

(** Line 40 *)
Definition meets_minimum_criteria (analysis : gemini.IncidentAnalysis) : bool :=
  ge (gemini.relevance_score analysis) 0.3 && gemini.is_credible analysis.

(** Line 47 *)
Definition high_priority (analysis : gemini.IncidentAnalysis) : bool :=
  in_list (gemini.severity analysis) ["high"; "critical"]
  && ge (gemini.relevance_score analysis) 0.7.

(** How far the [try] block of the loop body had come when an exception
    left it. *)
Inductive Progress :=
| InAnalysis
    (* in one of the two model calls *)
| InSave (analysis : gemini.IncidentAnalysis)
    (* [save_analyzed_incident] raised *)
| InDispatch (analysis : gemini.IncidentAnalysis) (incident : Incident)
    (dispatch : Dispatch).
    (* the row was saved and appended, [send_notifications] raised *)

(** The path one iteration took; [analysis] is the analysis object as it
    stands after the override. *)
Inductive Outcome :=
| Errored (e : string) (progress : Progress)
    (* the [except] branch of the loop body *)
| Dropped (analysis : gemini.IncidentAnalysis)
    (* line 40 is false *)
| NotSaved (analysis : gemini.IncidentAnalysis)
    (* [save_analyzed_incident] returned [None] *)
| Saved (analysis : gemini.IncidentAnalysis) (incident : Incident)
    (* saved, line 47 is false *)
| Notified (analysis : gemini.IncidentAnalysis) (incident : Incident)
    (dispatch : Dispatch).
    (* saved, and [send_notifications] returned *)

(** Lines 21-37: the two model calls and the override. *)
Definition analyse (w : World) (d : incident_data) : result gemini.IncidentAnalysis :=
  analysis <- gemini.analyze_incident (d_title d) (d_description d)
                (d_source d) (d_location d) (analysis_reply w) ;;
  is_credible <- gemini.filter_credible_sources (d_description d)
                   (match d_url d with Some u => Some u | None => Some "" end)
                   (credibility_reply w) ;;
  Ok (override analysis is_credible).

(** Lines 40-48 with the [except] branch: an exception that leaves
    [save_analyzed_incident] or [send_notifications] ends the iteration
    there; what was committed before stays committed. *)
Definition process_analysed (db : Db) (w : World) (d : incident_data)
    (analysis : gemini.IncidentAnalysis) : Db * Outcome :=
  if meets_minimum_criteria analysis then
    match save_analyzed_incident db w d analysis with
    | (db1, Raise e) => (db1, Errored e (InSave analysis))
    | (db1, Ok None) => (db1, NotSaved analysis)
    | (db1, Ok (Some incident)) =>
        if high_priority analysis then
          let (db2, dispatch) := send_notifications db1 w incident in
          match raised dispatch with
          | Some e => (db2, Errored e (InDispatch analysis incident dispatch))
          | None => (db2, Notified analysis incident dispatch)
          end
        else (db1, Saved analysis incident)
    end
  else (db, Dropped analysis).

(** The loop body: the [try] block and its [except] branch, which logs
    and goes on to the next incident. *)
Definition process_incident (db : Db) (w : World) (d : incident_data)
  : Db * Outcome :=
  match analyse w d with
  | Ok analysis => process_analysed db w d analysis
  | Raise e => (db, Errored e InAnalysis)
  end.

(** The rows appended to [processed_incidents], by primary key; line 44
    comes before the dispatch. *)
Definition processed (o : Outcome) : list Z :=
  match o with
  | Saved _ incident | Notified _ incident _
  | Errored _ (InDispatch _ incident _) => [id incident]
  | _ => []
  end.

(** The loop: [env n] is the outside world as iteration [n] meets it. *)
Fixpoint process_loop (env : nat -> World) (n : nat) (db : Db)
    (incident_data_list : list incident_data)
    (processed_incidents : list Z) (outcomes : list Outcome)
  : Db * list Z * list Outcome :=
  match incident_data_list with
  | [] => (db, processed_incidents, outcomes)
  | d :: rest =>
      let (db', o) := process_incident db (env n) d in
      process_loop env (S n) db' rest
        (processed_incidents ++ processed o) (outcomes ++ [o])
  end.

Definition process_incidents (env : nat -> World) (db : Db)
    (incident_data_list : list incident_data)
  : Db * list Z * list Outcome :=
  process_loop env 0 db incident_data_list [] [].

(** ** What a run shows *)

Definition outcomes_of (r : Db * list Z * list Outcome) : list Outcome := snd r.

Definition analysis_of (o : Outcome) : option gemini.IncidentAnalysis :=
  match o with
  | Errored _ InAnalysis => None
  | Errored _ (InSave a) | Errored _ (InDispatch a _ _)
  | Dropped a | NotSaved a | Saved a _ | Notified a _ _ => Some a
  end.

(** Was [save_analyzed_incident] called? *)
Definition save_called (o : Outcome) : bool :=
  match o with
  | Errored _ (InSave _) | Errored _ (InDispatch _ _ _)
  | NotSaved _ | Saved _ _ | Notified _ _ _ => true
  | Errored _ InAnalysis | Dropped _ => false
  end.

(** The row [save_analyzed_incident] returned, if any. *)
Definition saved_incident (o : Outcome) : option Incident :=
  match o with
  | Saved _ i | Notified _ i _ | Errored _ (InDispatch _ i _) => Some i
  | _ => None
  end.

(** Was [send_notifications] called? *)
Definition dispatch_called (o : Outcome) : bool :=
  match o with
  | Notified _ _ _ | Errored _ (InDispatch _ _ _) => true
  | _ => false
  end.

(** The calls of [send_alert_email] the iteration made. *)
Definition dispatch_attempts (o : Outcome) : list User :=
  match o with
  | Notified _ _ dispatch | Errored _ (InDispatch _ _ dispatch) => attempts dispatch
  | _ => []
  end.

(** Did the iteration end in the [except] branch of the loop body? *)
Definition reached_except (o : Outcome) : bool :=
  match o with
  | Errored _ _ => true
  | _ => false
  end.

(** ** get_recent_incidents *)

(** The three conditions of the query's [filter]; scores compare as
    binary64 numbers, and a score that is not a number passes no
    comparison. *)
Definition recent_filter (cutoff_time : Z) (min_relevance : float) (i : Incident)
  : bool :=
  (cutoff_time <=? created_at i)%Z
  && ge (relevance_score i) min_relevance
  && is_verified i.

(** [relevance_score.desc(), created_at.desc()] *)
Definition ranks_before (a b : Incident) : bool :=
  PrimFloat.ltb (relevance_score b) (relevance_score a)
  || (PrimFloat.eqb (relevance_score a) (relevance_score b)
      && (created_at b <=? created_at a)%Z).

(** The [try] block: [now] is [datetime.utcnow()], [query_ok] says whether
    the query goes through. *)
Definition get_recent_incidents_try (db : Db) (now : Z) (query_ok : bool)
    (hours : Z) (min_relevance : float) : result (list Incident) :=
  delta <- timedelta_hours hours ;;
  cutoff_time <- datetime_sub now delta ;;
  if query_ok then
    Ok (firstn 20
          (order_by ranks_before
             (filter (recent_filter cutoff_time min_relevance) (incidents db))))
  else Raise "query failed".

Definition get_recent_incidents (db : Db) (now : Z) (query_ok : bool)
    (hours : Z) (min_relevance : float) : list Incident :=
  match get_recent_incidents_try db now query_ok hours min_relevance with
  | Ok incidents => incidents
  | Raise _ => []
  end.

End notification_agent.

(* ================================================================== *)
(** * agents/data_agent.py *)
(* ================================================================== *)

Module data_agent.

(** ** fetch_news_data *)

(** A key of a decoded article: absent, [null], or a string, which is
    what the provider's schema allows for [title], [description] and
    [url]. The other keys of an article only reach [json.dumps]. *)
Inductive json_field :=
| Absent
| Null
| Str (s : string).

Record article := mkArticle {
  art_title : json_field;
  art_description : json_field;
  art_url : json_field
}.

(** [article.get(key)] *)
Definition get (f : json_field) : option string :=
  match f with
  | Str s => Some s
  | Absent | Null => None
  end.

(** [article.get(key, default)] *)
Definition get_default (f : json_field) (default : string) : option string :=
  match f with
  | Str s => Some s
  | Absent => Some default
  | Null => None
  end.

(** What [requests.get], [raise_for_status] and [response.json] come to:
    an exception, or the decoded body with its [articles] key, if any. *)
Inductive http_reply :=
| RequestFailed (e : string)
| JsonBody (articles : option (list article)).

Definition keywords : list string :=
  ["accident"; "emergency"; "police"; "fire"; "traffic"; "closure";
   "incident"; "alert"; "warning"].

(** [f'{keyword} AND {self.default_location}'] *)
Definition query_of (default_location keyword : string) : string :=
  keyword ++ " AND " ++ default_location.

(** ['pageSize': 5] *)
Definition page_size : nat := 5.

Section News.

(** [json.dumps] on an article. *)
Variable json_dumps : article -> string.
(** [self.default_location] *)
Variable default_location : string.
(** The news provider, by the [q] and [pageSize] parameters of the
    request. *)
Variable news_api : string -> nat -> http_reply.

Definition incident_of (title description : string) (a : article)
  : incident_data :=
  mkIncidentData title description "news" default_location "other"
    (get_default (art_url a) "") (Some (json_dumps a)).

(** The body of the inner [for] loop: [incidents] after one article. *)
Definition article_step (incidents : list incident_data) (a : article)
  : list incident_data :=
  if negb (truthy (get (art_title a))) || negb (truthy (get (art_description a)))
  then incidents
  else
    match get (art_title a), get (art_description a) with
    | Some title, Some description =>
        if contains "[Removed]" title then incidents
        else incidents ++ [incident_of title description a]
    | _, _ => incidents
    end.

(** The outer [for] loop inside the [try]: an exception leaves it with
    the incidents collected so far. *)
Fixpoint keyword_loop (kws : list string) (incidents : list incident_data)
  : list incident_data :=
  match kws with
  | [] => incidents
  | keyword :: kws' =>
      match news_api (query_of default_location keyword) page_size with
      | RequestFailed _ => incidents
      | JsonBody None => keyword_loop kws' incidents
      | JsonBody (Some articles) =>
          keyword_loop kws' (fold_left article_step articles incidents)
      end
  end.

Definition fetch_news_data : list incident_data :=
  keyword_loop (firstn 3 keywords) [].

End News.

(** ** save_incident *)

Definition same_title_source (d : incident_data) (i : Incident) : bool :=
  String.eqb (title i) (d_title d) && String.eqb (source i) (d_source d).

Definition update_existing (now : Z) (analysis : option gemini.IncidentAnalysis)
    (existing : Incident) : Incident :=
  match analysis with
  | Some analysis =>
      mkIncident (id existing) (title existing) (description existing)
        (source existing) (location existing)
        (gemini.severity analysis) (gemini.category analysis)
        (url existing) (raw_data existing)
        (Some (gemini.summary analysis)) (gemini.relevance_score analysis)
        (gemini.is_credible analysis)
        (created_at existing) now
  | None =>
      mkIncident (id existing) (title existing) (description existing)
        (source existing) (location existing)
        (severity existing) (category existing)
        (url existing) (raw_data existing)
        (ai_summary existing) (relevance_score existing)
        (is_verified existing)
        (created_at existing) now
  end.

(** Without an analysis the column defaults apply: severity ["medium"],
    relevance [0.0], not verified, no summary. *)
Definition new_incident (new_id now : Z) (d : incident_data)
    (analysis : option gemini.IncidentAnalysis) : Incident :=
  match analysis with
  | Some analysis =>
      mkIncident new_id (d_title d) (d_description d) (d_source d) (d_location d)
        (gemini.severity analysis) (gemini.category analysis)
        (d_url d) (d_raw_data d)
        (Some (gemini.summary analysis)) (gemini.relevance_score analysis)
        (gemini.is_credible analysis)
        now now
  | None =>
      mkIncident new_id (d_title d) (d_description d) (d_source d) (d_location d)
        "medium" (d_category d)
        (d_url d) (d_raw_data d)
        None 0%float false
        now now
  end.

Definition save_incident_try (db : Db) (now : Z) (commit_ok : bool)
    (d : incident_data) (analysis : option gemini.IncidentAnalysis)
  : result Db :=
  let p := same_title_source d in
  match first p (incidents db) with
  | Some existing =>
      commit commit_ok
        (with_incidents db (update_first p (update_existing now analysis) (incidents db)))
  | None =>
      let incident :=
        new_incident (next_id (map id (incidents db))) now d analysis in
      commit commit_ok (with_incidents db (incidents db ++ [incident]))
  end.

(** The tables the call leaves: on an exception the handler rolls the
    session back, and nothing of the call is kept. *)
Definition save_incident (db : Db) (now : Z) (commit_ok : bool)
    (d : incident_data) (analysis : option gemini.IncidentAnalysis) : Db :=
  match save_incident_try db now commit_ok d analysis with
  | Ok db' => db'
  | Raise _ => db
  end.

(** ** fetch_weather_data *)

Definition severe_conditions : list string :=
  ["thunderstorm"; "snow"; "rain"; "drizzle"; "mist"; "fog"].

(** One element of the [weather] list of the provider's answer. *)
Record weather_entry := mkWeatherEntry {
  we_main : entry;
  we_description : entry
}.

(** The [coord] key: absent, without [lat] or [lon], or with both (as
    they are sent on). *)
Inductive coord_field :=
| NoCoord
| BrokenCoord
| Coord (lat lon : string).

(** The decoded answer of the weather request, by what the code reads:
    the [weather] key if present, the text of [main.temp] (["N/A"] when
    it is missing), the text of [id] (empty when it is missing), and the
    [coord] key. *)
Record weather_body := mkWeatherBody {
  wb_weather : option (list weather_entry);
  wb_temp : string;
  wb_id : string;
  wb_coord : coord_field
}.

(** What the first request comes to: an exception ([requests.get],
    [raise_for_status] or [response.json]), or the decoded body. *)
Inductive weather_reply :=
| WeatherFailed (e : string)
| WeatherJson (body : weather_body).

(** One element of the [alerts] list; its description is a string when
    it is there. *)
Record alert := mkAlert {
  al_event : entry;
  al_description : option string
}.

(** What the second request comes to: an exception, or a status code with
    what [alerts_response.json()] would give (the [alerts] key if any). *)
Inductive alerts_reply :=
| AlertsFailed (e : string)
| AlertsResponse (status_code : Z) (json : result (option (list alert))).

Section Weather.

(** [json.dumps] on the weather body and on an alert. *)
Variable dumps_weather : weather_body -> string.
Variable dumps_alert : alert -> string.
(** [self.default_location] *)
Variable default_location : string.
(** The weather provider, by the [q] parameter, and its alerts, by [lat]
    and [lon]. *)
Variable weather_api : string -> weather_reply.
Variable alerts_api : string -> string -> alerts_reply.

Definition condition_incident (body : weather_body) (weather : weather_entry)
  : incident_data :=
  mkIncidentData
    ("Weather Alert: " ++ render (we_main weather) "Unknown")
    ("Current weather conditions: " ++ render (we_description weather) ""
     ++ ". Temperature: " ++ wb_temp body ++ degree_sign ++ "C")
    "weather" default_location "weather"
    (Some ("https://openweathermap.org/city/" ++ wb_id body))
    (Some (dumps_weather body)).

Definition alert_incident (a : alert) : incident_data :=
  mkIncidentData
    ("Weather Alert: " ++ render (al_event a) "Weather Warning")
    (match al_description a with
     | Some description => description
     | None => "Weather alert issued for your area"
     end)
    "weather" default_location "weather"
    (Some "https://openweathermap.org")
    (Some (dumps_alert a)).

(** [any(condition in main for condition in severe_conditions)] *)
Definition is_severe (main : string) : bool :=
  existsb (fun condition => contains condition main) severe_conditions.

(** The first [for] loop: the incidents when it is left, and the exception
    that left it, if any ([None.lower()] raises). *)
Fixpoint conditions_loop (body : weather_body) (entries : list weather_entry)
    (incidents : list incident_data) : list incident_data * option string :=
  match entries with
  | [] => (incidents, None)
  | weather :: rest =>
      match we_main weather with
      | IsNone => (incidents, Some "AttributeError")
      | Missing | Text _ =>
          let main := lower (render (we_main weather) "") in
          if is_severe main
          then conditions_loop body rest (incidents ++ [condition_incident body weather])
          else conditions_loop body rest incidents
      end
  end.

(** The part of the [try] block after the first loop. *)
Definition alerts_part (body : weather_body) (incidents : list incident_data)
  : list incident_data :=
  match wb_coord body with
  | NoCoord => incidents
  | BrokenCoord => incidents
  | Coord lat lon =>
      match alerts_api lat lon with
      | AlertsFailed _ => incidents
      | AlertsResponse status_code json =>
          if (status_code =? 200)%Z then
            match json with
            | Raise _ => incidents
            | Ok None => incidents
            | Ok (Some alerts) => incidents ++ map alert_incident alerts
            end
          else incidents
      end
  end.

(** Both handlers log and fall through to [return incidents]. *)
Definition fetch_weather_data : list incident_data :=
  match weather_api default_location with
  | WeatherFailed _ => []
  | WeatherJson body =>
      match
        match wb_weather body with
        | Some entries => conditions_loop body entries []
        | None => ([], None)
        end
      with
      | (incidents, Some _) => incidents
      | (incidents, None) => alerts_part body incidents
      end
  end.

(** ** fetch_all_data *)

Variable json_dumps : article -> string.
Variable news_api : string -> nat -> http_reply.

(** One cycle: [agent_ready] says whether the notification agent exists
    or can be built, [env] is the outside world of [process_incidents].
    The result is the tables after the cycle and what the agent did. *)
Definition fetch_all_data (agent_ready : bool) (env : nat -> notification_agent.World)
    (db : Db) : Db * list notification_agent.Outcome :=
  let weather_incidents := fetch_weather_data in
  let news_incidents := fetch_news_data json_dumps default_location news_api in
  let all_incidents := (weather_incidents ++ news_incidents)%list in
  match all_incidents with
  | [] => (db, [])
  | _ =>
      if agent_ready then
        let r := notification_agent.process_incidents env db all_incidents in
        (fst (fst r), snd r)
      else (db, [])
  end.

End Weather.

End data_agent.

(* ================================================================== *)
(** * routes.py *)
(* ================================================================== *)

Module routes.

(** What a view returns: the payload of a [success: True] answer with
    status 200, or a status and an error text. *)
Inductive Response (A : Type) : Type :=
| Success (payload : A)
| Failure (status : Z) (error : string).
Arguments Success {A} payload.
Arguments Failure {A} status error.

(** [Query.count()] *)
Definition count {A} (p : A -> bool) (rows : list A) : nat :=
  List.length (filter p rows).

(** ** get_incidents_by_severity *)

Definition valid_severities : list string := ["low"; "medium"; "high"; "critical"].

(** [created_at.desc()] *)
Definition newer_first (a b : Incident) : bool := (created_at b <=? created_at a)%Z.

(** The rows whose [to_dict()] the view sends, in order. *)
Definition get_incidents_by_severity (db : Db) (query_ok : bool) (sev : string)
  : Response (list Incident) :=
  if negb (in_list sev valid_severities) then Failure 400 "Invalid severity level"
  else
    if query_ok then
      Success (firstn 10
                 (order_by newer_first
                    (filter (fun i => String.eqb (severity i) sev && is_verified i)
                       (incidents db))))
    else Failure 500 "Failed to fetch incidents".

(** ** get_stats *)

Record Stats := mkStats {
  total_incidents_24h : nat;
  critical_incidents_24h : nat;
  high_incidents_24h : nat;
  weather_incidents_24h : nat;
  news_incidents_24h : nat;
  active_subscribers : nat;
  last_updated : Z
}.

(** [now] is the clock when the window is computed, [now'] when the
    answer is built. *)
Definition get_stats (db : Db) (now now' : Z) (query_ok : bool) : Response Stats :=
  let last_24h := (now - hours24)%Z in
  if query_ok then
    Success
      (mkStats
         (count (fun i => (last_24h <=? created_at i)%Z && is_verified i)
            (incidents db))
         (count (fun i => (last_24h <=? created_at i)%Z
                          && String.eqb (severity i) "critical" && is_verified i)
            (incidents db))
         (count (fun i => (last_24h <=? created_at i)%Z
                          && String.eqb (severity i) "high" && is_verified i)
            (incidents db))
         (count (fun i => (last_24h <=? created_at i)%Z
                          && String.eqb (source i) "weather" && is_verified i)
            (incidents db))
         (count (fun i => (last_24h <=? created_at i)%Z
                          && String.eqb (source i) "news" && is_verified i)
            (incidents db))
         (count email_notifications (users db))
         now')
  else Failure 500 "Failed to fetch statistics".

(** ** subscribe (POST) *)

(** The three fields of the form; a field that was not sent reads as the
    empty string. *)
Record Form := mkForm {
  form_email : string;
  form_location : string;
  form_username : string
}.

(** Where the view redirects to, with the message it flashes. *)
Inductive Redirect :=
| ToSubscribe (message : string)
| ToIndex (message : string).

(** The commit of a new user: the engine refuses a second row with the
    same [username] or [email], both declared unique, and may fail for
    reasons of its own. *)
Definition commit_user (commit_ok : bool) (db : Db) (user : User) : result Db :=
  if commit_ok
     && negb (existsb (fun u => String.eqb (username u) (username user)) (users db))
     && negb (existsb (fun u => String.eqb (email u) (email user)) (users db))
  then Ok (mkDb (incidents db) (users db ++ [user]) (subscriptions db)
             (notification_logs db))
  else Raise "commit failed".

(** The part of the [try] block after the check of the fields:
    [query_ok] says whether the lookup by email goes through. *)
Definition subscribe_try (db : Db) (now : Z) (query_ok commit_ok : bool)
    (email location username : string) : result (Db * Redirect) :=
  existing_user <- (if query_ok
                    then Ok (first (fun u => String.eqb (models.email u) email) (users db))
                    else Raise "query failed") ;;
  match existing_user with
  | Some _ => Ok (db, ToIndex "Email already subscribed to notifications.")
  | None =>
      let user :=
        mkUser (next_id (map user_id (users db))) username email location true now in
      db' <- commit_user commit_ok db user ;;
      Ok (db', ToIndex "Successfully subscribed to CityGuard AI notifications!")
  end.

Definition subscribe (db : Db) (now : Z) (query_ok commit_ok : bool) (form : Form)
  : Db * Redirect :=
  let email := strip (form_email form) in
  let location := strip (form_location form) in
  let username := strip (form_username form) in
  if negb (truthy (Some email)) || negb (truthy (Some location))
     || negb (truthy (Some username))
  then (db, ToSubscribe "Please fill in all required fields.")
  else
    match subscribe_try db now query_ok commit_ok email location username with
    | Ok r => r
    | Raise _ => (db, ToSubscribe "Error creating subscription. Please try again.")
    end.

End routes.

(* ================================================================== *)
(** * Vocabulary of the specification *)
(* ================================================================== *)

(** [x] occurs in [s] as a contiguous run of characters. *)
Definition is_substring (x s : string) : Prop :=
  exists pre post, s = pre ++ x ++ post.

(** The ordinal of a severity: low=1, medium=2, high=3, critical=4; any
    other string counts as medium. *)
Definition severity_ordinal (s : string) : Z :=
  if String.eqb s "low" then 1
  else if String.eqb s "medium" then 2
  else if String.eqb s "high" then 3
  else if String.eqb s "critical" then 4
  else 2.

(** The test the loop body of [get_eligible_users] applies to one user. *)
Definition passes (incident : Incident) (user : User) : bool :=
  notification_agent.location_matches user incident
  && (2 <=? dict_get notification_agent.severity_levels (severity incident) 2)%Z.

(** The model call behind [analyze_incident] failed: it raised, its text
    was empty, or the text did not decode to a valid analysis. *)
Inductive llm_failed : gemini.analysis_reply -> Prop :=
| llm_raised e : llm_failed (gemini.AnalysisRaised e)
| llm_empty raw_json decoded :
    truthy raw_json = false -> llm_failed (gemini.AnalysisText raw_json decoded)
| llm_invalid raw_json e : llm_failed (gemini.AnalysisText raw_json (Raise e)).

(** The analysis [process_incidents] gets from [analyze_incident] for one
    incident, and the answer of [filter_credible_sources]; an exception
    would reach the [except] branch of the loop body. *)
Definition primary_analysis (w : notification_agent.World) (d : incident_data)
  : result gemini.IncidentAnalysis :=
  gemini.analyze_incident (d_title d) (d_description d) (d_source d) (d_location d)
    (notification_agent.analysis_reply w).

Definition credibility_check (w : notification_agent.World) (d : incident_data)
  : result bool :=
  gemini.filter_credible_sources (d_description d)
    (match d_url d with Some u => Some u | None => Some "" end)
    (notification_agent.credibility_reply w).

(** The rows of the incident table that carry the title and source of [d]. *)
Definition rows_with_key (d : incident_data) (rows : list Incident) : list Incident :=
  filter (notification_agent.same_title_source d) rows.

(** The notification row that belongs to one call of the mail transport:
    "sent" when it returned true, "failed" with a message otherwise. *)
Definition records_attempt (w : notification_agent.World) (incident : Incident)
    (user : User) (log : NotificationLog) : Prop :=
  incident_id log = id incident
  /\ log_user_id log = Some (user_id user)
  /\ notification_type log = "email"
  /\ log_id log = None
  /\ match notification_agent.send_alert_email w user incident with
     | notification_agent.EmailReturned true =>
         status log = "sent" /\ error_message log = None
     | notification_agent.EmailReturned false =>
         status log = "failed" /\ error_message log = Some "Email sending failed"
     | notification_agent.EmailRaised e =>
         status log = "failed" /\ error_message log = Some e
     end.

(** Calls and rows in turn: every call is followed by its row. *)
Fixpoint in_turn (users : list User) (logs : list NotificationLog)
  : list notification_agent.Event :=
  match users, logs with
  | user :: users', log :: logs' =>
      notification_agent.Called user :: notification_agent.Added log
      :: in_turn users' logs'
  | _, _ => []
  end.

Module news_spec.

Section NewsVocabulary.

Variable json_dumps : data_agent.article -> string.
Variable default_location : string.
Variable news_api : string -> nat -> data_agent.http_reply.

(** The article [a] is well formed, and [i] is the incident made of it:
    title and description are non-empty strings, and the title does not
    contain the marker "[Removed]". *)
Definition kept_as (a : data_agent.article) (i : incident_data) : Prop :=
  exists title description,
    data_agent.art_title a = data_agent.Str title /\ title <> ""
    /\ data_agent.art_description a = data_agent.Str description /\ description <> ""
    /\ ~ is_substring "[Removed]" title
    /\ i = data_agent.incident_of json_dumps default_location title description a.

(** What the loop body adds for one article: nothing, or one incident. *)
Definition extract (a : data_agent.article) : list incident_data :=
  data_agent.article_step json_dumps default_location [] a.

(** The article lists the loop receives for the keywords [kws], in order,
    each asked for with a page size of 5: it stops at the first request
    that fails, and a body without [articles] counts as an empty list. *)
Fixpoint received (kws : list string) : list (list data_agent.article) :=
  match kws with
  | [] => []
  | keyword :: kws' =>
      match news_api (data_agent.query_of default_location keyword) 5 with
      | data_agent.RequestFailed _ => []
      | data_agent.JsonBody None => [] :: received kws'
      | data_agent.JsonBody (Some articles) => articles :: received kws'
      end
  end.

End NewsVocabulary.

End news_spec.

(** The outcomes of a run of the loop from iteration [n] on. *)
Fixpoint loop_outcomes (env : nat -> notification_agent.World) (n : nat) (db : Db)
    (l : list incident_data) : list notification_agent.Outcome :=
  match l with
  | [] => []
  | d :: rest =>
      let (db', o) := notification_agent.process_incident db (env n) d in
      o :: loop_outcomes env (S n) db' rest
  end.

(** The tables a run of the loop leaves, from iteration [n] on. *)
Fixpoint loop_db (env : nat -> notification_agent.World) (n : nat) (db : Db)
    (l : list incident_data) : Db :=
  match l with
  | [] => db
  | d :: rest =>
      loop_db env (S n) (fst (notification_agent.process_incident db (env n) d)) rest
  end.




(** A row as the notification agent writes it: verified, with a relevance
    score of at least 0.3. *)
Definition stored_well (i : Incident) : Prop :=
  is_verified i = true /\ ge (relevance_score i) 0.3 = true.

(** [db'] comes from [db] without a loss: same users and subscriptions, no
    incident row fewer and at most [n] more, and the old notification rows
    first. *)
Definition extends_by (n : nat) (db db' : Db) : Prop :=
  users db' = users db
  /\ subscriptions db' = subscriptions db
  /\ (List.length (incidents db) <= List.length (incidents db')
      <= List.length (incidents db) + n)%nat
  /\ exists logs, notification_logs db' = (notification_logs db ++ logs)%list.

(** What [save_incident] recognises a row by. *)
Definition key_of (i : Incident) : string * string := (title i, source i).

(** Every character of [s] is white space. *)
Fixpoint all_space (s : string) : bool :=
  match s with
  | EmptyString => true
  | String c s' => is_space c && all_space s'
  end.

(** An item whose text the summary cannot slice: its [ai_summary] is
    [None], or it has none and its [description] is [None]. *)
Definition unsliceable (inc : gemini.summary_item) : Prop :=
  gemini.item_ai_summary inc = IsNone
  \/ (gemini.item_ai_summary inc = Missing /\ gemini.item_description inc = IsNone).

(** A binary64 value that is a number. *)
Definition is_number (x : float) : bool :=
  match Prim2SF x with
  | S754_nan => false
  | _ => true
  end.

(** The place of a binary64 number among the others, as three integers
    compared from the left: sign class, exponent, mantissa. *)
Definition float_key (x : spec_float) : Z * Z * Z :=
  match x with
  | S754_zero _ => (0, 0, 0)
  | S754_infinity s => (if s then -2 else 2, 0, 0)
  | S754_nan => (0, 0, 0)
  | S754_finite s m e => if s then (-1, - e, - Z.pos m) else (1, e, Z.pos m)
  end%Z.

Definition lex3 (a b : Z * Z * Z) : comparison :=
  let '(a1, a2, a3) := a in
  let '(b1, b2, b3) := b in
  match (a1 ?= b1)%Z with
  | Eq => match (a2 ?= b2)%Z with Eq => (a3 ?= b3)%Z | c => c end
  | c => c
  end.

(** The place of a row in the dashboard's order: relevance, then time of
    creation. *)
Definition rank_key (i : Incident) : Z * Z * Z * Z :=
  let '(k1, k2, k3) := float_key (Prim2SF (relevance_score i)) in
  (k1, k2, k3, created_at i).

Definition lex4_le (a b : Z * Z * Z * Z) : Prop :=
  let '(a1, a2, a3, a4) := a in
  let '(b1, b2, b3, b4) := b in
  (a1 < b1 \/ (a1 = b1 /\ (a2 < b2 \/ (a2 = b2 /\ (a3 < b3 \/ (a3 = b3 /\ a4 <= b4))))))%Z.

(** [a] is listed before [b]: it is at least as relevant, and at least as
    new when they are equally relevant. *)
Definition listed_before (a b : Incident) : Prop :=
  notification_agent.ranks_before a b = true.

(** The arguments [hours] and the clock [now] give a cutoff time: the
    [timedelta] and the subtraction stay within their ranges. *)
Definition window_ok (now hours : Z) : Prop :=
  (-999999999 <= hours / 24 <= 999999999)%Z
  /\ (datetime_min <= now - hours * 3600 * 1000000 <= datetime_max)%Z.

(** The rows the query of [get_recent_incidents] selects, before they are
    ordered and cut. *)
Definition recent_rows (db : Db) (now hours : Z) (min_relevance : float)
  : list Incident :=
  filter (notification_agent.recent_filter (now - hours * 3600 * 1000000) min_relevance)
    (incidents db).

(** The order of the dashboard: [a] is at least as relevant as [b], and
    not older when the two are equally relevant. *)
Definition dashboard_order (a b : Incident) : Prop :=
  ge (relevance_score a) (relevance_score b) = true
  /\ (PrimFloat.eqb (relevance_score a) (relevance_score b) = true ->
      (created_at b <= created_at a)%Z).

Module weather_spec.

Section WeatherVocabulary.

Variable dumps_weather : data_agent.weather_body -> string.
Variable dumps_alert : data_agent.alert -> string.
Variable default_location : string.
Variable alerts_api : string -> string -> data_agent.alerts_reply.

(** The condition of a [weather] entry is one of the six: its [main], in
    lower case, contains one of their names. *)
Definition severe (weather : data_agent.weather_entry) : bool :=
  data_agent.is_severe (lower (render (data_agent.we_main weather) "")).

(** The incidents of the [weather] entries: one for each severe one. *)
Definition condition_incidents (body : data_agent.weather_body)
    (entries : list data_agent.weather_entry) : list incident_data :=
  map (data_agent.condition_incident dumps_weather default_location body)
    (filter severe entries).

(** The alerts the second request delivers: those of its [alerts] key when
    the body has coordinates, the request returns with status 200 and its
    body decodes; none otherwise. *)
Definition alerts_received (body : data_agent.weather_body) : list data_agent.alert :=
  match data_agent.wb_coord body with
  | data_agent.Coord lat lon =>
      match alerts_api lat lon with
      | data_agent.AlertsResponse 200 (Ok (Some alerts)) => alerts
      | _ => []
      end
  | _ => []
  end.

(** The [weather] entries of a body, none when the key is missing. *)
Definition entries_of (body : data_agent.weather_body) : list data_agent.weather_entry :=
  match data_agent.wb_weather body with
  | Some entries => entries
  | None => []
  end.

(** An incident as the weather extractor makes them. *)
Definition weather_shaped (d : incident_data) : Prop :=
  d_source d = "weather" /\ d_category d = "weather"
  /\ d_location d = default_location
  /\ prefix "Weather Alert: " (d_title d) = true
  /\ d_url d <> None /\ d_raw_data d <> None.

End WeatherVocabulary.

End weather_spec.

(** A row that comes from one of the two extractors. *)
Definition from_a_provider (i : Incident) : Prop :=
  source i = "weather" \/ source i = "news".

(* ================================================================== *)
(** * Sample data *)
(* ================================================================== *)

Module sample.

Import notification_agent.

Definition alice : User := mkUser 1 "alice" "alice@example.org" "New York" true 0.
Definition bob : User := mkUser 2 "bob" "bob@example.org" "Boston" true 0.
Definition carol : User := mkUser 3 "carol" "carol@example.org" "new york, ny" false 0.
Definition dave : User := mkUser 4 "dave" "dave@example.org" "NEW YORK, NY, USA" true 0.

Definition db0 : Db := mkDb [] [alice; bob; carol; dave] [] [].

Definition storm : incident_data :=
  mkIncidentData "Weather Alert: Thunderstorm" "Severe thunderstorm warning"
    "weather" "New York, NY" "weather" (Some "https://openweathermap.org") None.

Definition verdict (relevance : float) (severity : string) (credible : bool)
  : gemini.IncidentAnalysis :=
  gemini.mkIncidentAnalysis relevance severity "weather" credible "Storm ahead.".

(** The model answers with [a], the credibility check with [text]; the
    database and the mail transport work. *)
Definition world (a : gemini.IncidentAnalysis) (text : string) (now : Z) : World :=
  mkWorld (gemini.AnalysisText (Some "{...}") (Ok a)) (gemini.TextReply (Some text))
    now now true true (fun _ _ => EmailReturned true) true true.

Definition stored (severity : string) : Incident :=
  mkIncident 1 "Weather Alert: Thunderstorm" "Severe thunderstorm warning"
    "weather" "New York, NY" severity "weather" None None (Some "Storm ahead.")
    0.8 true 0 0.

(** A run on one incident: the model answers with [a], the credibility
    check with "true". *)
Definition run (a : gemini.IncidentAnalysis) : Db * list Z * list Outcome :=
  process_incidents (fun _ => world a "true" 0) db0 [storm].

Definition outcome (a : gemini.IncidentAnalysis) : Outcome :=
  snd (process_incident db0 (world a "true" 0) storm).

(** A row for [storm] that was created at time 0, and a clock reading 25
    hours later. *)
Definition old_storm : Incident :=
  mkIncident 1 "Weather Alert: Thunderstorm" "Thunderstorm expected"
    "weather" "New York" "medium" "weather" None None None 0 false 0 0.

Definition db_old : Db := mkDb [old_storm] [alice; bob; carol; dave] [] [].

Definition hours (n : Z) : Z := (n * 3600 * 1000000)%Z.

(** A transport that works for alice and raises for everybody else. *)
Definition flaky_world : World :=
  mkWorld (gemini.AnalysisRaised "down") (gemini.TextRaised "down")
    0 0 true true
    (fun user _ => if (user_id user =? 1)%Z then EmailReturned true
                   else EmailRaised "SMTP timeout")
    true true.

(** The model answers with [a] and the check with "true"; the commit of
    the notification rows fails. *)
Definition log_failure (a : gemini.IncidentAnalysis) : World :=
  mkWorld (gemini.AnalysisText (Some "{...}") (Ok a)) (gemini.TextReply (Some "true"))
    0 0 true true (fun _ _ => EmailReturned true) false true.


(** The same answers outside an application context: every use of the
    session raises, the rollback too. *)
Definition no_context (a : gemini.IncidentAnalysis) : World :=
  mkWorld (gemini.AnalysisText (Some "{...}") (Ok a)) (gemini.TextReply (Some "true"))
    0 0 false false (fun _ _ => EmailReturned true) false false.




(** A provider that answers the first keyword's query with six articles,
    whatever the page size asked for, and the other queries with none. *)
Definition story (n : string) : data_agent.article :=
  data_agent.mkArticle (data_agent.Str ("Accident " ++ n))
    (data_agent.Str "Two cars collided.") (data_agent.Str "https://example.org").

Definition six_stories : list data_agent.article :=
  [story "1"; story "2"; story "3"; story "4"; story "5"; story "6"].

Definition generous_provider (q : string) (page_size : nat)
  : data_agent.http_reply :=
  if String.eqb q "accident AND New York"
  then data_agent.JsonBody (Some six_stories)
  else data_agent.JsonBody (Some []).

Definition removed_story : data_agent.article :=
  data_agent.mkArticle (data_agent.Str "[Removed]") (data_agent.Str "[Removed]")
    data_agent.Null.

Definition untitled_story : data_agent.article :=
  data_agent.mkArticle data_agent.Null (data_agent.Str "No title here.")
    data_agent.Absent.

(** A provider that keeps to the page size it is asked for. *)
Definition modest_provider (q : string) (page_size : nat)
  : data_agent.http_reply :=
  if String.eqb q "accident AND New York"
  then data_agent.JsonBody
         (Some (firstn page_size [story "1"; removed_story; untitled_story]))
  else if String.eqb q "emergency AND New York"
  then data_agent.JsonBody None
  else data_agent.JsonBody (Some (firstn page_size [story "2"])).

Definition dumps (a : data_agent.article) : string := "{}".

(** A table for the dashboard: three verified rows and one that is not. *)
Definition row (n : Z) (relevance : float) (verified : bool) (created : Z) : Incident :=
  mkIncident n "Weather Alert: Rain" "Light rain" "weather" "New York" "medium"
    "weather" None None (Some "Rain.") relevance verified created created.

Definition db_dash : Db :=
  mkDb [row 1 0.5 true 0; row 2 0.9 true (hours 1); row 3 0.5 true (hours 2);
        row 4 0.95 false (hours 2)]
    [alice] [] [].

(** A weather answer with rain, a clear sky and mist, and one alert. *)
Definition rainy_body : data_agent.weather_body :=
  data_agent.mkWeatherBody
    (Some [data_agent.mkWeatherEntry (Text "Rain") (Text "light rain");
           data_agent.mkWeatherEntry (Text "Clear") (Text "clear sky");
           data_agent.mkWeatherEntry (Text "Mist") Missing])
    "7.5" "5128581" (data_agent.Coord "40.71" "-74.01").

Definition flood_alert : data_agent.alert :=
  data_agent.mkAlert (Text "Flood Warning") (Some "River levels are rising.").

Definition weather_provider (q : string) : data_agent.weather_reply :=
  data_agent.WeatherJson rainy_body.

Definition alerts_provider (lat lon : string) : data_agent.alerts_reply :=
  data_agent.AlertsResponse 200 (Ok (Some [flood_alert])).

Definition failing_alerts (lat lon : string) : data_agent.alerts_reply :=
  data_agent.AlertsFailed "timeout".

Definition erin_form : routes.Form :=
  routes.mkForm "  erin@example.org " "New York" "erin".

End sample.

(* ================================================================== *)
(** * Facts about the primitives *)
(* ================================================================== *)

Section StringFacts.

Lemma prefix_app (x post : string) : prefix x (x ++ post) = true.
Proof.
  induction x as [|c x IH]; simpl.
  - destruct post; reflexivity.
  - destruct (ascii_dec c c) as [_|N]; [exact IH | contradiction].
Qed.

Lemma prefix_split (x s : string) :
  prefix x s = true -> exists post, s = x ++ post.
Proof.
  revert s; induction x as [|c x IH]; intros s H.
  - exists s. reflexivity.
  - destruct s as [|c' s]; simpl in H; [discriminate|].
    destruct (ascii_dec c c') as [->|]; [|discriminate].
    destruct (IH s H) as [post ->]. exists post. reflexivity.
Qed.

Lemma contains_nil (x : string) : contains x "" = prefix x "".
Proof. cbn [contains]. destruct (prefix x ""); reflexivity. Qed.

Lemma contains_cons (x : string) (c : ascii) (s : string) :
  contains x (String c s) = prefix x (String c s) || contains x s.
Proof. cbn [contains]. destruct (prefix x (String c s)); reflexivity. Qed.

(** [contains] is the substring relation of Python's [in]. *)
Lemma contains_spec (x s : string) :
  contains x s = true <-> exists pre post, s = pre ++ x ++ post.
Proof.
  split.
  - induction s as [|c s IH]; intros H.
    + rewrite contains_nil in H.
      apply prefix_split in H. destruct H as [post ->].
      exists "", post. reflexivity.
    + rewrite contains_cons in H. apply orb_true_iff in H.
      destruct H as [P|H].
      * apply prefix_split in P. destruct P as [post ->].
        exists "", post. reflexivity.
      * destruct (IH H) as (pre & post & ->).
        exists (String c pre), post. reflexivity.
  - intros (pre & post & ->).
    induction pre as [|c pre IH].
    + change ("" ++ x ++ post) with (x ++ post).
      destruct (x ++ post) as [|c t] eqn:E.
      * rewrite contains_nil, <- E. apply prefix_app.
      * rewrite contains_cons, <- E, prefix_app. reflexivity.
    + change (String c pre ++ x ++ post) with (String c (pre ++ x ++ post)).
      rewrite contains_cons, IH. apply orb_true_r.
Qed.

Lemma contains_refl (s : string) : contains s s = true.
Proof.
  apply contains_spec. exists "", "". simpl.
  induction s as [|c s IH]; simpl; [reflexivity | now rewrite <- IH].
Qed.

(** [s[:n]] is the first [n] characters of [s], all of it when it is
    shorter. *)
Lemma slice_to_prefix (n : nat) (s : string) :
  exists rest, s = slice_to n s ++ rest /\
               String.length (slice_to n s) = Nat.min n (String.length s).
Proof.
  unfold slice_to. revert s; induction n as [|n IH]; intros s.
  - exists s. destruct s; simpl; split; reflexivity.
  - destruct s as [|c s]; simpl.
    + exists "". split; reflexivity.
    + destruct (IH s) as (rest & E & L). exists rest. split.
      * simpl. now rewrite <- E.
      * now rewrite L.
Qed.

Lemma dict_get_absent {V} (d : list (string * V)) (k : string) (default : V) :
  ~ In k (map fst d) -> dict_get d k default = default.
Proof.
  induction d as [|[k' v] d IH]; simpl; intros H; [reflexivity|].
  destruct (String.eqb_spec k' k) as [->|_].
  - exfalso. apply H. now left.
  - apply IH. intros I. apply H. now right.
Qed.

End StringFacts.

(** The dispatch threshold is above the persistence threshold, also on
    binary64 values: a relevance that is [>= 0.7] is [>= 0.3]. *)
Lemma ge_07_ge_03 (r : float) : ge r 0.7 = true -> ge r 0.3 = true.
Proof.
  unfold ge. rewrite !FloatAxioms.leb_spec.
  change (FloatOps.Prim2SF 0.7) with (SpecFloat.S754_finite false 6305039478318694 (-53)).
  change (FloatOps.Prim2SF 0.3) with (SpecFloat.S754_finite false 5404319552844595 (-54)).
  unfold SpecFloat.SFleb, SpecFloat.SFcompare.
  destruct (FloatOps.Prim2SF r) as [s|s| |s m e]; try destruct s;
    try discriminate; auto.
  destruct (Z.compare_spec (-53) e) as [E|E|E];
    destruct (Z.compare_spec (-54) e) as [F|F|F];
    try lia; try discriminate; auto.
Qed.

(* ================================================================== *)
(** * get_eligible_users *)
(* ================================================================== *)

Section EligibleUsers.

Import notification_agent.

Lemma severity_ordinal_levels (s : string) :
  dict_get severity_levels s 2%Z = severity_ordinal s.
Proof.
  unfold severity_ordinal, severity_levels. cbn [dict_get].
  rewrite !(String.eqb_sym _ s). reflexivity.
Qed.

(** The floor lets everything through but ["low"]. *)
Lemma severity_floor (s : string) :
  (2 <=? severity_ordinal s)%Z = negb (String.eqb s "low").
Proof.
  unfold severity_ordinal.
  destruct (String.eqb s "low"); [reflexivity|].
  destruct (String.eqb s "medium"); [reflexivity|].
  destruct (String.eqb s "high"); [reflexivity|].
  destruct (String.eqb s "critical"); reflexivity.
Qed.

Lemma eligible_step_passes (incident : Incident) (acc : list User) (user : User) :
  eligible_step incident acc user =
  (acc ++ (if passes incident user then [user] else []))%list.
Proof.
  unfold eligible_step, passes.
  destruct (location_matches user incident); cbn [andb].
  - destruct (2 <=? _)%Z; [reflexivity | now rewrite app_nil_r].
  - now rewrite app_nil_r.
Qed.

(** The loop is a filter. *)
Lemma eligible_loop_filter (incident : Incident) (users acc : list User) :
  fold_left (eligible_step incident) users acc
  = (acc ++ filter (passes incident) users)%list.
Proof.
  revert acc; induction users as [|u users IH]; intros acc; cbn [fold_left filter].
  - now rewrite app_nil_r.
  - rewrite IH, eligible_step_passes.
    destruct (passes incident u); rewrite <- app_assoc; reflexivity.
Qed.

Lemma filter_filter {A} (p q : A -> bool) (l : list A) :
  filter q (filter p l) = filter (fun x => p x && q x) l.
Proof.
  induction l as [|x l IH]; cbn [filter]; [reflexivity|].
  destruct (p x); cbn [filter andb]; rewrite IH; reflexivity.
Qed.

Lemma get_eligible_users_filter (db : Db) (w : World) (incident : Incident) :
  users_query_ok w = true ->
  get_eligible_users db w incident
  = filter (fun user => email_notifications user && passes incident user) (users db).
Proof.
  intros Hq. unfold get_eligible_users, query_opted_in. rewrite Hq.
  rewrite eligible_loop_filter. cbn [app]. apply filter_filter.
Qed.

Lemma location_matches_spec (user : User) (incident : Incident) :
  location_matches user incident = true <->
  is_substring (lower (user_location user)) (lower (location incident))
  \/ is_substring (lower (location incident)) (lower (user_location user)).
Proof.
  unfold location_matches, is_substring.
  rewrite orb_true_iff, !contains_spec. reflexivity.
Qed.

(** C5: [get_eligible_users] selects exactly the users with
    [email_notifications] set whose lowercased location is a substring of
    the incident's lowercased location, or the other way round, provided
    the incident's severity ordinal (low=1, medium=2, high=3, critical=4)
    is at least 2. The result keeps the order of the user table, and it
    is the same whatever the subscription table holds: no stored
    [min_severity] is read. *)
Theorem get_eligible_users_selection (db : Db) (w : World) (incident : Incident) :
  users_query_ok w = true ->
  get_eligible_users db w incident
  = filter (fun user =>
              email_notifications user
              && (contains (lower (user_location user)) (lower (location incident))
                  || contains (lower (location incident)) (lower (user_location user)))
              && (2 <=? severity_ordinal (severity incident))%Z)
      (users db)
  /\ (forall user,
        In user (get_eligible_users db w incident) <->
        In user (users db)
        /\ email_notifications user = true
        /\ (is_substring (lower (user_location user)) (lower (location incident))
            \/ is_substring (lower (location incident)) (lower (user_location user)))
        /\ (2 <= severity_ordinal (severity incident))%Z)
  /\ (forall subs,
        get_eligible_users (with_subscriptions db subs) w incident
        = get_eligible_users db w incident).
Proof.
  intros Hq. split; [|split].
  - rewrite (get_eligible_users_filter db w incident Hq).
    apply filter_ext. intros user. unfold passes, location_matches.
    rewrite severity_ordinal_levels. apply andb_assoc.
  - intros user. rewrite (get_eligible_users_filter db w incident Hq).
    rewrite filter_In. unfold passes.
    rewrite !andb_true_iff, location_matches_spec, severity_ordinal_levels.
    rewrite Z.leb_le. tauto.
  - intros subs. unfold get_eligible_users, query_opted_in. reflexivity.
Qed.

Lemma get_eligible_users_selection_witness :
  get_eligible_users sample.db0 (sample.world (sample.verdict 0.8 "high" true) "true" 0)
    (sample.stored "high")
  = [sample.alice; sample.dave].
Proof.
  destruct (get_eligible_users_selection sample.db0
              (sample.world (sample.verdict 0.8 "high" true) "true" 0)
              (sample.stored "high") eq_refl) as [E _].
  rewrite E. reflexivity.
Defined.

(** A subscriber in "New York" matches an incident in "New York, NY" and
    the other way round; one in "Boston" does not. *)
Example location_matches_new_york :
  location_matches sample.alice (sample.stored "high") = true
  /\ location_matches sample.dave (sample.stored "high") = true
  /\ location_matches sample.bob (sample.stored "high") = false.
Proof. repeat split; reflexivity. Qed.

(** C10: a severity outside "low", "medium", "high", "critical" gets the
    ordinal 2, that of "medium"; the incident passes the floor, and every
    user with [email_notifications] set whose location matches is
    selected. *)
Theorem unknown_severity_counts_as_medium (db : Db) (w : World) (incident : Incident) :
  ~ In (severity incident) ["low"; "medium"; "high"; "critical"] ->
  users_query_ok w = true ->
  dict_get severity_levels (severity incident) 2%Z = 2%Z
  /\ dict_get severity_levels (severity incident) 2%Z
     = dict_get severity_levels "medium" 2%Z
  /\ get_eligible_users db w incident
     = filter (fun user => email_notifications user && location_matches user incident)
         (users db).
Proof.
  intros Hs Hq.
  assert (L : dict_get severity_levels (severity incident) 2%Z = 2%Z)
    by (apply dict_get_absent; exact Hs).
  split; [exact L|]. split; [rewrite L; reflexivity|].
  rewrite (get_eligible_users_filter db w incident Hq).
  apply filter_ext. intros user. unfold passes. rewrite L.
  cbn [Z.leb Z.compare Pos.compare Pos.compare_cont]. now rewrite andb_true_r.
Qed.

Lemma unknown_severity_counts_as_medium_witness :
  get_eligible_users sample.db0 (sample.world (sample.verdict 0.8 "severe" true) "true" 0)
    (sample.stored "severe")
  = [sample.alice; sample.dave].
Proof.
  assert (N : ~ In (severity (sample.stored "severe")) ["low"; "medium"; "high"; "critical"]).
  { cbn. intros [H|[H|[H|[H|[]]]]]; discriminate H. }
  destruct (unknown_severity_counts_as_medium sample.db0
              (sample.world (sample.verdict 0.8 "severe" true) "true" 0)
              (sample.stored "severe") N eq_refl) as (_ & _ & E).
  rewrite E. reflexivity.
Defined.

End EligibleUsers.

(* ================================================================== *)
(** * analyze_incident and filter_credible_sources *)
(* ================================================================== *)

Section Gemini.

Import gemini.

Lemma llm_failed_iff (reply : analysis_reply) :
  llm_failed reply <-> raises (analyze_incident_try reply) = true.
Proof.
  split.
  - intros [e | raw decoded H | raw e]; cbn.
    + reflexivity.
    + now rewrite H.
    + destruct (truthy raw); reflexivity.
  - destruct reply as [e | raw decoded]; cbn.
    + constructor.
    + destruct (truthy raw) eqn:T; intros H.
      * destruct decoded as [a | e]; [discriminate H | apply llm_invalid].
      * now constructor.
Qed.

(** Whatever the model call does, [analyze_incident] returns. *)
Lemma analyze_incident_returns (title description source location : string)
    (reply : analysis_reply) :
  exists a, analyze_incident title description source location reply = Ok a.
Proof.
  unfold analyze_incident, try_except.
  destruct (analyze_incident_try reply) as [a | e]; eauto.
Qed.

(** A reply that decodes is returned as it is. *)
Lemma analyze_incident_decoded (title description source location : string)
    (raw_json : option string) (a : IncidentAnalysis) :
  truthy raw_json = true ->
  analyze_incident title description source location (AnalysisText raw_json (Ok a))
  = Ok a.
Proof. intros H. unfold analyze_incident. cbn. now rewrite H. Qed.

(** C3: when the model call raises, answers with an empty text, or with a
    text that does not decode to a valid analysis, [analyze_incident] does
    not raise: it returns relevance 0.5, severity "medium", category
    "other", credible, with the summary made of the title, ": ", the first
    100 characters of the description, and "...". *)
Theorem analyze_incident_fallback (title description source location : string)
    (reply : analysis_reply) :
  llm_failed reply ->
  analyze_incident title description source location reply
  = Ok (mkIncidentAnalysis 0.5 "medium" "other" true
          (title ++ ": " ++ slice_to 100 description ++ "..."))
  /\ raises (analyze_incident title description source location reply) = false
  /\ exists rest,
       description = slice_to 100 description ++ rest
       /\ String.length (slice_to 100 description)
          = Nat.min 100 (String.length description).
Proof.
  intros F.
  assert (E : analyze_incident title description source location reply
              = Ok (default_analysis title description)).
  { unfold analyze_incident, try_except.
    apply llm_failed_iff in F.
    destruct (analyze_incident_try reply); [discriminate F | reflexivity]. }
  split; [exact E|]. split; [now rewrite E|].
  apply slice_to_prefix.
Qed.

Lemma analyze_incident_fallback_witness :
  analyze_incident "Fire" "Warehouse fire on 5th Avenue" "news" "New York"
    (AnalysisText (Some "not json") (Raise "JSONDecodeError"))
  = Ok (mkIncidentAnalysis 0.5 "medium" "other" true
          "Fire: Warehouse fire on 5th Avenue...").
Proof.
  exact (proj1 (analyze_incident_fallback "Fire" "Warehouse fire on 5th Avenue"
                  "news" "New York" _ (llm_invalid (Some "not json") "JSONDecodeError"))).
Defined.

(** [filter_credible_sources] returns too, and says [true] on a failure. *)
Lemma filter_credible_sources_returns (content : string) (source_url : option string)
    (reply : text_reply) :
  exists c, filter_credible_sources content source_url reply = Ok c.
Proof.
  unfold filter_credible_sources, try_except.
  destruct (filter_credible_sources_try reply) as [c | e]; eauto.
Qed.

Example filter_credible_sources_examples :
  filter_credible_sources "text" None (TextReply (Some " True
")) = Ok true
  /\ filter_credible_sources "text" None (TextReply (Some "false")) = Ok false
  /\ filter_credible_sources "text" None (TextReply (Some "true.")) = Ok false
  /\ filter_credible_sources "text" None (TextReply None) = Ok false
  /\ filter_credible_sources "text" None (TextRaised "timeout") = Ok true.
Proof. repeat split; reflexivity. Qed.

End Gemini.

(* ================================================================== *)
(** * process_incidents *)
(* ================================================================== *)

Section ProcessIncidents.

Import notification_agent.

Lemma primary_analysis_returns (w : World) (d : incident_data) :
  exists a, primary_analysis w d = Ok a.
Proof. apply analyze_incident_returns. Qed.

Lemma credibility_check_returns (w : World) (d : incident_data) :
  exists c, credibility_check w d = Ok c.
Proof. apply filter_credible_sources_returns. Qed.

Lemma analyse_unfold (w : World) (d : incident_data)
    (primary : gemini.IncidentAnalysis) (c : bool) :
  primary_analysis w d = Ok primary ->
  credibility_check w d = Ok c ->
  analyse w d = Ok (override primary c).
Proof.
  unfold primary_analysis, credibility_check, analyse.
  intros -> ->. reflexivity.
Qed.

Lemma process_incident_unfold (db : Db) (w : World) (d : incident_data)
    (primary : gemini.IncidentAnalysis) (c : bool) :
  primary_analysis w d = Ok primary ->
  credibility_check w d = Ok c ->
  process_incident db w d = process_analysed db w d (override primary c).
Proof.
  intros P C. unfold process_incident.
  now rewrite (analyse_unfold w d primary c P C).
Qed.

(** The three ways a save ends: the commit goes through and a row is
    returned; it does not and the handler rolls back; it does not and the
    rollback raises. *)
Lemma save_analyzed_incident_cases (db : Db) (w : World) (d : incident_data)
    (a : gemini.IncidentAnalysis) :
  (incident_commit_ok w = true
   /\ exists db' i, save_analyzed_incident db w d a = (db', Ok (Some i)))
  \/ (incident_commit_ok w = false /\ rollback_ok w = true
      /\ save_analyzed_incident db w d a = (db, Ok None))
  \/ (incident_commit_ok w = false /\ rollback_ok w = false
      /\ exists e, save_analyzed_incident db w d a = (db, Raise e)).
Proof.
  unfold save_analyzed_incident, save_analyzed_incident_try, commit.
  destruct (incident_commit_ok w).
  - left. split; [reflexivity|].
    destruct (first _ (incidents db)); cbn; eauto.
  - right. destruct (rollback_ok w); [left | right];
      (split; [reflexivity|]); (split; [reflexivity|]);
      destruct (first _ (incidents db)); cbn; eauto.
Qed.

(** A save returns a row exactly when the commit goes through. *)
Lemma save_analyzed_incident_some (db : Db) (w : World) (d : incident_data)
    (a : gemini.IncidentAnalysis) :
  (exists i, snd (save_analyzed_incident db w d a) = Ok (Some i))
  <-> incident_commit_ok w = true.
Proof.
  destruct (save_analyzed_incident_cases db w d a)
    as [(C & db' & i & E)|[(C & R & E)|(C & R & e & E)]]; rewrite E; cbn [snd];
    split; intros H; eauto; try congruence;
    destruct H as [i H]; discriminate H.
Qed.

(** The three ways a dispatch ends in the loop: see [send_notifications]. *)
Lemma send_notifications_raised (db : Db) (w : World) (incident : Incident) :
  (raised (snd (send_notifications db w incident)) = None <-> log_commit_ok w = true)
  /\ committed (snd (send_notifications db w incident)) = log_commit_ok w.
Proof.
  unfold send_notifications, commit.
  destruct (log_commit_ok w); cbn; split; try reflexivity; split; congruence.
Qed.

(** A dispatch does not touch the incident table. *)
Lemma send_notifications_incidents (db : Db) (w : World) (incident : Incident) :
  incidents (fst (send_notifications db w incident)) = incidents db.
Proof.
  unfold send_notifications, commit. destruct (log_commit_ok w); reflexivity.
Qed.

(** What one iteration shows, in terms of the analysis after the override. *)
Lemma process_analysed_shows (db : Db) (w : World) (d : incident_data)
    (a : gemini.IncidentAnalysis) :
  let o := snd (process_analysed db w d a) in
  analysis_of o = Some a
  /\ save_called o = meets_minimum_criteria a
  /\ (saved_incident o <> None <->
      meets_minimum_criteria a = true /\ incident_commit_ok w = true)
  /\ (dispatch_called o = true <-> saved_incident o <> None /\ high_priority a = true)
  /\ (dispatch_called o = false -> dispatch_attempts o = [])
  /\ (save_called o = false -> fst (process_analysed db w d a) = db)
  /\ (reached_except o = true <->
      meets_minimum_criteria a = true
      /\ ((incident_commit_ok w = false /\ rollback_ok w = false)
          \/ (incident_commit_ok w = true /\ high_priority a = true
              /\ log_commit_ok w = false))).
Proof.
  unfold process_analysed. cbv zeta.
  destruct (meets_minimum_criteria a);
    [|cbn; intuition (auto; congruence)].
  destruct (save_analyzed_incident_cases db w d a)
    as [(C & db' & i & E)|[(C & R & E)|(C & R & e & E)]]; rewrite E, C;
    [|rewrite R; cbn; intuition (auto; congruence)..].
  destruct (high_priority a); [|cbn; intuition (auto; congruence)].
  destruct (send_notifications_raised db' w i) as [N _].
  destruct (send_notifications db' w i) as [db2 dispatch]. cbn [snd] in N.
  destruct (raised dispatch) as [e|]; destruct (log_commit_ok w);
    cbn; intuition (auto; congruence).
Qed.

(** The run is the list of the iterations' outcomes, one per incident. *)
Lemma process_loop_outcomes (env : nat -> World) (l : list incident_data) :
  forall n db processed_incidents outcomes,
    snd (process_loop env n db l processed_incidents outcomes)
    = (outcomes ++ loop_outcomes env n db l)%list.
Proof.
  induction l as [|d rest IH]; intros n db pr os; cbn [process_loop loop_outcomes].
  - now rewrite app_nil_r.
  - destruct (process_incident db (env n) d) as [db' o].
    rewrite IH, <- app_assoc. reflexivity.
Qed.

Lemma process_incidents_outcomes (env : nat -> World) (db : Db)
    (l : list incident_data) :
  outcomes_of (process_incidents env db l) = loop_outcomes env 0 db l.
Proof. unfold outcomes_of, process_incidents. now rewrite process_loop_outcomes. Qed.

Lemma loop_outcomes_length (env : nat -> World) (l : list incident_data) :
  forall n db, List.length (loop_outcomes env n db l) = List.length l.
Proof.
  induction l as [|d rest IH]; intros n db; cbn [loop_outcomes]; [reflexivity|].
  destruct (process_incident db (env n) d). cbn. now rewrite IH.
Qed.

(** Outcome [k] comes from incident [k], processed in the world of
    iteration [n + k] on the tables the earlier iterations left. *)
Lemma loop_outcomes_nth (env : nat -> World) (l : list incident_data) :
  forall n db k d o,
    nth_error l k = Some d ->
    nth_error (loop_outcomes env n db l) k = Some o ->
    exists db_k, o = snd (process_incident db_k (env (n + k)) d).
Proof.
  induction l as [|d0 rest IH]; intros n db k d o Hd Ho.
  - destruct k; discriminate Hd.
  - cbn [loop_outcomes] in Ho.
    destruct (process_incident db (env n) d0) as [db' o0] eqn:E.
    destruct k as [|k]; cbn in Hd, Ho.
    + injection Hd as <-. injection Ho as <-.
      exists db. rewrite Nat.add_0_r, E. reflexivity.
    + destruct (IH (S n) db' k d o Hd Ho) as [db_k ->].
      exists db_k. now rewrite Nat.add_succ_r.
Qed.

(** Outcome [k] of a run, by the analysis after the override. *)
Lemma process_incidents_nth (env : nat -> World) (db : Db) (l : list incident_data)
    (k : nat) (d : incident_data) (o : Outcome) :
  nth_error l k = Some d ->
  nth_error (outcomes_of (process_incidents env db l)) k = Some o ->
  exists db_k primary c,
    primary_analysis (env k) d = Ok primary
    /\ credibility_check (env k) d = Ok c
    /\ o = snd (process_analysed db_k (env k) d (override primary c)).
Proof.
  intros Hd Ho. rewrite process_incidents_outcomes in Ho.
  destruct (loop_outcomes_nth env l 0 db k d o Hd Ho) as [db_k ->].
  destruct (primary_analysis_returns (env k) d) as [primary P].
  destruct (credibility_check_returns (env k) d) as [c C].
  exists db_k, primary, c. cbn [Nat.add].
  now rewrite (process_incident_unfold db_k (env k) d primary c P C).
Qed.

Lemma in_list_high_critical (s : string) :
  in_list s ["high"; "critical"] = true <-> s = "high" \/ s = "critical".
Proof.
  unfold in_list. cbn [existsb]. rewrite !orb_true_iff, !String.eqb_eq.
  intuition discriminate.
Qed.

Lemma meets_minimum_criteria_iff (a : gemini.IncidentAnalysis) :
  meets_minimum_criteria a = true <->
  ge (gemini.relevance_score a) 0.3 = true /\ gemini.is_credible a = true.
Proof. unfold meets_minimum_criteria. apply andb_true_iff. Qed.

Lemma high_priority_iff (a : gemini.IncidentAnalysis) :
  high_priority a = true <->
  (gemini.severity a = "high" \/ gemini.severity a = "critical")
  /\ ge (gemini.relevance_score a) 0.7 = true.
Proof.
  unfold high_priority. rewrite andb_true_iff, in_list_high_critical. reflexivity.
Qed.

(** The store gate at its threshold: relevance 0.29 is dropped whatever
    the credibility, relevance 0.3 and credible is saved. *)
Example store_gate_threshold :
  sample.outcome (sample.verdict 0.29 "high" true)
    = Dropped (sample.verdict 0.29 "high" true)
  /\ sample.outcome (sample.verdict 0.29 "high" false)
    = Dropped (sample.verdict 0.29 "high" false)
  /\ save_called (sample.outcome (sample.verdict 0.3 "low" true)) = true
  /\ save_called (sample.outcome (sample.verdict 0.3 "low" false)) = false.
Proof. repeat split; reflexivity. Qed.

(** C4: when [filter_credible_sources] says false for an incident, the
    analysis used from there on (the gate before the save, the gate before
    the dispatch, the saved row) is the primary one with [is_credible]
    false and the relevance score multiplied by 0.5, the other fields
    untouched; when it says true, the primary analysis is used as it is. *)
Theorem override_when_not_credible (env : nat -> World) (db : Db)
    (l : list incident_data) (k : nat) (d : incident_data) (o : Outcome)
    (primary : gemini.IncidentAnalysis) (c : bool) :
  nth_error l k = Some d ->
  nth_error (outcomes_of (process_incidents env db l)) k = Some o ->
  primary_analysis (env k) d = Ok primary ->
  credibility_check (env k) d = Ok c ->
  exists effective,
    analysis_of o = Some effective
    /\ (c = false ->
        gemini.is_credible effective = false
        /\ gemini.relevance_score effective
           = (gemini.relevance_score primary * 0.5)%float
        /\ gemini.severity effective = gemini.severity primary
        /\ gemini.category effective = gemini.category primary
        /\ gemini.summary effective = gemini.summary primary)
    /\ (c = true -> effective = primary)
    /\ save_called o = meets_minimum_criteria effective
    /\ (dispatch_called o = true -> high_priority effective = true).
Proof.
  intros Hd Ho P C.
  destruct (process_incidents_nth env db l k d o Hd Ho)
    as (db_k & primary' & c' & P' & C' & ->).
  rewrite P in P'. injection P' as <-. rewrite C in C'. injection C' as <-.
  destruct (process_analysed_shows db_k (env k) d (override primary c))
    as (A & S & _ & D & _).
  exists (override primary c). split; [exact A|].
  split; [|split; [|split]].
  - intros ->. cbn. repeat split; reflexivity.
  - intros ->. reflexivity.
  - exact S.
  - intros G. apply D in G. apply G.
Qed.

Lemma override_when_not_credible_witness :
  exists effective,
    analysis_of (snd (process_incident sample.db0
                        (sample.world (sample.verdict 0.9 "high" true) "false" 0)
                        sample.storm))
    = Some effective
    /\ gemini.is_credible effective = false
    /\ gemini.relevance_score effective = 0.45%float.
Proof.
  destruct (override_when_not_credible
              (fun _ => sample.world (sample.verdict 0.9 "high" true) "false" 0)
              sample.db0 [sample.storm] 0 sample.storm _
              (sample.verdict 0.9 "high" true) false
              eq_refl eq_refl eq_refl eq_refl) as (e & A & F & _).
  exists e. split; [exact A|].
  destruct (F eq_refl) as (I & R & _). split; [exact I | exact R].
Defined.

(** A verdict that is not credible never reaches the store: halving its
    relevance changes nothing about that. *)
Lemma override_fails_the_gate (primary : gemini.IncidentAnalysis) :
  meets_minimum_criteria (override primary false) = false.
Proof. unfold meets_minimum_criteria. cbn. apply andb_false_r. Qed.

(** C1, as the code has it: [send_notifications] is called for an incident
    exactly when the incident was saved (its analysis is credible and the
    save returned a row), its severity is "high" or "critical", and its
    relevance score is [>= 0.7]; otherwise no mail is attempted. *)
Theorem dispatch_iff_saved_and_high_priority (env : nat -> World) (db : Db)
    (l : list incident_data) (k : nat) (d : incident_data) (o : Outcome) :
  nth_error l k = Some d ->
  nth_error (outcomes_of (process_incidents env db l)) k = Some o ->
  exists analysis,
    analysis_of o = Some analysis
    /\ (dispatch_called o = true <->
        saved_incident o <> None
        /\ (gemini.severity analysis = "high" \/ gemini.severity analysis = "critical")
        /\ ge (gemini.relevance_score analysis) 0.7 = true)
    /\ (dispatch_called o = true <->
        gemini.is_credible analysis = true
        /\ incident_commit_ok (env k) = true
        /\ (gemini.severity analysis = "high" \/ gemini.severity analysis = "critical")
        /\ ge (gemini.relevance_score analysis) 0.7 = true)
    /\ (dispatch_called o = false -> dispatch_attempts o = []).
Proof.
  intros Hd Ho.
  destruct (process_incidents_nth env db l k d o Hd Ho)
    as (db_k & primary & c & P & C & ->).
  destruct (process_analysed_shows db_k (env k) d (override primary c))
    as (A & _ & V & D & T & _).
  exists (override primary c). split; [exact A|].
  rewrite D, V, high_priority_iff, meets_minimum_criteria_iff.
  split; [reflexivity|]. split; [|exact T].
  split.
  - intros (((_ & Cr) & Co) & H & R). auto.
  - intros (Cr & Co & H & R). pose proof (ge_07_ge_03 _ R). auto.
Qed.

Lemma dispatch_iff_saved_and_high_priority_witness :
  dispatch_called (sample.outcome (sample.verdict 0.70 "high" true)) = true.
Proof.
  destruct (dispatch_iff_saved_and_high_priority
              (fun _ => sample.world (sample.verdict 0.70 "high" true) "true" 0)
              sample.db0 [sample.storm] 0 sample.storm
              (sample.outcome (sample.verdict 0.70 "high" true)) eq_refl eq_refl)
    as (a & A & _ & D & _).
  injection A as <-. apply D. repeat split; auto.
Defined.

(** The dispatch gate at its threshold, for a credible "high" incident:
    relevance 0.69 is saved without any mail, relevance 0.70 is sent to
    the eligible subscribers. *)
Example dispatch_gate_threshold :
  dispatch_called (sample.outcome (sample.verdict 0.69 "high" true)) = false
  /\ save_called (sample.outcome (sample.verdict 0.69 "high" true)) = true
  /\ dispatch_attempts (sample.outcome (sample.verdict 0.69 "high" true)) = []
  /\ dispatch_attempts (sample.outcome (sample.verdict 0.70 "high" true))
     = [sample.alice; sample.dave]
  /\ dispatch_called (sample.outcome (sample.verdict 0.70 "medium" true)) = false.
Proof. repeat split; reflexivity. Qed.

(** One weather incident, found "high", relevant at 0.8 and credible: one
    row is stored, mail goes to each eligible subscriber, and each call
    leaves its row in the log. *)
Example one_incident_end_to_end :
  List.length (incidents (fst (fst (sample.run (sample.verdict 0.8 "high" true)))))
  = 1%nat
  /\ snd (fst (sample.run (sample.verdict 0.8 "high" true))) = [1%Z]
  /\ map dispatch_attempts (outcomes_of (sample.run (sample.verdict 0.8 "high" true)))
     = [[sample.alice; sample.dave]]
  /\ map status
       (notification_logs (fst (fst (sample.run (sample.verdict 0.8 "high" true)))))
     = ["sent"; "sent"].
Proof. repeat split; reflexivity. Qed.

(** C1 as stated fails: the model finds the incident "high" with
    relevance 0.70 but not credible; it is dropped at the store gate, and
    no dispatch follows although severity and relevance pass. *)
Lemma dispatch_needs_a_saved_incident :
  outcomes_of (sample.run (sample.verdict 0.70 "high" false))
  = [Dropped (sample.verdict 0.70 "high" false)]
  /\ ~ (dispatch_called (Dropped (sample.verdict 0.70 "high" false)) = true <->
        (gemini.severity (sample.verdict 0.70 "high" false) = "high"
         \/ gemini.severity (sample.verdict 0.70 "high" false) = "critical")
        /\ ge (gemini.relevance_score (sample.verdict 0.70 "high" false)) 0.7 = true).
Proof.
  split; [reflexivity|].
  intros [_ H]. assert (false = true) as X; [|discriminate X].
  apply H. split; [left|]; reflexivity.
Qed.

End ProcessIncidents.

(* ================================================================== *)
(** * The two save paths *)
(* ================================================================== *)

Section SavePaths.

Import notification_agent.

Lemma first_found_iff {A} (p : A -> bool) (rows : list A) :
  first p rows <> None <-> exists r, In r rows /\ p r = true.
Proof.
  unfold first. split.
  - destruct (find p rows) as [r|] eqn:F; [|congruence].
    intros _. exists r. apply (find_some _ _ F).
  - intros (r & I & P) F. apply (find_none _ _ F) in I. congruence.
Qed.

Lemma first_app_none {A} (p : A -> bool) (rows rows' : list A) :
  first p rows = None -> first p (rows ++ rows') = first p rows'.
Proof.
  unfold first. induction rows as [|r rows IH]; cbn; [reflexivity|].
  destruct (p r); [discriminate | exact IH].
Qed.

Lemma update_first_app_none {A} (p : A -> bool) (f : A -> A) (rows rows' : list A) :
  first p rows = None ->
  update_first p f (rows ++ rows') = (rows ++ update_first p f rows')%list.
Proof.
  unfold first. induction rows as [|r rows IH]; cbn; [reflexivity|].
  destruct (p r); [discriminate|]. intros F. now rewrite IH.
Qed.

Lemma update_first_length {A} (p : A -> bool) (f : A -> A) (rows : list A) :
  List.length (update_first p f rows) = List.length rows.
Proof.
  induction rows as [|r rows IH]; cbn; [reflexivity|].
  destruct (p r); cbn; [reflexivity | now rewrite IH].
Qed.

(** An update that keeps what [q] looks at keeps the rows [q] selects. *)
Lemma update_first_filter_length {A} (p q : A -> bool) (f : A -> A) (rows : list A) :
  (forall r, q (f r) = q r) ->
  List.length (filter q (update_first p f rows)) = List.length (filter q rows).
Proof.
  intros Q. induction rows as [|r rows IH]; cbn; [reflexivity|].
  destruct (p r); cbn.
  - rewrite Q. destruct (q r); reflexivity.
  - destruct (q r); cbn; now rewrite IH.
Qed.

Lemma same_title_source_iff (d : incident_data) (i : Incident) :
  same_title_source d i = true <-> title i = d_title d /\ source i = d_source d.
Proof.
  unfold same_title_source. now rewrite andb_true_iff, !String.eqb_eq.
Qed.

Lemma existing_filter_iff (now : Z) (d : incident_data) (i : Incident) :
  existing_filter now d i = true <->
  title i = d_title d /\ source i = d_source d /\ (now - hours24 <= created_at i)%Z.
Proof.
  unfold existing_filter, created_within_24h.
  rewrite andb_true_iff, same_title_source_iff, Z.leb_le. tauto.
Qed.

(** What [save_analyzed_incident] does when the commit goes through. *)
Lemma save_analyzed_incident_insert (db : Db) (w : World) (d : incident_data)
    (a : gemini.IncidentAnalysis) :
  incident_commit_ok w = true ->
  first (existing_filter (utcnow_lookup w) d) (incidents db) = None ->
  save_analyzed_incident db w d a
  = (with_incidents db
       (incidents db
        ++ [new_incident (next_id (map id (incidents db))) (utcnow_write w) d a]),
     Ok (Some (new_incident (next_id (map id (incidents db))) (utcnow_write w) d a))).
Proof.
  intros C F. unfold save_analyzed_incident, save_analyzed_incident_try.
  rewrite F, C. reflexivity.
Qed.

Lemma save_analyzed_incident_update (db : Db) (w : World) (d : incident_data)
    (a : gemini.IncidentAnalysis) (existing : Incident) :
  incident_commit_ok w = true ->
  first (existing_filter (utcnow_lookup w) d) (incidents db) = Some existing ->
  save_analyzed_incident db w d a
  = (with_incidents db
       (update_first (existing_filter (utcnow_lookup w) d)
          (update_existing (utcnow_write w) a) (incidents db)),
     Ok (Some (update_existing (utcnow_write w) a existing))).
Proof.
  intros C F. unfold save_analyzed_incident, save_analyzed_incident_try.
  rewrite F, C. reflexivity.
Qed.

(** A failed commit leaves the tables as they were; the call returns
    [None] when the rollback goes through and raises when it does not. *)
Lemma save_analyzed_incident_rollback (db : Db) (w : World) (d : incident_data)
    (a : gemini.IncidentAnalysis) :
  incident_commit_ok w = false ->
  save_analyzed_incident db w d a
  = (db, if rollback_ok w then Ok None else Raise "rollback raised").
Proof.
  intros C. unfold save_analyzed_incident, save_analyzed_incident_try.
  rewrite C. destruct (first _ _); cbn; destruct (rollback_ok w); reflexivity.
Qed.

Lemma update_keeps_key (now : Z) (d : incident_data)
    (a : option gemini.IncidentAnalysis) (r : Incident) :
  same_title_source d (data_agent.update_existing now a r) = same_title_source d r.
Proof. destruct a; reflexivity. Qed.

Lemma new_incident_has_key (new_id now : Z) (d : incident_data)
    (a : gemini.IncidentAnalysis) :
  same_title_source d (new_incident new_id now d a) = true.
Proof. unfold same_title_source. cbn. now rewrite !String.eqb_refl. Qed.

(** The row [first] finds splits the table: no row before it passes, and
    an update through it rewrites that row in place. *)
Lemma first_split {A} (p : A -> bool) (f : A -> A) (rows : list A) (e : A) :
  first p rows = Some e ->
  exists before after,
    rows = (before ++ e :: after)%list
    /\ Forall (fun r => p r = false) before
    /\ p e = true
    /\ update_first p f rows = (before ++ f e :: after)%list.
Proof.
  unfold first. induction rows as [|r rows IH]; cbn; [discriminate|].
  destruct (p r) eqn:P.
  - intros H. injection H as ->. exists [], rows. cbn. auto.
  - intros H. destruct (IH H) as (before & after & -> & B & Pe & U).
    exists (r :: before), after. cbn. rewrite U. auto.
Qed.

Lemma first_none_iff {A} (p : A -> bool) (rows : list A) :
  first p rows = None <-> ~ exists r, In r rows /\ p r = true.
Proof.
  rewrite <- first_found_iff. destruct (first p rows) as [r|].
  - split; [discriminate|]. intros N. exfalso. apply N. discriminate.
  - split; [intros _ N; now apply N | reflexivity].
Qed.

(** A save that updates when its lookup finds a row and appends when it
    finds none adds a row exactly when no row passes the lookup. *)
Lemma insert_iff_not_found {A} (p : A -> bool) (rows updated appended : list A) :
  List.length updated = List.length rows ->
  List.length appended = S (List.length rows) ->
  List.length (match first p rows with Some _ => updated | None => appended end)
  = S (List.length rows)
  <-> ~ exists r, In r rows /\ p r = true.
Proof.
  intros U Ap. rewrite <- first_none_iff.
  destruct (first p rows); split; intros H;
    try reflexivity; try discriminate H; try exact Ap.
  rewrite U in H. lia.
Qed.

(** The incident table after a raw save that commits. *)
Lemma save_incident_rows (db : Db) (now : Z) (d : incident_data)
    (analysis : option gemini.IncidentAnalysis) :
  data_agent.save_incident db now true d analysis
  = with_incidents db
      match first (data_agent.same_title_source d) (incidents db) with
      | Some _ =>
          update_first (data_agent.same_title_source d)
            (data_agent.update_existing now analysis) (incidents db)
      | None =>
          (incidents db
           ++ [data_agent.new_incident (next_id (map id (incidents db))) now d analysis])%list
      end.
Proof.
  unfold data_agent.save_incident, data_agent.save_incident_try.
  destruct (first _ (incidents db)); reflexivity.
Qed.

(** The incident table after an analysed save that commits. *)
Lemma save_analyzed_incident_table (db : Db) (w : World) (d : incident_data)
    (a : gemini.IncidentAnalysis) :
  incident_commit_ok w = true ->
  incidents (fst (save_analyzed_incident db w d a))
  = match first (existing_filter (utcnow_lookup w) d) (incidents db) with
    | Some _ =>
        update_first (existing_filter (utcnow_lookup w) d)
          (update_existing (utcnow_write w) a) (incidents db)
    | None =>
        (incidents db
         ++ [new_incident (next_id (map id (incidents db))) (utcnow_write w) d a])%list
    end.
Proof.
  intros C. unfold save_analyzed_incident, save_analyzed_incident_try.
  rewrite C. destruct (first _ (incidents db)); reflexivity.
Qed.

(** C6: [DataAgent.save_incident] looks an incident up by title and
    source alone, [NotificationAgent.save_analyzed_incident] by title,
    source and creation within the last 24 hours: a call that commits
    inserts a row exactly when its lookup finds none. When the rows with
    the incident's title and source were all created more than 24 hours
    ago, the first path merges the analysis into the first of them and
    leaves every other row and the number of rows as they were, while the
    second appends a new row for the same title and source. *)
Theorem dedup_lookups_differ (db : Db) (w : World) (d : incident_data)
    (a : gemini.IncidentAnalysis) (old : Incident) :
  In old (incidents db) ->
  title old = d_title d ->
  source old = d_source d ->
  (forall i, In i (incidents db) -> title i = d_title d -> source i = d_source d ->
             (created_at i + hours24 < utcnow_lookup w)%Z) ->
  incident_commit_ok w = true ->
  (exists before found after,
      incidents db = (before ++ found :: after)%list
      /\ Forall (fun i => ~ (title i = d_title d /\ source i = d_source d)) before
      /\ title found = d_title d /\ source found = d_source d
      /\ data_agent.save_incident db (utcnow_write w) true d (Some a)
         = with_incidents db
             (before
              ++ mkIncident (id found) (title found) (description found)
                   (source found) (location found)
                   (gemini.severity a) (gemini.category a)
                   (url found) (raw_data found)
                   (Some (gemini.summary a)) (gemini.relevance_score a)
                   (gemini.is_credible a)
                   (created_at found) (utcnow_write w)
                 :: after))
  /\ List.length (rows_with_key d
                    (incidents (data_agent.save_incident db (utcnow_write w) true d (Some a))))
     = List.length (rows_with_key d (incidents db))
  /\ save_analyzed_incident db w d a
     = (with_incidents db
          (incidents db
           ++ [mkIncident (next_id (map id (incidents db)))
                 (d_title d) (d_description d) (d_source d) (d_location d)
                 (gemini.severity a) (gemini.category a)
                 (d_url d) (d_raw_data d)
                 (Some (gemini.summary a)) (gemini.relevance_score a)
                 (gemini.is_credible a)
                 (utcnow_write w) (utcnow_write w)]),
        Ok (Some (mkIncident (next_id (map id (incidents db)))
                    (d_title d) (d_description d) (d_source d) (d_location d)
                    (gemini.severity a) (gemini.category a)
                    (d_url d) (d_raw_data d)
                    (Some (gemini.summary a)) (gemini.relevance_score a)
                    (gemini.is_credible a)
                    (utcnow_write w) (utcnow_write w))))
  /\ List.length (rows_with_key d (incidents (fst (save_analyzed_incident db w d a))))
     = S (List.length (rows_with_key d (incidents db)))
  /\ (forall db' now analysis,
        List.length (incidents (data_agent.save_incident db' now true d analysis))
        = S (List.length (incidents db'))
        <-> ~ exists i, In i (incidents db')
                        /\ title i = d_title d /\ source i = d_source d)
  /\ (forall db' w' a',
        incident_commit_ok w' = true ->
        List.length (incidents (fst (save_analyzed_incident db' w' d a')))
        = S (List.length (incidents db'))
        <-> ~ exists i, In i (incidents db')
                        /\ title i = d_title d /\ source i = d_source d
                        /\ (utcnow_lookup w' - hours24 <= created_at i)%Z).
Proof.
  intros I T S Old C.
  assert (K1 : forall rows,
             (exists i, In i rows /\ title i = d_title d /\ source i = d_source d)
             <-> exists r, In r rows /\ data_agent.same_title_source d r = true).
  { intros rows. split; intros (i & Hi & K); exists i;
      (split; [exact Hi|]); apply (same_title_source_iff d i); exact K. }
  assert (K2 : forall now rows,
             (exists i, In i rows /\ title i = d_title d /\ source i = d_source d
                        /\ (now - hours24 <= created_at i)%Z)
             <-> exists r, In r rows /\ existing_filter now d r = true).
  { intros now rows. split; intros (i & Hi & K); exists i;
      (split; [exact Hi|]); apply existing_filter_iff; exact K. }
  assert (F2 : first (existing_filter (utcnow_lookup w) d) (incidents db) = None).
  { apply first_none_iff. rewrite <- K2. intros (i & Hi & Ti & Si & W).
    pose proof (Old i Hi Ti Si). lia. }
  assert (F1 : exists found,
             first (data_agent.same_title_source d) (incidents db) = Some found).
  { destruct (first (data_agent.same_title_source d) (incidents db)) as [r|] eqn:F;
      [eauto|]. exfalso. apply first_none_iff in F. apply F. apply K1.
    exists old. auto. }
  destruct F1 as [found F1].
  destruct (first_split _ (data_agent.update_existing (utcnow_write w) (Some a)) _ _ F1)
    as (before & after & Eq & B & Pf & U).
  apply (same_title_source_iff d found) in Pf. destruct Pf as [Tf Sf].
  split; [|split; [|split; [|split; [|split]]]].
  - exists before, found, after. split; [exact Eq|]. split; [|split; [exact Tf|]].
    + eapply Forall_impl; [|exact B]. intros i N K.
      apply (same_title_source_iff d i) in K.
      cbv beta in N.
      change (data_agent.same_title_source d i) with (same_title_source d i) in N.
      congruence.
    + split; [exact Sf|]. rewrite save_incident_rows, F1, U. reflexivity.
  - rewrite save_incident_rows, F1. cbn [incidents with_incidents].
    apply update_first_filter_length. intros r. apply update_keeps_key.
  - exact (save_analyzed_incident_insert db w d a C F2).
  - rewrite (save_analyzed_incident_insert db w d a C F2).
    cbn [fst incidents with_incidents]. unfold rows_with_key.
    rewrite filter_app, length_app. cbn [filter].
    rewrite new_incident_has_key. cbn. lia.
  - intros db' now analysis. rewrite save_incident_rows, K1.
    cbn [incidents with_incidents].
    apply insert_iff_not_found;
      [apply update_first_length | rewrite length_app; cbn; lia].
  - intros db' w' a' C'. rewrite (save_analyzed_incident_table db' w' d a' C'), K2.
    apply insert_iff_not_found;
      [apply update_first_length | rewrite length_app; cbn; lia].
Qed.

Lemma dedup_lookups_differ_witness :
  incidents (data_agent.save_incident sample.db_old (sample.hours 25) true
               sample.storm (Some (sample.verdict 0.8 "high" true)))
  = [mkIncident 1 "Weather Alert: Thunderstorm" "Thunderstorm expected"
       "weather" "New York" "high" "weather" None None (Some "Storm ahead.")
       0.8 true 0 (sample.hours 25)]
  /\ incidents (fst (save_analyzed_incident sample.db_old
                       (sample.world (sample.verdict 0.8 "high" true) "true"
                          (sample.hours 25))
                       sample.storm (sample.verdict 0.8 "high" true)))
     = [sample.old_storm;
        mkIncident 2 "Weather Alert: Thunderstorm" "Severe thunderstorm warning"
          "weather" "New York, NY" "high" "weather"
          (Some "https://openweathermap.org") None (Some "Storm ahead.")
          0.8 true (sample.hours 25) (sample.hours 25)].
Proof.
  assert (O : forall i, In i (incidents sample.db_old) ->
                        title i = d_title sample.storm ->
                        source i = d_source sample.storm ->
                        (created_at i + hours24 < sample.hours 25)%Z).
  { intros i [<-|[]] _ _. reflexivity. }
  destruct (dedup_lookups_differ sample.db_old
              (sample.world (sample.verdict 0.8 "high" true) "true" (sample.hours 25))
              sample.storm (sample.verdict 0.8 "high" true) sample.old_storm
              (or_introl eq_refl) eq_refl eq_refl O eq_refl)
    as ((before & found & after & Eq & _ & _ & _ & M) & _ & E & _).
  split.
  - cbn [utcnow_write sample.world] in M. rewrite M.
    destruct before as [|b before]; cbn in Eq.
    + injection Eq as <- <-. reflexivity.
    + injection Eq as _ Eq. destruct before; discriminate Eq.
  - rewrite E. reflexivity.
Defined.

(** C7: two calls of [save_analyzed_incident] with the same title and
    source, the first of which finds nothing to update and the second of
    which comes within 24 hours of the first one's row, leave exactly one
    more row than before. The second call changes, on that row, the
    summary, relevance score, severity, category, verified flag and the
    update time, and nothing else. *)
Theorem save_twice_one_row (db : Db) (w1 w2 : World) (d1 d2 : incident_data)
    (a1 a2 : gemini.IncidentAnalysis) :
  d_title d2 = d_title d1 ->
  d_source d2 = d_source d1 ->
  first (existing_filter (utcnow_lookup w1) d1) (incidents db) = None ->
  incident_commit_ok w1 = true ->
  incident_commit_ok w2 = true ->
  (utcnow_lookup w1 <= utcnow_lookup w2)%Z ->
  (utcnow_lookup w2 - hours24 <= utcnow_write w1)%Z ->
  exists row1 row2,
    save_analyzed_incident db w1 d1 a1
    = (with_incidents db (incidents db ++ [row1]), Ok (Some row1))
    /\ save_analyzed_incident (with_incidents db (incidents db ++ [row1])) w2 d2 a2
       = (with_incidents db (incidents db ++ [row2]), Ok (Some row2))
    /\ List.length (incidents db ++ [row2]) = S (List.length (incidents db))
    /\ (id row2 = id row1 /\ title row2 = title row1
        /\ description row2 = description row1 /\ source row2 = source row1
        /\ location row2 = location row1 /\ url row2 = url row1
        /\ raw_data row2 = raw_data row1 /\ created_at row2 = created_at row1)
    /\ (ai_summary row2 = Some (gemini.summary a2)
        /\ relevance_score row2 = gemini.relevance_score a2
        /\ severity row2 = gemini.severity a2
        /\ category row2 = gemini.category a2
        /\ is_verified row2 = gemini.is_credible a2
        /\ updated_at row2 = utcnow_write w2).
Proof.
  intros T S F1 C1 C2 Mono W.
  set (row1 := new_incident (next_id (map id (incidents db))) (utcnow_write w1) d1 a1).
  exists row1, (update_existing (utcnow_write w2) a2 row1).
  assert (P2 : existing_filter (utcnow_lookup w2) d2 row1 = true).
  { apply existing_filter_iff. cbn. auto. }
  assert (F2 : first (existing_filter (utcnow_lookup w2) d2) (incidents db) = None).
  { destruct (first (existing_filter (utcnow_lookup w2) d2) (incidents db))
      as [r|] eqn:F; [|reflexivity]. exfalso.
    unfold first in F. apply find_some in F. destruct F as [I P].
    apply existing_filter_iff in P. destruct P as (Tr & Sr & Wr).
    unfold first in F1. apply (find_none _ _ F1) in I.
    assert (existing_filter (utcnow_lookup w1) d1 r = true) as X; [|congruence].
    apply existing_filter_iff. rewrite <- T, <- S. repeat split; auto. lia. }
  split; [exact (save_analyzed_incident_insert db w1 d1 a1 C1 F1)|].
  split.
  - rewrite (save_analyzed_incident_update _ w2 d2 a2 row1 C2).
    + cbn [incidents with_incidents].
      rewrite (update_first_app_none _ _ _ _ F2). cbn [update_first].
      rewrite P2. reflexivity.
    + cbn [incidents with_incidents].
      rewrite (first_app_none _ _ _ F2). unfold first. cbn [find].
      now rewrite P2.
  - split; [rewrite length_app; cbn; lia|].
    cbn. repeat split; reflexivity.
Qed.

Lemma save_twice_one_row_witness :
  List.length
    (incidents
       (fst (save_analyzed_incident
               (fst (save_analyzed_incident sample.db_old
                       (sample.world (sample.verdict 0.3 "low" true) "true" (sample.hours 25))
                       sample.storm (sample.verdict 0.3 "low" true)))
               (sample.world (sample.verdict 0.8 "high" true) "true" (sample.hours 48))
               sample.storm (sample.verdict 0.8 "high" true))))
  = 2%nat.
Proof.
  destruct (save_twice_one_row sample.db_old
              (sample.world (sample.verdict 0.3 "low" true) "true" (sample.hours 25))
              (sample.world (sample.verdict 0.8 "high" true) "true" (sample.hours 48))
              sample.storm sample.storm
              (sample.verdict 0.3 "low" true) (sample.verdict 0.8 "high" true)
              eq_refl eq_refl eq_refl eq_refl eq_refl)
    as (row1 & row2 & E1 & E2 & L & _).
  - vm_compute. discriminate.
  - vm_compute. discriminate.
  - rewrite E1. cbn [fst]. rewrite E2. exact L.
Defined.

(** The row [first] returned is, once updated, a row of the table. *)
Lemma update_first_in {A} (p : A -> bool) (f : A -> A) (rows : list A) (e : A) :
  first p rows = Some e -> In (f e) (update_first p f rows).
Proof.
  unfold first. induction rows as [|r rows IH]; cbn; [discriminate|].
  destruct (p r).
  - intros H. injection H as ->. now left.
  - intros H. right. now apply IH.
Qed.

(** More generally, a call that comes within 24 hours of the creation of
    the row an earlier call returned, with the same title and source,
    adds no row, whether that earlier call inserted or updated. *)
Lemma save_again_adds_no_row (db db1 : Db) (w1 w2 : World) (d1 d2 : incident_data)
    (a1 a2 : gemini.IncidentAnalysis) (row1 : Incident) :
  d_title d2 = d_title d1 ->
  d_source d2 = d_source d1 ->
  save_analyzed_incident db w1 d1 a1 = (db1, Ok (Some row1)) ->
  (utcnow_lookup w2 - hours24 <= created_at row1)%Z ->
  List.length (incidents (fst (save_analyzed_incident db1 w2 d2 a2)))
  = List.length (incidents db1).
Proof.
  intros T S E W.
  assert (R : In row1 (incidents db1)
              /\ title row1 = d_title d1 /\ source row1 = d_source d1).
  { unfold save_analyzed_incident, save_analyzed_incident_try, commit in E.
    destruct (first (existing_filter (utcnow_lookup w1) d1) (incidents db))
      as [e|] eqn:F;
      (destruct (incident_commit_ok w1); [|destruct (rollback_ok w1)]);
      cbn in E; try discriminate E; injection E as <- <-;
      cbn [incidents with_incidents].
    - split; [exact (update_first_in _ _ _ _ F)|].
      unfold first in F. apply find_some in F. destruct F as [_ P].
      apply existing_filter_iff in P. destruct P as (Te & Se & _).
      split; assumption.
    - split; [apply in_or_app; right; now left | split; reflexivity]. }
  destruct R as (I & Tr & Sr).
  unfold save_analyzed_incident, save_analyzed_incident_try, commit.
  destruct (first (existing_filter (utcnow_lookup w2) d2) (incidents db1))
    as [e|] eqn:F.
  - destruct (incident_commit_ok w2); cbn;
      [apply update_first_length | destruct (rollback_ok w2); reflexivity].
  - exfalso. unfold first in F. apply (find_none _ _ F) in I.
    assert (existing_filter (utcnow_lookup w2) d2 row1 = true) as X; [|congruence].
    apply existing_filter_iff. rewrite T, S. auto.
Qed.

(** Outside the window the second call adds a second row. *)
Example save_twice_outside_window :
  List.length
    (incidents
       (fst (save_analyzed_incident
               (fst (save_analyzed_incident sample.db0
                       (sample.world (sample.verdict 0.3 "low" true) "true" 0)
                       sample.storm (sample.verdict 0.3 "low" true)))
               (sample.world (sample.verdict 0.8 "high" true) "true" (sample.hours 25))
               sample.storm (sample.verdict 0.8 "high" true))))
  = 2%nat.
Proof. reflexivity. Qed.

End SavePaths.

(* ================================================================== *)
(** * The store gate *)
(* ================================================================== *)

Section StoreGate.

Import notification_agent.

(** A save that commits returns a row of the table it leaves, with the
    title and source of the incident and the fields of the analysis. *)
Lemma save_analyzed_incident_stores (db : Db) (w : World) (d : incident_data)
    (a : gemini.IncidentAnalysis) :
  incident_commit_ok w = true ->
  exists db1 row,
    save_analyzed_incident db w d a = (db1, Ok (Some row))
    /\ In row (incidents db1)
    /\ title row = d_title d /\ source row = d_source d
    /\ ai_summary row = Some (gemini.summary a)
    /\ relevance_score row = gemini.relevance_score a
    /\ severity row = gemini.severity a
    /\ category row = gemini.category a
    /\ is_verified row = gemini.is_credible a.
Proof.
  intros C.
  destruct (first (existing_filter (utcnow_lookup w) d) (incidents db))
    as [e|] eqn:F.
  - rewrite (save_analyzed_incident_update db w d a e C F).
    do 2 eexists. split; [reflexivity|].
    split; [exact (update_first_in _ _ _ _ F)|].
    unfold first in F. apply find_some in F. destruct F as [_ P].
    apply existing_filter_iff in P. destruct P as (T & S & _).
    cbn. repeat split; auto.
  - rewrite (save_analyzed_incident_insert db w d a C F).
    do 2 eexists. split; [reflexivity|].
    split; [apply in_or_app; right; now left|].
    cbn. repeat split; reflexivity.
Qed.

(** An iteration that passes the gate while the commit goes through
    leaves the row it saved in the table, whatever the dispatch does. *)
Lemma process_analysed_stores (db : Db) (w : World) (d : incident_data)
    (a : gemini.IncidentAnalysis) :
  meets_minimum_criteria a = true ->
  incident_commit_ok w = true ->
  exists row,
    saved_incident (snd (process_analysed db w d a)) = Some row
    /\ In row (incidents (fst (process_analysed db w d a)))
    /\ title row = d_title d /\ source row = d_source d
    /\ ai_summary row = Some (gemini.summary a)
    /\ relevance_score row = gemini.relevance_score a
    /\ severity row = gemini.severity a
    /\ category row = gemini.category a
    /\ is_verified row = gemini.is_credible a.
Proof.
  intros M C.
  destruct (save_analyzed_incident_stores db w d a C) as (db1 & row & E & I & R).
  exists row. unfold process_analysed. rewrite M, E.
  destruct (high_priority a); [|cbn; auto].
  pose proof (send_notifications_incidents db1 w row) as X.
  destruct (send_notifications db1 w row) as [db2 dispatch]. cbn [fst] in X.
  destruct (raised dispatch); cbn [fst snd saved_incident]; rewrite X; auto.
Qed.

(** C2: for every incident of the list, [save_analyzed_incident] is
    called exactly when the analysis that [analyze_incident] returned,
    after the override by the answer of [filter_credible_sources], has a
    relevance score [>= 0.3] and is credible; that is, when the primary
    analysis has both and the credibility check said true. When the gate
    passes and the commit goes through, the iteration leaves in the table
    a verified row with the incident's title and source and the fields of
    that analysis, and returns it. An incident that fails the gate is not
    saved and not dispatched, and its iteration leaves the tables as they
    were. *)
Theorem saved_iff_minimum_criteria (env : nat -> World) (db : Db)
    (l : list incident_data) (k : nat) (d : incident_data) (o : Outcome) :
  nth_error l k = Some d ->
  nth_error (outcomes_of (process_incidents env db l)) k = Some o ->
  exists primary c,
    primary_analysis (env k) d = Ok primary
    /\ credibility_check (env k) d = Ok c
    /\ analysis_of o = Some (override primary c)
    /\ (save_called o = true <->
        ge (gemini.relevance_score (override primary c)) 0.3 = true
        /\ gemini.is_credible (override primary c) = true)
    /\ (save_called o = true <->
        ge (gemini.relevance_score primary) 0.3 = true
        /\ gemini.is_credible primary = true /\ c = true)
    /\ (saved_incident o <> None <->
        save_called o = true /\ incident_commit_ok (env k) = true)
    /\ (save_called o = false ->
        saved_incident o = None /\ dispatch_called o = false
        /\ dispatch_attempts o = [])
    /\ (forall db_k,
          save_called (snd (process_incident db_k (env k) d)) = save_called o
          /\ (save_called o = false ->
              fst (process_incident db_k (env k) d) = db_k)
          /\ (save_called o = true -> incident_commit_ok (env k) = true ->
              exists row,
                saved_incident (snd (process_incident db_k (env k) d)) = Some row
                /\ In row (incidents (fst (process_incident db_k (env k) d)))
                /\ title row = d_title d /\ source row = d_source d
                /\ ai_summary row = Some (gemini.summary primary)
                /\ relevance_score row = gemini.relevance_score primary
                /\ severity row = gemini.severity primary
                /\ category row = gemini.category primary
                /\ is_verified row = true)).
Proof.
  intros Hd Ho.
  destruct (process_incidents_nth env db l k d o Hd Ho)
    as (db_k & primary & c & P & C & ->).
  destruct (process_analysed_shows db_k (env k) d (override primary c))
    as (A & S & V & D & T & _).
  exists primary, c. split; [exact P|]. split; [exact C|]. split; [exact A|].
  assert (G : meets_minimum_criteria (override primary c) = true <->
              ge (gemini.relevance_score primary) 0.3 = true
              /\ gemini.is_credible primary = true /\ c = true).
  { rewrite meets_minimum_criteria_iff. destruct c; cbn; [tauto|].
    split; [intros [_ X]; discriminate X | intros (_ & _ & X); discriminate X]. }
  split; [rewrite S; apply meets_minimum_criteria_iff|].
  split; [rewrite S; exact G|].
  split; [rewrite S; exact V|].
  split.
  - intros N. rewrite N in S.
    assert (saved_incident
              (snd (process_analysed db_k (env k) d (override primary c))) = None) as E.
    { destruct (saved_incident _); [|reflexivity].
      exfalso. assert (Some i <> None) as X by discriminate.
      apply V in X. destruct X as [X _]. congruence. }
    assert (dispatch_called
              (snd (process_analysed db_k (env k) d (override primary c))) = false) as F.
    { apply not_true_is_false. intros X. apply D in X. destruct X as [X _].
      now apply X. }
    auto.
  - intros db'. rewrite (process_incident_unfold db' (env k) d primary c P C), S.
    destruct (process_analysed_shows db' (env k) d (override primary c))
      as (_ & S' & _ & _ & _ & U & _).
    split; [exact S'|]. split.
    + intros N. apply U. now rewrite S'.
    + intros M Co.
      destruct (process_analysed_stores db' (env k) d (override primary c) M Co)
        as (row & R & I & Ti & So & Su & Re & Se & Ca & Ve).
      apply G in M. destruct M as (_ & Cr & ->). cbn [override negb] in *.
      exists row. rewrite Cr in Ve. repeat split; assumption.
Qed.

Lemma saved_iff_minimum_criteria_witness :
  save_called (sample.outcome (sample.verdict 0.3 "low" true)) = true
  /\ exists row,
       saved_incident (sample.outcome (sample.verdict 0.3 "low" true)) = Some row
       /\ In row (incidents
                    (fst (process_incident sample.db0
                            (sample.world (sample.verdict 0.3 "low" true) "true" 0)
                            sample.storm)))
       /\ title row = "Weather Alert: Thunderstorm"
       /\ relevance_score row = 0.3%float
       /\ is_verified row = true.
Proof.
  destruct (saved_iff_minimum_criteria
              (fun _ => sample.world (sample.verdict 0.3 "low" true) "true" 0)
              sample.db0 [sample.storm] 0 sample.storm
              (sample.outcome (sample.verdict 0.3 "low" true)) eq_refl eq_refl)
    as (primary & c & P & C & _ & _ & S & _ & _ & T).
  injection P as <-. injection C as <-.
  assert (Called : save_called (sample.outcome (sample.verdict 0.3 "low" true)) = true).
  { apply S. repeat split; reflexivity. }
  split; [exact Called|].
  destruct (T sample.db0) as (_ & _ & R).
  destruct (R Called eq_refl) as (row & Sv & I & Ti & _ & _ & Re & _ & _ & Ve).
  exists row. repeat split; assumption.
Defined.

End StoreGate.

(* ================================================================== *)
(** * send_notifications *)
(* ================================================================== *)

Section SendNotifications.

Import notification_agent.

Lemma eligible_users_opted_in (db : Db) (w : World) (incident : Incident) :
  Forall (fun user => email_notifications user = true)
    (get_eligible_users db w incident).
Proof.
  unfold get_eligible_users, query_opted_in.
  destruct (users_query_ok w); [|constructor].
  rewrite eligible_loop_filter. cbn [app].
  apply Forall_forall. intros user I.
  apply filter_In in I. destruct I as [I _].
  apply filter_In in I. apply I.
Qed.

(** One pass of the loop body calls the transport once and adds one row,
    whatever the transport does. *)
Lemma notify_user_one_row (w : World) (incident : Incident) (user : User) :
  email_notifications user = true ->
  exists log, notify_user w incident user = [Called user; Added log]
              /\ records_attempt w incident user log.
Proof.
  intros E. unfold notify_user, notify_try, records_attempt. rewrite E.
  destruct (send_alert_email w user incident) as [[|]|e]; cbn;
    eexists; (split; [reflexivity|]); cbn; repeat split; reflexivity.
Qed.

Lemma calls_app (l l' : list Event) : calls (l ++ l') = (calls l ++ calls l')%list.
Proof. apply flat_map_app. Qed.

Lemma rows_app (l l' : list Event) : rows (l ++ l') = (rows l ++ rows l')%list.
Proof. apply flat_map_app. Qed.

Lemma notify_users_rows (w : World) (incident : Incident) (l : list User) :
  Forall (fun user => email_notifications user = true) l ->
  calls (flat_map (notify_user w incident) l) = l
  /\ Forall2 (records_attempt w incident) l
       (rows (flat_map (notify_user w incident) l))
  /\ flat_map (notify_user w incident) l
     = in_turn l (rows (flat_map (notify_user w incident) l)).
Proof.
  induction 1 as [|u l H _ (IHc & IHr & IHt)]; cbn [flat_map].
  - repeat split; constructor.
  - destruct (notify_user_one_row w incident u H) as (log & -> & R).
    rewrite calls_app, rows_app, IHc. cbn. split; [reflexivity|].
    split; [constructor; assumption|]. now rewrite <- IHt.
Qed.

Lemma flush_logs_length (next now : Z) (pending : list NotificationLog) :
  List.length (flush_logs next now pending) = List.length pending.
Proof.
  revert next; induction pending as [|l pending IH]; intros next; cbn;
    [reflexivity | now rewrite IH].
Qed.

(** C8: in one call of [send_notifications] the mail transport is called
    once for every eligible user, whatever it did for the users before,
    and every call is followed by one [NotificationLog] row added to the
    session: with status "sent" when the transport returned true, with
    status "failed" and an error message when it returned false or
    raised. When the final commit goes through, these rows, and no
    others, join the table; when it fails, the tables stay as they
    were. *)
Theorem one_log_per_attempt (db : Db) (w : World) (incident : Incident) :
  attempts (snd (send_notifications db w incident))
  = get_eligible_users db w incident
  /\ events (snd (send_notifications db w incident))
     = in_turn (attempts (snd (send_notifications db w incident)))
         (added (snd (send_notifications db w incident)))
  /\ Forall2 (records_attempt w incident)
       (attempts (snd (send_notifications db w incident)))
       (added (snd (send_notifications db w incident)))
  /\ List.length (added (snd (send_notifications db w incident)))
     = List.length (get_eligible_users db w incident)
  /\ (log_commit_ok w = true ->
      List.length (notification_logs (fst (send_notifications db w incident)))
      = (List.length (notification_logs db)
         + List.length (attempts (snd (send_notifications db w incident))))%nat)
  /\ (log_commit_ok w = false -> fst (send_notifications db w incident) = db).
Proof.
  pose proof (eligible_users_opted_in db w incident) as O.
  destruct (notify_users_rows w incident _ O) as (K & R & T).
  unfold send_notifications, commit, attempts, added.
  destruct (log_commit_ok w); cbn [fst snd events];
    rewrite K;
    (split; [reflexivity|]); (split; [exact T|]); (split; [exact R|]);
    (split; [symmetry; apply (Forall2_length R)|]);
    (split; [|intros; congruence]); intros H.
  - cbn [notification_logs with_notification_logs].
    rewrite length_app, flush_logs_length, <- (Forall2_length R). reflexivity.
  - discriminate H.
Qed.

(** The transport raises for dave: alice's mail is logged as sent, dave's
    as failed with the exception's text, and both were attempted. *)
Example one_failure_does_not_stop_the_batch :
  added (snd (send_notifications sample.db0 sample.flaky_world (sample.stored "high")))
  = [mkNotificationLog None 1 (Some 1%Z) "email" "sent" None None;
     mkNotificationLog None 1 (Some 4%Z) "email" "failed" (Some "SMTP timeout") None]
  /\ attempts (snd (send_notifications sample.db0 sample.flaky_world (sample.stored "high")))
     = [sample.alice; sample.dave]
  /\ notification_logs
       (fst (send_notifications sample.db0 sample.flaky_world (sample.stored "high")))
     = [mkNotificationLog (Some 1%Z) 1 (Some 1%Z) "email" "sent" None (Some 0%Z);
        mkNotificationLog (Some 2%Z) 1 (Some 4%Z) "email" "failed" (Some "SMTP timeout")
          (Some 0%Z)].
Proof. repeat split; reflexivity. Qed.

End SendNotifications.

(* ================================================================== *)
(** * fetch_news_data *)
(* ================================================================== *)

Section FetchNews.

Import data_agent.

Variable json_dumps : article -> string.
Variable default_location : string.
Variable news_api : string -> nat -> http_reply.

Local Abbreviation extract := (news_spec.extract json_dumps default_location).
Local Abbreviation received := (news_spec.received default_location news_api).
Local Abbreviation kept_as := (news_spec.kept_as json_dumps default_location).
Local Abbreviation article_step := (data_agent.article_step json_dumps default_location).

Lemma truthy_some (s : string) : truthy (Some s) = true <-> s <> "".
Proof. destruct s; cbn; split; congruence. Qed.

Lemma article_step_extract (incidents : list incident_data) (a : article) :
  article_step incidents a = (incidents ++ extract a)%list.
Proof.
  unfold news_spec.extract, data_agent.article_step.
  destruct (negb (truthy (get (art_title a))) || negb (truthy (get (art_description a))));
    [now rewrite app_nil_r|].
  destruct (get (art_title a)) as [t|]; [|now rewrite app_nil_r].
  destruct (get (art_description a)) as [de|]; [|now rewrite app_nil_r].
  destruct (contains "[Removed]" t); [now rewrite app_nil_r | reflexivity].
Qed.

(** One article gives the incident made of it when it is well formed, and
    nothing otherwise. *)
Lemma extract_spec (a : article) (i : incident_data) :
  In i (extract a) <-> kept_as a i.
Proof.
  unfold news_spec.extract, data_agent.article_step, news_spec.kept_as.
  destruct (art_title a) as [| |t]; [| |destruct t as [|c t]];
    (destruct (art_description a) as [| |de]; [| |destruct de as [|c' de]]);
    cbn [get truthy negb orb In];
    try (split;
         [intros []
         |intros (t' & de' & H1 & N1 & H2 & N2 & _);
          try discriminate H1; try discriminate H2;
          try (injection H1 as <-; congruence);
          try (injection H2 as <-; congruence)]).
  destruct (contains "[Removed]" (String c t)) eqn:C; cbn [In app].
  - split; [intros [] | intros (t' & de' & H & _ & _ & _ & N & _)].
    injection H as <-. apply N. apply contains_spec. exact C.
  - split.
    + intros [<-|[]]. exists (String c t), (String c' de).
      repeat split; try discriminate.
      intros X. apply contains_spec in X. congruence.
    + intros (t' & de' & H1 & _ & H2 & _ & _ & ->).
      injection H1 as <-. injection H2 as <-. now left.
Qed.

Lemma extract_length (a : article) : (List.length (extract a) <= 1)%nat.
Proof.
  unfold news_spec.extract, data_agent.article_step.
  destruct (_ || _); [cbn; lia|].
  destruct (get (art_title a)); [|cbn; lia].
  destruct (get (art_description a)); [|cbn; lia].
  destruct (contains _ _); cbn; lia.
Qed.

Lemma article_loop_extract (articles : list article) :
  forall incidents,
    fold_left article_step articles incidents
    = (incidents ++ flat_map extract articles)%list.
Proof.
  induction articles as [|a articles IH]; intros incidents; cbn [fold_left flat_map].
  - now rewrite app_nil_r.
  - rewrite IH, article_step_extract, <- app_assoc. reflexivity.
Qed.

Lemma keyword_loop_received (kws : list string) :
  forall incidents,
    keyword_loop json_dumps default_location news_api kws incidents
    = (incidents ++ flat_map (flat_map extract) (received kws))%list.
Proof.
  induction kws as [|kw kws IH]; intros incidents;
    cbn [keyword_loop news_spec.received].
  - cbn. now rewrite app_nil_r.
  - unfold page_size.
    destruct (news_api (query_of default_location kw) 5) as [e|[articles|]].
    + cbn. now rewrite app_nil_r.
    + rewrite IH, article_loop_extract. cbn [flat_map].
      now rewrite <- app_assoc.
    + rewrite IH. reflexivity.
Qed.

Lemma received_length (kws : list string) :
  (List.length (received kws) <= List.length kws)%nat.
Proof.
  induction kws as [|kw kws IH]; cbn; [lia|].
  destruct (news_api _ _) as [e|[articles|]]; cbn; lia.
Qed.

Lemma flat_map_extract_length (articles : list article) :
  (List.length (flat_map extract articles) <= List.length articles)%nat.
Proof.
  induction articles as [|a articles IH]; cbn [flat_map]; [cbn; lia|].
  rewrite length_app. pose proof (extract_length a). cbn [List.length]. lia.
Qed.

Lemma capped_total (bodies : list (list article)) (cap : nat) :
  Forall (fun articles => (List.length articles <= cap)%nat) bodies ->
  (List.length (flat_map (flat_map extract) bodies) <= List.length bodies * cap)%nat.
Proof.
  induction 1 as [|articles bodies H _ IH]; cbn [flat_map]; [cbn; lia|].
  rewrite length_app. pose proof (flat_map_extract_length articles).
  cbn [List.length]. lia.
Qed.

(** The loop asks for a page size of 5 and nothing else. *)
Lemma keyword_loop_page_size (other : string -> nat -> http_reply) :
  (forall q, other q 5 = news_api q 5) ->
  forall kws incidents,
    keyword_loop json_dumps default_location other kws incidents
    = keyword_loop json_dumps default_location news_api kws incidents.
Proof.
  intros H. induction kws as [|kw kws IH]; intros incidents; cbn [keyword_loop];
    [reflexivity|].
  unfold page_size. rewrite H.
  destruct (news_api (query_of default_location kw) 5) as [e|[articles|]];
    [reflexivity | apply IH | apply IH].
Qed.

(** A provider that keeps to the page size it is asked for sends at most
    5 articles per keyword. *)
Lemma received_capped (kws : list string) :
  (forall q n articles,
      news_api q n = JsonBody (Some articles) -> (List.length articles <= n)%nat) ->
  Forall (fun articles => (List.length articles <= 5)%nat) (received kws).
Proof.
  intros H. induction kws as [|kw kws IH]; cbn [news_spec.received]; [constructor|].
  destruct (news_api (query_of default_location kw) 5) as [e|[articles|]] eqn:E;
    constructor; try exact IH.
  - exact (H _ _ _ E).
  - cbn. lia.
Qed.

(** C9, as the code has it: the queries go to the first three keywords,
    "accident", "emergency" and "police", each with a page size of 5, and
    stop at the first request that fails. From the article lists
    received, an incident is produced for every article whose title and
    description are non-empty strings and whose title does not contain
    "[Removed]", in order, and for no other article. The page size is all
    the code does about the cap: it does not cut a list, so a keyword
    gives at most 5 incidents, and the three at most 15, when the
    provider sends no more articles than the page size it was asked
    for. *)
Theorem fetch_news_data_keeps_well_formed :
  firstn 3 keywords = ["accident"; "emergency"; "police"]
  /\ fetch_news_data json_dumps default_location news_api
     = flat_map (flat_map extract) (received ["accident"; "emergency"; "police"])
  /\ (forall i,
        In i (fetch_news_data json_dumps default_location news_api) <->
        exists articles a,
          In articles (received ["accident"; "emergency"; "police"])
          /\ In a articles /\ kept_as a i)
  /\ (forall articles,
        (List.length (flat_map extract articles) <= List.length articles)%nat)
  /\ (forall other : string -> nat -> http_reply,
        (forall q, other q 5 = news_api q 5) ->
        fetch_news_data json_dumps default_location other
        = fetch_news_data json_dumps default_location news_api)
  /\ ((forall q n articles,
          news_api q n = JsonBody (Some articles) -> (List.length articles <= n)%nat) ->
      Forall (fun articles => (List.length (flat_map extract articles) <= 5)%nat)
        (received ["accident"; "emergency"; "police"])
      /\ (List.length (fetch_news_data json_dumps default_location news_api) <= 15)%nat).
Proof.
  assert (E : fetch_news_data json_dumps default_location news_api
              = flat_map (flat_map extract) (received ["accident"; "emergency"; "police"])).
  { unfold fetch_news_data. rewrite keyword_loop_received. reflexivity. }
  split; [reflexivity|]. split; [exact E|]. split; [|split; [|split]].
  - intros i. rewrite E, in_flat_map. split.
    + intros (articles & I & J). apply in_flat_map in J.
      destruct J as (a & Ia & K). apply extract_spec in K.
      exists articles, a. auto.
    + intros (articles & a & I & Ia & K). exists articles. split; [exact I|].
      apply in_flat_map. exists a. split; [exact Ia|]. now apply extract_spec.
  - apply flat_map_extract_length.
  - intros other H. unfold fetch_news_data. now apply keyword_loop_page_size.
  - intros H.
    pose proof (received_capped ["accident"; "emergency"; "police"] H) as Cap.
    split.
    + eapply Forall_impl; [|exact Cap]. intros articles L.
      pose proof (flat_map_extract_length articles). cbv beta in L. lia.
    + rewrite E. pose proof (capped_total _ 5 Cap) as T.
      pose proof (received_length ["accident"; "emergency"; "police"]) as R.
      cbn [List.length] in R. nia.
Qed.

End FetchNews.

(** Of three articles for the first keyword, one is marked removed and one
    has no title; the second keyword's body has no article list. *)
Example fetch_news_data_filters :
  map d_title (data_agent.fetch_news_data sample.dumps "New York" sample.modest_provider)
  = ["Accident 1"; "Accident 2"].
Proof. reflexivity. Qed.

(** C9 as stated fails on the cap: asked for a page size of 5, a provider
    that answers the first keyword's query with six well-formed articles
    gets six incidents for that keyword. *)
Lemma news_cap_is_left_to_the_provider :
  data_agent.page_size = 5%nat
  /\ sample.generous_provider "accident AND New York" data_agent.page_size
     = data_agent.JsonBody (Some sample.six_stories)
  /\ news_spec.received "New York" sample.generous_provider
       ["accident"; "emergency"; "police"]
     = [sample.six_stories; []; []]
  /\ List.length (data_agent.fetch_news_data sample.dumps "New York" sample.generous_provider)
     = 6%nat
  /\ ~ (List.length
          (data_agent.fetch_news_data sample.dumps "New York" sample.generous_provider)
        <= 5)%nat.
Proof.
  split; [reflexivity|]. split; [reflexivity|].
  split; [reflexivity|]. split; [reflexivity|].
  cbn. lia.
Qed.

(* ================================================================== *)
(** * What a run of process_incidents keeps *)
(* ================================================================== *)

Section RunInvariants.

Import notification_agent.

Lemma extends_by_refl (db : Db) : extends_by 0 db db.
Proof.
  unfold extends_by. repeat split; try lia. exists []. now rewrite app_nil_r.
Qed.

Lemma extends_by_trans (n m : nat) (db1 db2 db3 : Db) :
  extends_by n db1 db2 -> extends_by m db2 db3 -> extends_by (n + m) db1 db3.
Proof.
  intros (U1 & S1 & L1 & logs1 & N1) (U2 & S2 & L2 & logs2 & N2).
  unfold extends_by. rewrite U2, U1, S2, S1. repeat split; try lia.
  exists (logs1 ++ logs2)%list. now rewrite N2, N1, app_assoc.
Qed.

Lemma extends_by_more (n m : nat) (db db' : Db) :
  (n <= m)%nat -> extends_by n db db' -> extends_by m db db'.
Proof.
  intros H (U & S & L & N). unfold extends_by. repeat split; auto; lia.
Qed.

Lemma save_analyzed_incident_extends (db : Db) (w : World) (d : incident_data)
    (a : gemini.IncidentAnalysis) :
  extends_by 1 db (fst (save_analyzed_incident db w d a)).
Proof.
  unfold save_analyzed_incident, save_analyzed_incident_try, commit.
  destruct (first _ (incidents db)); destruct (incident_commit_ok w);
    destruct (rollback_ok w);
    cbn; unfold extends_by; cbn;
    rewrite ?update_first_length, ?length_app; cbn;
    (repeat split; try lia); exists []; now rewrite app_nil_r.
Qed.

Lemma send_notifications_extends (db : Db) (w : World) (incident : Incident) :
  extends_by 0 db (fst (send_notifications db w incident))
  /\ incidents (fst (send_notifications db w incident)) = incidents db.
Proof.
  unfold send_notifications, commit.
  destruct (log_commit_ok w); cbn [fst].
  - split; [|reflexivity]. unfold extends_by. cbn. repeat split; try lia. eauto.
  - split; [apply extends_by_refl | reflexivity].
Qed.

Lemma process_analysed_extends (db : Db) (w : World) (d : incident_data)
    (a : gemini.IncidentAnalysis) :
  extends_by 1 db (fst (process_analysed db w d a)).
Proof.
  unfold process_analysed.
  destruct (meets_minimum_criteria a);
    [|apply (extends_by_more 0 1); [lia | apply extends_by_refl]].
  pose proof (save_analyzed_incident_extends db w d a) as E.
  destruct (save_analyzed_incident db w d a) as [db1 [[i|]|e]]; cbn [fst] in *;
    try exact E.
  destruct (high_priority a); cbn [fst]; [|exact E].
  pose proof (send_notifications_extends db1 w i) as [X _].
  destruct (send_notifications db1 w i) as [db2 dispatch]. cbn [fst] in X.
  apply (extends_by_trans 1 0 _ _ _ E).
  destruct (raised dispatch); exact X.
Qed.

Lemma process_incident_extends (db : Db) (w : World) (d : incident_data) :
  extends_by 1 db (fst (process_incident db w d)).
Proof.
  destruct (primary_analysis_returns w d) as [primary P].
  destruct (credibility_check_returns w d) as [c C].
  rewrite (process_incident_unfold db w d primary c P C).
  apply process_analysed_extends.
Qed.

(** The loop, by its three results. *)
Lemma process_loop_results (env : nat -> World) (l : list incident_data) :
  forall n db processed_incidents outcomes,
    process_loop env n db l processed_incidents outcomes
    = (loop_db env n db l,
       (processed_incidents ++ flat_map processed (loop_outcomes env n db l))%list,
       (outcomes ++ loop_outcomes env n db l)%list).
Proof.
  induction l as [|d rest IH]; intros n db pr os;
    cbn [process_loop loop_db loop_outcomes flat_map].
  - now rewrite !app_nil_r.
  - destruct (process_incident db (env n) d) as [db' o]. cbn [fst flat_map].
    rewrite IH, <- !app_assoc. reflexivity.
Qed.

Lemma loop_db_extends (env : nat -> World) (l : list incident_data) :
  forall n db, extends_by (List.length l) db (loop_db env n db l).
Proof.
  induction l as [|d rest IH]; intros n db; cbn [loop_db List.length].
  - apply extends_by_refl.
  - apply (extends_by_trans 1 _ _ _ _ (process_incident_extends db (env n) d)), IH.
Qed.

Lemma loop_outcomes_analysed (env : nat -> World) (l : list incident_data) :
  forall n db, Forall (fun o => analysis_of o <> None) (loop_outcomes env n db l).
Proof.
  induction l as [|d rest IH]; intros n db; cbn [loop_outcomes]; [constructor|].
  destruct (process_incident db (env n) d) as [db' o] eqn:E.
  constructor; [|apply IH].
  destruct (primary_analysis_returns (env n) d) as [primary P].
  destruct (credibility_check_returns (env n) d) as [c C].
  rewrite (process_incident_unfold db (env n) d primary c P C) in E.
  pose proof (process_analysed_shows db (env n) d (override primary c)) as (A & _).
  rewrite E in A. cbn [snd] in A. congruence.
Qed.

Lemma processed_length (os : list Outcome) :
  (List.length (flat_map processed os) <= List.length os)%nat.
Proof.
  induction os as [|o os IH]; cbn [flat_map]; [cbn; lia|].
  rewrite length_app. cbn [List.length].
  destruct o as [e [|a|a i r]|a|a|a i|a i r]; cbn [processed List.length]; lia.
Qed.

(** X1: [process_incidents] works through the whole list whatever the
    model, the database and the mail transport do: every incident gets one
    outcome. The [except] branch of the loop body is never reached from
    the two model calls; it is reached, for an incident that passes the
    store gate, exactly when the save fails and its rollback raises, or
    when the row is saved, the incident is of high priority and the commit
    of the notification rows fails. The list returned holds the rows that
    were saved, at most one per incident, also the row whose dispatch
    raised. *)
Theorem process_incidents_covers_the_list (env : nat -> World) (db : Db)
    (l : list incident_data) :
  List.length (outcomes_of (process_incidents env db l)) = List.length l
  /\ Forall (fun o => analysis_of o <> None) (outcomes_of (process_incidents env db l))
  /\ (forall k d o,
        nth_error l k = Some d ->
        nth_error (outcomes_of (process_incidents env db l)) k = Some o ->
        exists primary c,
          primary_analysis (env k) d = Ok primary
          /\ credibility_check (env k) d = Ok c
          /\ analysis_of o = Some (override primary c)
          /\ (reached_except o = true <->
              meets_minimum_criteria (override primary c) = true
              /\ ((incident_commit_ok (env k) = false /\ rollback_ok (env k) = false)
                  \/ (incident_commit_ok (env k) = true
                      /\ high_priority (override primary c) = true
                      /\ log_commit_ok (env k) = false)))
          /\ (reached_except o = true ->
              (saved_incident o <> None <-> incident_commit_ok (env k) = true)
              /\ dispatch_called o = incident_commit_ok (env k)))
  /\ snd (fst (process_incidents env db l))
     = flat_map (fun o => match saved_incident o with
                          | Some i => [id i]
                          | None => []
                          end)
         (outcomes_of (process_incidents env db l))
  /\ (List.length (snd (fst (process_incidents env db l))) <= List.length l)%nat.
Proof.
  split; [|split; [|split]].
  - rewrite process_incidents_outcomes. apply loop_outcomes_length.
  - rewrite process_incidents_outcomes. apply loop_outcomes_analysed.
  - intros k d o Hd Ho.
    destruct (process_incidents_nth env db l k d o Hd Ho)
      as (db_k & primary & c & P & C & ->).
    exists primary, c. split; [exact P|]. split; [exact C|].
    destruct (process_analysed_shows db_k (env k) d (override primary c))
      as (A & _ & V & D & _ & _ & X).
    split; [exact A|]. split; [exact X|].
    intros R. apply X in R. destruct R as [M [[Co _]|(Co & H & _)]]; rewrite Co.
    + assert (S : ~ saved_incident
                      (snd (process_analysed db_k (env k) d (override primary c)))
                    <> None).
      { intros S. apply V in S. destruct S as [_ S]. congruence. }
      split; [split; [intros S'; now apply S in S' | discriminate]|].
      apply not_true_is_false. intros G.
      apply D in G. destruct G as [G _]. now apply S in G.
    + assert (S : saved_incident
                    (snd (process_analysed db_k (env k) d (override primary c)))
                  <> None) by (apply V; auto).
      split; [split; [reflexivity | intros _; exact S]|].
      apply D. auto.
  - unfold process_incidents, outcomes_of. rewrite process_loop_results.
    cbn [fst snd app].
    assert (P : flat_map processed (loop_outcomes env 0 db l)
                = flat_map (fun o => match saved_incident o with
                                     | Some i => [id i]
                                     | None => []
                                     end) (loop_outcomes env 0 db l)).
    { apply flat_map_ext. intros [e [|a|a i r]|a|a|a i|a i r]; reflexivity. }
    split; [exact P|].
    rewrite <- (loop_outcomes_length env l 0 db). apply processed_length.
Qed.

(** X2: a run of [process_incidents] loses nothing: the users and the
    subscriptions are as before, the incident table has no row fewer and
    at most one more per incident of the list, and the notification log
    keeps its old rows in front of the new ones. *)
Theorem process_incidents_only_adds (env : nat -> World) (db : Db)
    (l : list incident_data) :
  users (fst (fst (process_incidents env db l))) = users db
  /\ subscriptions (fst (fst (process_incidents env db l))) = subscriptions db
  /\ (List.length (incidents db)
      <= List.length (incidents (fst (fst (process_incidents env db l))))
      <= List.length (incidents db) + List.length l)%nat
  /\ exists logs,
       notification_logs (fst (fst (process_incidents env db l)))
       = (notification_logs db ++ logs)%list.
Proof.
  unfold process_incidents. rewrite process_loop_results. cbn [fst].
  apply loop_db_extends.
Qed.

Lemma update_first_Forall {A} (P : A -> Prop) (p : A -> bool) (f : A -> A)
    (rows : list A) :
  (forall r, P (f r)) -> Forall P rows -> Forall P (update_first p f rows).
Proof.
  intros F. induction 1 as [|r rows H HF IH]; cbn [update_first]; [constructor|].
  destruct (p r); constructor; auto.
Qed.

(** The incident table after a save: the old rows with one of them
    rewritten, or the old rows and a new one; either way the row comes
    from [update_existing] or [new_incident]. *)
Lemma save_analyzed_incident_keeps (P : Incident -> Prop) (db : Db) (w : World)
    (d : incident_data) (a : gemini.IncidentAnalysis) :
  (forall now existing, P (update_existing now a existing)) ->
  (forall new_id now, P (new_incident new_id now d a)) ->
  Forall P (incidents db) ->
  Forall P (incidents (fst (save_analyzed_incident db w d a)))
  /\ (forall i, snd (save_analyzed_incident db w d a) = Ok (Some i) -> P i).
Proof.
  intros U N H.
  unfold save_analyzed_incident, save_analyzed_incident_try, commit.
  destruct (first _ (incidents db)) as [e|]; destruct (incident_commit_ok w);
    destruct (rollback_ok w); cbn;
    (split; [|intros j E; try discriminate E; injection E as <-; auto]); auto.
  - apply update_first_Forall; auto.
  - apply update_first_Forall; auto.
  - apply Forall_app. split; [exact H|]. constructor; [apply N | constructor].
  - apply Forall_app. split; [exact H|]. constructor; [apply N | constructor].
Qed.

Lemma process_analysed_keeps (P : Incident -> Prop) (db : Db) (w : World)
    (d : incident_data) (a : gemini.IncidentAnalysis) :
  (meets_minimum_criteria a = true ->
   (forall now existing, P (update_existing now a existing))
   /\ (forall new_id now, P (new_incident new_id now d a))) ->
  Forall P (incidents db) ->
  Forall P (incidents (fst (process_analysed db w d a)))
  /\ (forall i, saved_incident (snd (process_analysed db w d a)) = Some i -> P i).
Proof.
  intros G H. unfold process_analysed.
  destruct (meets_minimum_criteria a);
    [|cbn; split; [exact H | discriminate]].
  destruct (G eq_refl) as [U N].
  destruct (save_analyzed_incident_keeps P db w d a U N H) as [K R].
  destruct (save_analyzed_incident db w d a) as [db1 [[i|]|e]]; cbn [fst snd] in *.
  - destruct (high_priority a); cbn [fst snd saved_incident].
    + pose proof (send_notifications_extends db1 w i) as [_ X].
      destruct (send_notifications db1 w i) as [db2 dispatch]. cbn [fst] in X.
      destruct (raised dispatch); cbn [fst snd saved_incident]; rewrite X;
        (split; [exact K | intros j E; injection E as <-; now apply R]).
    + split; [exact K | intros j E; injection E as <-; now apply R].
  - cbn. split; [exact K | discriminate].
  - cbn. split; [exact K | discriminate].
Qed.

Lemma meets_minimum_criteria_stored_well (a : gemini.IncidentAnalysis)
    (d : incident_data) :
  meets_minimum_criteria a = true ->
  (forall now existing, stored_well (update_existing now a existing))
  /\ (forall new_id now, stored_well (new_incident new_id now d a)).
Proof.
  intros M. apply meets_minimum_criteria_iff in M. destruct M as [R C].
  split; intros; split; assumption.
Qed.

Lemma process_incident_stored_well (db : Db) (w : World) (d : incident_data) :
  Forall stored_well (incidents db) ->
  Forall stored_well (incidents (fst (process_incident db w d)))
  /\ (forall i, saved_incident (snd (process_incident db w d)) = Some i ->
                stored_well i).
Proof.
  intros H.
  destruct (primary_analysis_returns w d) as [primary P].
  destruct (credibility_check_returns w d) as [c C].
  rewrite (process_incident_unfold db w d primary c P C).
  apply process_analysed_keeps; [|exact H].
  intros M. now apply meets_minimum_criteria_stored_well.
Qed.

Lemma loop_stored_well (env : nat -> World) (l : list incident_data) :
  forall n db,
    Forall stored_well (incidents db) ->
    Forall stored_well (incidents (loop_db env n db l))
    /\ Forall (fun o => forall i, saved_incident o = Some i -> stored_well i)
         (loop_outcomes env n db l).
Proof.
  induction l as [|d rest IH]; intros n db H; cbn [loop_db loop_outcomes].
  - split; [exact H | constructor].
  - destruct (process_incident_stored_well db (env n) d H) as [K R].
    destruct (process_incident db (env n) d) as [db' o]. cbn [fst snd] in *.
    destruct (IH (S n) db' K) as [K' R'].
    split; [exact K' | constructor; assumption].
Qed.

(** X3: the notification agent only stores what passed its gate: when
    every row of the incident table is verified with a relevance score of
    at least 0.3, the same holds after a run of [process_incidents],
    for the rows it updated, the rows it inserted and the rows it
    returned. *)
Theorem process_incidents_stores_gated_rows (env : nat -> World) (db : Db)
    (l : list incident_data) :
  Forall stored_well (incidents db) ->
  Forall stored_well (incidents (fst (fst (process_incidents env db l))))
  /\ Forall (fun o => forall i, saved_incident o = Some i -> stored_well i)
       (outcomes_of (process_incidents env db l)).
Proof.
  intros H. unfold process_incidents, outcomes_of. rewrite process_loop_results.
  cbn [fst snd app]. now apply loop_stored_well.
Qed.

Lemma process_incidents_stores_gated_rows_witness :
  Forall stored_well
    (incidents (fst (fst (sample.run (sample.verdict 0.8 "high" true))))).
Proof.
  exact (proj1 (process_incidents_stores_gated_rows
                  (fun _ => sample.world (sample.verdict 0.8 "high" true) "true" 0)
                  sample.db0 [sample.storm] (Forall_nil _))).
Defined.

End RunInvariants.

(* ================================================================== *)
(** * The except branch of the loop and the session it leaves *)
(* ================================================================== *)

Section Session.

Import notification_agent.

(** The commit of the notification rows fails: the row is saved and
    returned, the mails have gone out, no notification row is stored, and
    the iteration ends in the [except] branch. *)
Example except_branch_after_dispatch :
  reached_except
    (snd (process_incident sample.db0
            (sample.log_failure (sample.verdict 0.8 "high" true)) sample.storm))
  = true
  /\ processed
       (snd (process_incident sample.db0
               (sample.log_failure (sample.verdict 0.8 "high" true)) sample.storm))
     = [1%Z]
  /\ dispatch_attempts
       (snd (process_incident sample.db0
               (sample.log_failure (sample.verdict 0.8 "high" true)) sample.storm))
     = [sample.alice; sample.dave]
  /\ map id
       (incidents
          (fst (process_incident sample.db0
                  (sample.log_failure (sample.verdict 0.8 "high" true)) sample.storm)))
     = [1%Z]
  /\ notification_logs
       (fst (process_incident sample.db0
               (sample.log_failure (sample.verdict 0.8 "high" true)) sample.storm))
     = [].
Proof. repeat split; reflexivity. Qed.

(** Outside an application context the save raises from its own handler:
    the iteration ends in the [except] branch and nothing is stored. *)
Example except_branch_in_save :
  process_incident sample.db0
    (sample.no_context (sample.verdict 0.8 "high" true)) sample.storm
  = (sample.db0,
     Errored "rollback raised" (InSave (sample.verdict 0.8 "high" true))).
Proof. reflexivity. Qed.





End Session.

(* ================================================================== *)
(** * More on the two save paths *)
(* ================================================================== *)

Section SaveAgain.

Import notification_agent.

Lemma first_update_first {A} (p : A -> bool) (f : A -> A) (rows : list A) (e : A) :
  first p rows = Some e -> p (f e) = true ->
  first p (update_first p f rows) = Some (f e).
Proof.
  unfold first. induction rows as [|r rows IH]; cbn; [discriminate|].
  destruct (p r) eqn:E.
  - intros H P. injection H as ->. cbn. now rewrite P.
  - intros H P. cbn. rewrite E. now apply IH.
Qed.

(** X4: a save that commits can be looked up again: the row returned is
    the one the same lookup finds afterwards, it carries the title and
    source of the incident and the fields of the analysis, whether the
    call inserted or updated. (The clock at the write is not more than 24
    hours behind the clock at the lookup.) *)
Theorem saved_row_is_found_again (db : Db) (w : World) (d : incident_data)
    (a : gemini.IncidentAnalysis) :
  incident_commit_ok w = true ->
  (utcnow_lookup w - hours24 <= utcnow_write w)%Z ->
  exists row,
    snd (save_analyzed_incident db w d a) = Ok (Some row)
    /\ first (existing_filter (utcnow_lookup w) d)
         (incidents (fst (save_analyzed_incident db w d a))) = Some row
    /\ title row = d_title d /\ source row = d_source d
    /\ ai_summary row = Some (gemini.summary a)
    /\ relevance_score row = gemini.relevance_score a
    /\ severity row = gemini.severity a
    /\ category row = gemini.category a
    /\ is_verified row = gemini.is_credible a
    /\ updated_at row = utcnow_write w.
Proof.
  intros C W.
  destruct (first (existing_filter (utcnow_lookup w) d) (incidents db))
    as [e|] eqn:F.
  - rewrite (save_analyzed_incident_update db w d a e C F). cbn [fst snd].
    assert (P : existing_filter (utcnow_lookup w) d e = true)
      by (unfold first in F; apply (find_some _ _ F)).
    exists (update_existing (utcnow_write w) a e).
    split; [reflexivity|]. split.
    + cbn [incidents with_incidents]. apply first_update_first; assumption.
    + apply existing_filter_iff in P. destruct P as (T & S & _).
      cbn. repeat split; auto.
  - rewrite (save_analyzed_incident_insert db w d a C F). cbn [fst snd].
    eexists. split; [reflexivity|]. split.
    + cbn [incidents with_incidents]. rewrite (first_app_none _ _ _ F).
      unfold first. cbn [find].
      assert (existing_filter (utcnow_lookup w) d
                (new_incident (next_id (map id (incidents db))) (utcnow_write w) d a)
              = true) as ->; [|reflexivity].
      apply existing_filter_iff. cbn. auto.
    + cbn. repeat split; reflexivity.
Qed.

Lemma saved_row_is_found_again_witness :
  exists row,
    snd (save_analyzed_incident sample.db_old
           (sample.world (sample.verdict 0.8 "high" true) "true" (sample.hours 2))
           sample.storm (sample.verdict 0.8 "high" true)) = Ok (Some row)
    /\ id row = 1%Z /\ severity row = "high"
    /\ description row = "Thunderstorm expected".
Proof.
  destruct (saved_row_is_found_again sample.db_old
              (sample.world (sample.verdict 0.8 "high" true) "true" (sample.hours 2))
              sample.storm (sample.verdict 0.8 "high" true) eq_refl)
    as (row & R & _).
  - vm_compute. discriminate.
  - exists row. split; [exact R|].
    vm_compute in R. injection R as <-. repeat split; reflexivity.
Defined.

Lemma update_existing_key (now : Z) (a : option gemini.IncidentAnalysis) (r : Incident) :
  key_of (data_agent.update_existing now a r) = key_of r.
Proof. destruct a; reflexivity. Qed.

Lemma update_first_keys {A B} (key : A -> B) (p : A -> bool) (f : A -> A)
    (rows : list A) :
  (forall r, key (f r) = key r) ->
  map key (update_first p f rows) = map key rows.
Proof.
  intros K. induction rows as [|r rows IH]; cbn; [reflexivity|].
  destruct (p r); cbn; [now rewrite K | now rewrite IH].
Qed.

Lemma no_match_no_key (d : incident_data) (rows : list Incident) :
  first (data_agent.same_title_source d) rows = None ->
  ~ In (d_title d, d_source d) (map key_of rows).
Proof.
  unfold first. intros F I. apply in_map_iff in I. destruct I as (r & K & I).
  apply (find_none _ _ F) in I. unfold key_of in K. injection K as T S.
  unfold data_agent.same_title_source in I. rewrite T, S, !String.eqb_refl in I.
  discriminate I.
Qed.

(** X5: [DataAgent.save_incident] never makes a second row for a title and
    source that are there already: when no two rows of the incident table
    share their title and source, no two do after the call, with or
    without an analysis, whether the commit goes through or not. *)
Theorem save_incident_keeps_keys_unique (db : Db) (now : Z) (commit_ok : bool)
    (d : incident_data) (analysis : option gemini.IncidentAnalysis) :
  NoDup (map key_of (incidents db)) ->
  NoDup (map key_of (incidents (data_agent.save_incident db now commit_ok d analysis))).
Proof.
  intros H. unfold data_agent.save_incident, data_agent.save_incident_try, commit.
  destruct (first (data_agent.same_title_source d) (incidents db)) as [e|] eqn:F;
    destruct commit_ok; cbn [incidents with_incidents]; try exact H.
  - rewrite update_first_keys; [exact H|]. intros r. apply update_existing_key.
  - rewrite map_app. apply NoDup_app; [exact H | | ].
    + cbn. constructor; [intros [] | constructor].
    + intros k I [<-|[]]. apply (no_match_no_key d _ F).
      destruct analysis; exact I.
Qed.

Lemma save_incident_keeps_keys_unique_witness :
  NoDup (map key_of
           (incidents (data_agent.save_incident sample.db_old (sample.hours 25) true
                         sample.storm None))).
Proof.
  apply (save_incident_keeps_keys_unique sample.db_old (sample.hours 25) true
           sample.storm None).
  cbn. constructor; [intros [] | constructor].
Defined.

End SaveAgain.

(* ================================================================== *)
(** * filter_credible_sources and summarize_multiple_incidents *)
(* ================================================================== *)

Section GeminiText.

Import gemini.

Lemma is_space_lower_char (c : ascii) : is_space c = true -> lower_char c = c.
Proof.
  destruct c as [[] [] [] [] [] [] [] []]; intros H;
    first [reflexivity | discriminate H].
Qed.

Lemma lstrip_app_space (pre s : string) :
  all_space pre = true -> lstrip (pre ++ s) = lstrip s.
Proof.
  induction pre as [|c pre IH]; cbn; [reflexivity|].
  intros H. apply andb_true_iff in H. destruct H as [C H].
  rewrite C. now apply IH.
Qed.

Lemma rstrip_space (post : string) : all_space post = true -> rstrip post = "".
Proof.
  induction post as [|c post IH]; cbn; [reflexivity|].
  intros H. apply andb_true_iff in H. destruct H as [C H].
  now rewrite (IH H), C.
Qed.

Lemma rstrip_app_space (s post : string) :
  all_space post = true -> rstrip (s ++ post) = rstrip s.
Proof.
  intros H. induction s as [|c s IH]; cbn [append rstrip].
  - now apply rstrip_space.
  - now rewrite IH.
Qed.

(** A text that lowercases to "true" has no white space at either end. *)
Lemma lower_true_clean (core : string) :
  lower core = "true" -> lstrip core = core /\ rstrip core = core.
Proof.
  destruct core as [|c1 [|c2 [|c3 [|c4 [|c5 rest]]]]]; cbn [lower];
    intros H; try discriminate H.
  injection H as H1 H2 H3 H4.
  assert (N : forall c x, lower_char c = x -> is_space x = false -> is_space c = false).
  { intros c x L X. destruct (is_space c) eqn:S; [|reflexivity].
    rewrite (is_space_lower_char c S) in L. congruence. }
  pose proof (N c1 _ H1 eq_refl) as S1. pose proof (N c4 _ H4 eq_refl) as S4.
  pose proof (N c2 _ H2 eq_refl) as S2. pose proof (N c3 _ H3 eq_refl) as S3.
  cbn [lstrip rstrip]. rewrite S1, S4. split; reflexivity.
Qed.

Lemma strip_padded_true (pre core post : string) :
  all_space pre = true -> all_space post = true -> lower core = "true" ->
  strip (pre ++ core ++ post) = core.
Proof.
  intros Hpre Hpost L. unfold strip.
  destruct (lower_true_clean core L) as [Lc Rc].
  rewrite (lstrip_app_space _ _ Hpre).
  assert (E : lstrip (core ++ post) = core ++ post).
  { destruct core as [|c core]; [discriminate L|].
    cbn [lstrip append] in *. destruct (is_space c); [|reflexivity].
    exfalso. assert (String.length (lstrip core) <= String.length core)%nat as B.
    { clear. induction core as [|c core IH]; cbn; [lia|].
      destruct (is_space c); cbn; lia. }
    rewrite Lc in B. cbn in B. lia. }
  rewrite E, (rstrip_app_space _ _ Hpost). exact Rc.
Qed.

(** X6: [filter_credible_sources] always returns. It says true when the
    model call raises, and otherwise exactly when the answer, without the
    white space around it and in lower case, is "true": an answer such as
    " True " with any white space and any capitals passes, a missing or
    empty answer does not. *)
Theorem filter_credible_sources_verdict (content : string) (source_url : option string)
    (reply : text_reply) :
  exists c,
    filter_credible_sources content source_url reply = Ok c
    /\ (c = true <->
        (exists e, reply = TextRaised e)
        \/ (exists t, reply = TextReply (Some t) /\ lower (strip t) = "true"))
    /\ (forall pre core post,
          all_space pre = true -> all_space post = true -> lower core = "true" ->
          filter_credible_sources content source_url
            (TextReply (Some (pre ++ core ++ post))) = Ok true)
    /\ filter_credible_sources content source_url (TextReply None) = Ok false
    /\ filter_credible_sources content source_url (TextReply (Some "")) = Ok false.
Proof.
  assert (V : forall t, filter_credible_sources content source_url (TextReply (Some t))
                        = Ok (String.eqb (lower (strip t)) "true")).
  { intros [|c t]; reflexivity. }
  destruct reply as [e | [t|]].
  - exists true. split; [reflexivity|]. split; [|split; [|split; reflexivity]].
    + split; [intros _; left; eauto | reflexivity].
    + intros pre core post Hpre Hpost L. rewrite V.
      now rewrite (strip_padded_true _ _ _ Hpre Hpost L), L.
  - exists (String.eqb (lower (strip t)) "true").
    split; [apply V|]. split; [|split; [|split; reflexivity]].
    + rewrite String.eqb_eq. split.
      * intros H. right. exists t. split; [reflexivity | exact H].
      * intros [[e H] | (t' & H & L)]; [discriminate H|].
        injection H as <-. exact L.
    + intros pre core post Hpre Hpost L. rewrite V.
      now rewrite (strip_padded_true _ _ _ Hpre Hpost L), L.
  - exists false. split; [reflexivity|]. split; [|split; [|split; reflexivity]].
    + split; [discriminate|]. intros [[e H] | (t' & H & _)]; discriminate H.
    + intros pre core post Hpre Hpost L. rewrite V.
      now rewrite (strip_padded_true _ _ _ Hpre Hpost L), L.
Qed.

Lemma summary_lines_unsliceable (incidents : list summary_item) :
  Exists unsliceable incidents -> raises (summary_lines incidents) = true.
Proof.
  induction 1 as [inc rest U | inc rest _ IH]; cbn [summary_lines].
  - unfold summary_line. destruct U as [U | [U D]]; rewrite U; [reflexivity|].
    rewrite D. reflexivity.
  - destruct (summary_line inc); cbn [bind]; [|reflexivity].
    destruct (summary_lines rest); [discriminate IH | reflexivity].
Qed.

Lemma summary_lines_sliceable (incidents : list summary_item) :
  Forall (fun inc => ~ unsliceable inc) incidents ->
  raises (summary_lines incidents) = false.
Proof.
  induction 1 as [|inc rest N _ IH]; cbn [summary_lines]; [reflexivity|].
  assert (raises (summary_line inc) = false) as L.
  { unfold summary_line, unsliceable in *.
    destruct (item_ai_summary inc); [|exfalso; auto|reflexivity].
    destruct (item_description inc); [reflexivity|exfalso; auto|reflexivity]. }
  destruct (summary_line inc); [|discriminate L]. cbn [bind].
  destruct (summary_lines rest); [reflexivity | discriminate IH].
Qed.

Lemma found_text_not_empty (n : nat) :
  ("Found " ++ str_nat n ++ " active incidents. Check individual alerts for details.")
  <> "".
Proof. discriminate. Qed.

(** X7: [summarize_multiple_incidents] always returns a text, and never
    an empty one. For an empty list it is "No active incidents in your
    area." without a call of the model; when the model raises it is the
    message with the number of incidents; when the model answers with an
    empty or missing text it is "Multiple incidents reported. Check
    individual alerts for details.". *)
Theorem summary_is_never_empty (model : string -> text_reply)
    (incidents : list summary_item) :
  (exists text, summarize_multiple_incidents model incidents = Ok text /\ text <> "")
  /\ summarize_multiple_incidents model [] = Ok "No active incidents in your area."
  /\ (incidents <> [] ->
      (forall prompt e, model prompt <> TextRaised e) ->
      (forall prompt t, model prompt = TextReply (Some t) -> t = "") ->
      Forall (fun inc => ~ unsliceable inc) (firstn 10 incidents) ->
      summarize_multiple_incidents model incidents
      = Ok "Multiple incidents reported. Check individual alerts for details.")
  /\ (incidents <> [] ->
      (forall prompt, exists e, model prompt = TextRaised e) ->
      summarize_multiple_incidents model incidents
      = Ok ("Found " ++ str_nat (List.length incidents)
            ++ " active incidents. Check individual alerts for details.")).
Proof.
  split; [|split; [reflexivity|split]].
  - unfold summarize_multiple_incidents, summarize_multiple_incidents_try, try_except.
    destruct incidents as [|inc rest].
    + eexists. split; [reflexivity | discriminate].
    + destruct (summary_lines (firstn 10 (inc :: rest))) as [lines|e]; cbn [bind].
      * destruct (model _) as [e | [t|]].
        -- eexists. split; [reflexivity | apply found_text_not_empty].
        -- destruct t as [|c t]; cbn [truthy];
             eexists; (split; [reflexivity | discriminate]).
        -- eexists. split; [reflexivity | discriminate].
      * eexists. split; [reflexivity | apply found_text_not_empty].
  - intros N R T S.
    unfold summarize_multiple_incidents, summarize_multiple_incidents_try, try_except.
    destruct incidents as [|inc rest]; [contradiction|].
    apply summary_lines_sliceable in S.
    destruct (summary_lines (firstn 10 (inc :: rest))) as [lines|e];
      [|discriminate S]. cbn [bind].
    destruct (model _) as [e | [t|]] eqn:M.
    + exfalso. exact (R _ _ M).
    + rewrite (T _ _ M). reflexivity.
    + reflexivity.
  - intros N R.
    unfold summarize_multiple_incidents, summarize_multiple_incidents_try, try_except.
    destruct incidents as [|inc rest]; [contradiction|].
    destruct (summary_lines (firstn 10 (inc :: rest))) as [lines|e]; cbn [bind];
      [|reflexivity].
    destruct (R (summary_prompt (join newline lines))) as [e ->]. reflexivity.
Qed.

(** X8: one item among the first ten whose [ai_summary] is [None] (or
    that has none and whose [description] is [None]) makes
    [summarize_multiple_incidents] give up before it calls the model: the
    result is the message with the number of incidents, whatever the
    model would answer. Items after the tenth are not read: when the
    first ten can be sliced, the answer of the model is returned. *)
Theorem summary_gives_up_on_none (model : string -> text_reply)
    (incidents : list summary_item) :
  (Exists unsliceable (firstn 10 incidents) ->
   summarize_multiple_incidents model incidents
   = Ok ("Found " ++ str_nat (List.length incidents)
         ++ " active incidents. Check individual alerts for details."))
  /\ (forall t,
        incidents <> [] ->
        Forall (fun inc => ~ unsliceable inc) (firstn 10 incidents) ->
        (forall prompt, model prompt = TextReply (Some t)) ->
        t <> "" ->
        summarize_multiple_incidents model incidents = Ok t).
Proof.
  split.
  - intros U.
    assert (N : incidents <> []).
    { intros ->. cbn in U. inversion U. }
    apply summary_lines_unsliceable in U.
    unfold summarize_multiple_incidents, summarize_multiple_incidents_try, try_except.
    destruct incidents as [|inc rest]; [contradiction|].
    destruct (summary_lines (firstn 10 (inc :: rest))); [discriminate U | reflexivity].
  - intros t N S M T.
    apply summary_lines_sliceable in S.
    unfold summarize_multiple_incidents, summarize_multiple_incidents_try, try_except.
    destruct incidents as [|inc rest]; [contradiction|].
    destruct (summary_lines (firstn 10 (inc :: rest))) as [lines|e];
      [|discriminate S]. cbn [bind]. rewrite M.
    destruct t; [contradiction | reflexivity].
Qed.

Lemma summary_gives_up_on_none_witness :
  summarize_multiple_incidents (fun _ => TextReply (Some "All quiet."))
    [mkSummaryItem (Text "Fire") (Text "A fire downtown.") (Text "Fire reported");
     mkSummaryItem (Text "Weather Alert: Rain") IsNone (Text "Light rain")]
  = Ok "Found 2 active incidents. Check individual alerts for details.".
Proof.
  refine (proj1 (summary_gives_up_on_none (fun _ => TextReply (Some "All quiet."))
           [mkSummaryItem (Text "Fire") (Text "A fire downtown.") (Text "Fire reported");
            mkSummaryItem (Text "Weather Alert: Rain") IsNone (Text "Light rain")]) _).
  apply Exists_cons_tl. apply Exists_cons_hd. left. reflexivity.
Defined.

(** The same two incidents with their summaries in place reach the
    model, and its answer is returned. *)
Example summary_from_the_model :
  summarize_multiple_incidents (fun _ => TextReply (Some "All quiet."))
    [mkSummaryItem (Text "Fire") (Text "A fire downtown.") (Text "Fire reported");
     mkSummaryItem (Text "Weather Alert: Rain") Missing (Text "Light rain")]
  = Ok "All quiet.".
Proof. reflexivity. Qed.

End GeminiText.

(* ================================================================== *)
(** * The order of binary64 numbers *)
(* ================================================================== *)

Section FloatOrder.

Lemma SFcompare_key (x y : spec_float) :
  x <> S754_nan -> y <> S754_nan ->
  SFcompare x y = Some (lex3 (float_key x) (float_key y)).
Proof.
  destruct x as [s|s| |s m e], y as [s'|s'| |s' m' e']; try congruence; intros _ _;
    cbn [SFcompare float_key lex3]; try destruct s; try destruct s'; try reflexivity.
  cbn. rewrite Z.compare_opp.
  destruct (Z.compare_spec e e') as [E|E|E].
  - subst. rewrite Z.compare_refl. reflexivity.
  - assert ((e' ?= e)%Z = Gt) as -> by (apply Z.compare_gt_iff; lia). reflexivity.
  - assert ((e' ?= e)%Z = Lt) as -> by (apply Z.compare_lt_iff; lia). reflexivity.
Qed.

Lemma is_number_iff (x : float) : is_number x = true <-> Prim2SF x <> S754_nan.
Proof. unfold is_number. destruct (Prim2SF x); split; congruence. Qed.

(** A value that passes a comparison is a number. *)
Lemma ge_is_number (x y : float) : ge x y = true -> is_number x = true.
Proof.
  unfold ge, is_number. rewrite leb_spec. unfold SFleb, SFcompare.
  destruct (Prim2SF y), (Prim2SF x); try discriminate; reflexivity.
Qed.

Lemma lex3_cases (a b : Z * Z * Z) :
  let '(a1, a2, a3) := a in
  let '(b1, b2, b3) := b in
  (lex3 a b = Lt <->
   (a1 < b1 \/ (a1 = b1 /\ (a2 < b2 \/ (a2 = b2 /\ a3 < b3))))%Z)
  /\ (lex3 a b = Eq <-> (a1 = b1 /\ a2 = b2 /\ a3 = b3)%Z).
Proof.
  destruct a as [[a1 a2] a3], b as [[b1 b2] b3]. unfold lex3.
  destruct (Z.compare_spec a1 b1), (Z.compare_spec a2 b2), (Z.compare_spec a3 b3);
    split; split; intros X; try lia; try reflexivity; try discriminate X.
Qed.

Lemma ranks_before_iff (a b : Incident) :
  is_number (relevance_score a) = true ->
  is_number (relevance_score b) = true ->
  (listed_before a b <-> lex4_le (rank_key b) (rank_key a)).
Proof.
  intros Na Nb. apply is_number_iff in Na, Nb.
  unfold listed_before, notification_agent.ranks_before, rank_key.
  rewrite ltb_spec, eqb_spec. unfold SFltb, SFeqb.
  rewrite (SFcompare_key _ _ Nb Na), (SFcompare_key _ _ Na Nb).
  destruct (float_key (Prim2SF (relevance_score a))) as [[a1 a2] a3].
  destruct (float_key (Prim2SF (relevance_score b))) as [[b1 b2] b3].
  unfold lex3, lex4_le.
  rewrite (Z.compare_antisym b1 a1), (Z.compare_antisym b2 a2),
    (Z.compare_antisym b3 a3).
  rewrite orb_true_iff, andb_true_iff, Z.leb_le.
  destruct (Z.compare_spec b1 a1), (Z.compare_spec b2 a2), (Z.compare_spec b3 a3);
    cbn [CompOpp];
    (split;
     [intros [X | [X Y]]; try discriminate X; lia
     |intros K;
      first [left; reflexivity
            |right; split; [reflexivity | lia]
            |exfalso; lia]]).
Qed.

Lemma lex4_le_total (a b : Z * Z * Z * Z) : lex4_le a b \/ lex4_le b a.
Proof.
  destruct a as [[[a1 a2] a3] a4], b as [[[b1 b2] b3] b4]. unfold lex4_le. lia.
Qed.

Lemma lex4_le_trans (a b c : Z * Z * Z * Z) :
  lex4_le a b -> lex4_le b c -> lex4_le a c.
Proof.
  destruct a as [[[a1 a2] a3] a4], b as [[[b1 b2] b3] b4], c as [[[c1 c2] c3] c4].
  unfold lex4_le. lia.
Qed.

(** Among rows whose relevance is a number, [ranks_before] is a total
    preorder. *)
Lemma listed_before_total (a b : Incident) :
  is_number (relevance_score a) = true ->
  is_number (relevance_score b) = true ->
  listed_before a b \/ listed_before b a.
Proof.
  intros Na Nb. rewrite (ranks_before_iff a b Na Nb), (ranks_before_iff b a Nb Na).
  destruct (lex4_le_total (rank_key a) (rank_key b)); auto.
Qed.

Lemma listed_before_trans (a b c : Incident) :
  is_number (relevance_score a) = true ->
  is_number (relevance_score b) = true ->
  is_number (relevance_score c) = true ->
  listed_before a b -> listed_before b c -> listed_before a c.
Proof.
  intros Na Nb Nc. rewrite (ranks_before_iff a b Na Nb), (ranks_before_iff b c Nb Nc),
    (ranks_before_iff a c Na Nc).
  intros H1 H2. exact (lex4_le_trans _ _ _ H2 H1).
Qed.

(** A row listed before another is at least as relevant. *)
Lemma listed_before_relevance (a b : Incident) :
  is_number (relevance_score a) = true ->
  is_number (relevance_score b) = true ->
  listed_before a b ->
  ge (relevance_score a) (relevance_score b) = true.
Proof.
  intros Na Nb H. pose proof (proj1 (ranks_before_iff a b Na Nb) H) as K.
  apply is_number_iff in Na, Nb.
  unfold ge. rewrite leb_spec. unfold SFleb.
  rewrite (SFcompare_key _ _ Nb Na).
  pose proof (lex3_cases (float_key (Prim2SF (relevance_score b)))
                (float_key (Prim2SF (relevance_score a)))) as C.
  unfold rank_key in K.
  destruct (float_key (Prim2SF (relevance_score a))) as [[a1 a2] a3].
  destruct (float_key (Prim2SF (relevance_score b))) as [[b1 b2] b3].
  unfold lex4_le in K. unfold lex3 in *.
  destruct (Z.compare_spec b1 a1), (Z.compare_spec b2 a2), (Z.compare_spec b3 a3);
    try reflexivity; exfalso; lia.
Qed.

End FloatOrder.

(* ================================================================== *)
(** * get_recent_incidents *)
(* ================================================================== *)

Section OrderBy.

Context {A : Type}.
Variable before : A -> A -> bool.
Variable Q : A -> Prop.

Hypothesis before_total :
  forall x y, Q x -> Q y -> before x y = true \/ before y x = true.
Hypothesis before_trans :
  forall x y z, Q x -> Q y -> Q z ->
                before x y = true -> before y z = true -> before x z = true.

Lemma insert_row_perm (x : A) (l : list A) :
  Permutation (insert_row before x l) (x :: l).
Proof.
  induction l as [|y l IH]; cbn [insert_row]; [reflexivity|].
  destruct (before x y); [reflexivity|].
  rewrite IH. apply perm_swap.
Qed.

Lemma order_by_perm (l : list A) : Permutation (order_by before l) l.
Proof.
  unfold order_by. induction l as [|x l IH]; cbn [fold_right]; [reflexivity|].
  rewrite insert_row_perm. now constructor.
Qed.

Lemma insert_row_sorted (x : A) (l : list A) :
  Q x -> Forall Q l ->
  StronglySorted (fun a b => before a b = true) l ->
  StronglySorted (fun a b => before a b = true) (insert_row before x l).
Proof.
  intros Qx Ql S. induction S as [|y l S IH F]; cbn [insert_row].
  - constructor; constructor.
  - apply Forall_cons_iff in Ql. destruct Ql as [Qy Ql].
    destruct (before x y) eqn:B.
    + constructor; [constructor; assumption|].
      constructor; [exact B|].
      rewrite Forall_forall in *. intros z Iz.
      apply (before_trans x y z); auto.
    + constructor; [apply IH; exact Ql|].
      assert (Byx : before y x = true).
      { destruct (before_total x y Qx Qy) as [H|H]; [congruence | exact H]. }
      eapply Permutation_Forall.
      * symmetry. apply insert_row_perm.
      * constructor; assumption.
Qed.

Lemma order_by_sorted (l : list A) :
  Forall Q l -> StronglySorted (fun a b => before a b = true) (order_by before l).
Proof.
  unfold order_by. induction 1 as [|x l Qx Ql IH]; cbn [fold_right]; [constructor|].
  apply insert_row_sorted; [exact Qx | | exact IH].
  eapply Permutation_Forall; [symmetry; apply order_by_perm | exact Ql].
Qed.

End OrderBy.

Section SortedLists.

Context {A : Type}.
Variable R : A -> A -> Prop.

Lemma StronglySorted_app_inv (l1 l2 : list A) :
  StronglySorted R (l1 ++ l2) ->
  StronglySorted R l1 /\ StronglySorted R l2
  /\ forall a b, In a l1 -> In b l2 -> R a b.
Proof.
  induction l1 as [|x l1 IH]; cbn [app]; intros S.
  - split; [constructor|]. split; [exact S|]. intros a b [].
  - apply StronglySorted_inv in S. destruct S as [S F].
    destruct (IH S) as (S1 & S2 & C).
    rewrite Forall_app in F. destruct F as [F1 F2].
    split; [constructor; assumption|]. split; [exact S2|].
    intros a b [<-|Ia] Ib; [|auto].
    rewrite Forall_forall in F2. auto.
Qed.

End SortedLists.

Section RecentIncidents.

Import notification_agent.

Lemma timedelta_hours_ok (hours : Z) :
  (-999999999 <= hours / 24 <= 999999999)%Z ->
  timedelta_hours hours = Ok (hours * 3600 * 1000000)%Z.
Proof.
  intros [L U]. unfold timedelta_hours.
  apply Z.leb_le in L, U. now rewrite L, U.
Qed.

Lemma timedelta_hours_overflow (hours : Z) :
  (hours / 24 < -999999999 \/ 999999999 < hours / 24)%Z ->
  raises (timedelta_hours hours) = true.
Proof.
  intros H. unfold timedelta_hours.
  destruct (-999999999 <=? hours / 24)%Z eqn:L; [|reflexivity].
  destruct (hours / 24 <=? 999999999)%Z eqn:U; [|reflexivity].
  apply Z.leb_le in L, U. lia.
Qed.

Lemma datetime_sub_ok (t delta : Z) :
  (datetime_min <= t - delta <= datetime_max)%Z ->
  datetime_sub t delta = Ok (t - delta)%Z.
Proof.
  intros [L U]. unfold datetime_sub.
  apply Z.leb_le in L, U. now rewrite L, U.
Qed.

Lemma datetime_sub_overflow (t delta : Z) :
  (t - delta < datetime_min \/ datetime_max < t - delta)%Z ->
  raises (datetime_sub t delta) = true.
Proof.
  intros H. unfold datetime_sub.
  destruct (datetime_min <=? t - delta)%Z eqn:L; [|reflexivity].
  destruct (t - delta <=? datetime_max)%Z eqn:U; [|reflexivity].
  apply Z.leb_le in L, U. lia.
Qed.

Lemma get_recent_incidents_ok (db : Db) (now hours : Z) (min_relevance : float) :
  window_ok now hours ->
  get_recent_incidents db now true hours min_relevance
  = firstn 20 (order_by ranks_before (recent_rows db now hours min_relevance)).
Proof.
  intros [T D]. unfold get_recent_incidents, get_recent_incidents_try.
  rewrite (timedelta_hours_ok hours T). cbn [bind].
  rewrite (datetime_sub_ok _ _ D). reflexivity.
Qed.

(** Whatever happens, the result is a front part of the ordered rows. *)
Lemma get_recent_incidents_front (db : Db) (now : Z) (query_ok : bool) (hours : Z)
    (min_relevance : float) :
  exists n,
    get_recent_incidents db now query_ok hours min_relevance
    = firstn n (order_by ranks_before (recent_rows db now hours min_relevance)).
Proof.
  unfold get_recent_incidents, get_recent_incidents_try, timedelta_hours, datetime_sub.
  destruct (_ && _)%bool; cbn [bind]; [|exists 0%nat; reflexivity].
  destruct (_ && _)%bool; cbn [bind]; [|exists 0%nat; reflexivity].
  destruct query_ok; [exists 20%nat | exists 0%nat]; reflexivity.
Qed.

Lemma in_firstn {A} (n : nat) (l : list A) (x : A) : In x (firstn n l) -> In x l.
Proof.
  intros H. rewrite <- (firstn_skipn n l). apply in_or_app. now left.
Qed.

Lemma recent_rows_spec (db : Db) (now hours : Z) (min_relevance : float) (i : Incident) :
  In i (recent_rows db now hours min_relevance) <->
  In i (incidents db)
  /\ (now - hours * 3600 * 1000000 <= created_at i)%Z
  /\ ge (relevance_score i) min_relevance = true
  /\ is_verified i = true.
Proof.
  unfold recent_rows, recent_filter. rewrite filter_In, !andb_true_iff, Z.leb_le.
  tauto.
Qed.

Lemma recent_rows_numbers (db : Db) (now hours : Z) (min_relevance : float) :
  Forall (fun i => is_number (relevance_score i) = true)
    (recent_rows db now hours min_relevance).
Proof.
  apply Forall_forall. intros i I. apply recent_rows_spec in I.
  destruct I as (_ & _ & G & _). exact (ge_is_number _ _ G).
Qed.

Lemma recent_rows_sorted (db : Db) (now hours : Z) (min_relevance : float) :
  StronglySorted listed_before
    (order_by ranks_before (recent_rows db now hours min_relevance)).
Proof.
  apply (order_by_sorted ranks_before (fun i => is_number (relevance_score i) = true)).
  - intros x y. apply listed_before_total.
  - intros x y z. apply listed_before_trans.
  - apply recent_rows_numbers.
Qed.

(** X9: every row [get_recent_incidents] returns is a row of the incident
    table that is verified, has a relevance score of at least
    [min_relevance] and was created at most [hours] hours before now;
    there are at most 20 of them. When the query fails, or [hours] or the
    cutoff time is out of range, the result is the empty list. *)
Theorem recent_incidents_are_sound (db : Db) (now : Z) (query_ok : bool) (hours : Z)
    (min_relevance : float) :
  (forall i,
      In i (get_recent_incidents db now query_ok hours min_relevance) ->
      In i (incidents db)
      /\ is_verified i = true
      /\ ge (relevance_score i) min_relevance = true
      /\ (now - hours * 3600 * 1000000 <= created_at i)%Z)
  /\ (List.length (get_recent_incidents db now query_ok hours min_relevance) <= 20)%nat
  /\ (query_ok = false ->
      get_recent_incidents db now query_ok hours min_relevance = [])
  /\ ((hours / 24 < -999999999 \/ 999999999 < hours / 24)%Z ->
      get_recent_incidents db now query_ok hours min_relevance = [])
  /\ ((now - hours * 3600 * 1000000 < datetime_min
       \/ datetime_max < now - hours * 3600 * 1000000)%Z ->
      get_recent_incidents db now query_ok hours min_relevance = []).
Proof.
  split; [|split; [|split; [|split]]].
  - intros i I.
    destruct (get_recent_incidents_front db now query_ok hours min_relevance) as [n E].
    rewrite E in I. apply in_firstn in I.
    apply (Permutation_in _ (order_by_perm _ _)) in I.
    apply recent_rows_spec in I. tauto.
  - unfold get_recent_incidents, get_recent_incidents_try.
    destruct (timedelta_hours hours); cbn [bind]; [|cbn; lia].
    destruct (datetime_sub now a); cbn [bind]; [|cbn; lia].
    destruct query_ok; [apply firstn_le_length | cbn; lia].
  - intros ->. unfold get_recent_incidents, get_recent_incidents_try.
    destruct (timedelta_hours hours); cbn [bind]; [|reflexivity].
    destruct (datetime_sub now a); reflexivity.
  - intros H. apply timedelta_hours_overflow in H.
    unfold get_recent_incidents, get_recent_incidents_try.
    destruct (timedelta_hours hours); [discriminate H | reflexivity].
  - intros H. unfold get_recent_incidents, get_recent_incidents_try.
    unfold timedelta_hours. destruct (_ && _)%bool; cbn [bind]; [|reflexivity].
    apply datetime_sub_overflow in H.
    destruct (datetime_sub now (hours * 3600 * 1000000)); [discriminate H | reflexivity].
Qed.

Lemma listed_before_dashboard_order (a b : Incident) :
  is_number (relevance_score a) = true ->
  is_number (relevance_score b) = true ->
  listed_before a b -> dashboard_order a b.
Proof.
  intros Na Nb H. split; [now apply listed_before_relevance|].
  intros E. apply (ranks_before_iff a b Na Nb) in H.
  apply is_number_iff in Na, Nb.
  rewrite eqb_spec in E. unfold SFeqb in E.
  rewrite (SFcompare_key _ _ Na Nb) in E.
  pose proof (lex3_cases (float_key (Prim2SF (relevance_score a)))
                (float_key (Prim2SF (relevance_score b)))) as C.
  unfold rank_key in H.
  destruct (float_key (Prim2SF (relevance_score a))) as [[a1 a2] a3].
  destruct (float_key (Prim2SF (relevance_score b))) as [[b1 b2] b3].
  destruct C as [_ C].
  destruct (lex3 (a1, a2, a3) (b1, b2, b3)); try discriminate E.
  destruct (proj1 C eq_refl) as (E1 & E2 & E3).
  unfold lex4_le in H. lia.
Qed.

Lemma listed_before_sorted (l : list Incident) :
  StronglySorted listed_before l ->
  Forall (fun i => is_number (relevance_score i) = true) l ->
  StronglySorted dashboard_order l.
Proof.
  induction 1 as [|a l S IH F]; intros N; [constructor|].
  apply Forall_cons_iff in N. destruct N as [Na N].
  constructor; [apply IH; exact N|].
  rewrite Forall_forall in *. intros b Ib.
  apply listed_before_dashboard_order; auto.
Qed.

(** X10: [get_recent_incidents] lists the most relevant rows first, and
    among equally relevant rows the newest first: every row of the result
    is at least as relevant as each row after it, and not older when the
    two are equally relevant. *)
Theorem recent_incidents_are_ordered (db : Db) (now : Z) (query_ok : bool) (hours : Z)
    (min_relevance : float) :
  StronglySorted dashboard_order
    (get_recent_incidents db now query_ok hours min_relevance).
Proof.
  destruct (get_recent_incidents_front db now query_ok hours min_relevance) as [n E].
  rewrite E.
  pose proof (recent_rows_sorted db now hours min_relevance) as S.
  assert (N : Forall (fun i => is_number (relevance_score i) = true)
                (order_by ranks_before (recent_rows db now hours min_relevance))).
  { eapply Permutation_Forall; [symmetry; apply order_by_perm|].
    apply recent_rows_numbers. }
  rewrite <- (firstn_skipn n) in S, N.
  apply StronglySorted_app_inv in S. destruct S as (S & _ & _).
  apply Forall_app in N. destruct N as [N _].
  now apply listed_before_sorted.
Qed.

(** X11: when the query goes through, [get_recent_incidents] returns all
    the rows that pass its three conditions if there are at most 20 of
    them, and otherwise 20 of them such that every row left out comes
    after every row returned in the order of the dashboard. *)
Theorem recent_incidents_are_the_top (db : Db) (now hours : Z) (min_relevance : float) :
  window_ok now hours ->
  exists rest,
    Permutation (get_recent_incidents db now true hours min_relevance ++ rest)
      (recent_rows db now hours min_relevance)
    /\ (forall a b,
          In a (get_recent_incidents db now true hours min_relevance) ->
          In b rest -> dashboard_order a b)
    /\ (rest <> [] ->
        List.length (get_recent_incidents db now true hours min_relevance) = 20%nat)
    /\ ((List.length (recent_rows db now hours min_relevance) <= 20)%nat ->
        rest = []).
Proof.
  intros W. rewrite (get_recent_incidents_ok db now hours min_relevance W).
  set (sorted := order_by ranks_before (recent_rows db now hours min_relevance)).
  exists (skipn 20 sorted).
  assert (P : Permutation sorted (recent_rows db now hours min_relevance))
    by apply order_by_perm.
  split; [rewrite firstn_skipn; exact P|].
  pose proof (recent_rows_sorted db now hours min_relevance) as S.
  fold sorted in S.
  assert (N : Forall (fun i => is_number (relevance_score i) = true) sorted).
  { eapply Permutation_Forall; [symmetry; exact P | apply recent_rows_numbers]. }
  split; [|split].
  - intros a b Ia Ib.
    rewrite <- (firstn_skipn 20 sorted) in S.
    apply StronglySorted_app_inv in S. destruct S as (_ & _ & C).
    rewrite Forall_forall in N.
    apply listed_before_dashboard_order; auto.
    + apply N. now apply in_firstn in Ia.
    + apply N. rewrite <- (firstn_skipn 20 sorted). apply in_or_app. now right.
  - intros R. rewrite length_firstn.
    destruct (Nat.le_gt_cases (List.length sorted) 20) as [L|L]; [|lia].
    exfalso. apply R. now apply skipn_all2.
  - intros L. apply skipn_all2. now rewrite (Permutation_length P).
Qed.

Lemma recent_incidents_are_the_top_witness :
  map id (get_recent_incidents sample.db_dash (sample.hours 3) true 24 0.3)
  = [2%Z; 3%Z; 1%Z]
  /\ exists rest,
       Permutation
         (get_recent_incidents sample.db_dash (sample.hours 3) true 24 0.3 ++ rest)
         (recent_rows sample.db_dash (sample.hours 3) 24 0.3).
Proof.
  split; [reflexivity|].
  assert (W : window_ok (sample.hours 3) 24).
  { unfold window_ok. vm_compute. repeat split; discriminate. }
  destruct (recent_incidents_are_the_top sample.db_dash (sample.hours 3) 24 0.3 W)
    as (rest & P & _).
  exists rest. exact P.
Defined.

(** X12: what the notification agent stores is what the dashboard asks
    for: after a run of [process_incidents] on a table whose rows all
    passed the gate, every row created during the last 24 hours is
    returned by [get_recent_incidents] with its default arguments (24
    hours, relevance 0.3), as long as no more than 20 rows qualify. *)
Theorem stored_rows_reach_the_dashboard (env : nat -> World) (db : Db)
    (l : list incident_data) (now : Z) :
  window_ok now 24 ->
  Forall stored_well (incidents db) ->
  (List.length (recent_rows (fst (fst (process_incidents env db l))) now 24 0.3)
   <= 20)%nat ->
  forall i,
    In i (incidents (fst (fst (process_incidents env db l)))) ->
    (now - hours24 <= created_at i)%Z ->
    In i (get_recent_incidents (fst (fst (process_incidents env db l))) now true 24 0.3).
Proof.
  intros W G L i I C.
  assert (G' : Forall stored_well (incidents (fst (fst (process_incidents env db l))))).
  { unfold process_incidents. rewrite process_loop_results. cbn [fst].
    now apply loop_stored_well. }
  set (db' := fst (fst (process_incidents env db l))) in *.
  rewrite (get_recent_incidents_ok db' now 24 0.3 W).
  rewrite firstn_all2.
  - apply (Permutation_in _ (Permutation_sym (order_by_perm _ _))).
    apply recent_rows_spec. rewrite Forall_forall in G'.
    destruct (G' i I) as [V R]. repeat split; auto.
  - now rewrite (Permutation_length (order_by_perm _ _)).
Qed.

Lemma stored_rows_reach_the_dashboard_witness :
  In (new_incident 1 0 sample.storm (sample.verdict 0.8 "high" true))
    (get_recent_incidents (fst (fst (sample.run (sample.verdict 0.8 "high" true))))
       (sample.hours 1) true 24 0.3).
Proof.
  apply (stored_rows_reach_the_dashboard
           (fun _ => sample.world (sample.verdict 0.8 "high" true) "true" 0)
           sample.db0 [sample.storm] (sample.hours 1)).
  - unfold window_ok. vm_compute. repeat split; discriminate.
  - constructor.
  - vm_compute. lia.
  - left. reflexivity.
  - vm_compute. discriminate.
Defined.

End RecentIncidents.

(* ================================================================== *)
(** * fetch_weather_data *)
(* ================================================================== *)

Section FetchWeather.

Import data_agent.

Variable dumps_weather : weather_body -> string.
Variable dumps_alert : alert -> string.
Variable default_location : string.
Variable weather_api : string -> weather_reply.
Variable alerts_api : string -> string -> alerts_reply.

Local Abbreviation fetch :=
  (fetch_weather_data dumps_weather dumps_alert default_location weather_api alerts_api).
Local Abbreviation conditions :=
  (weather_spec.condition_incidents dumps_weather default_location).
Local Abbreviation loop := (conditions_loop dumps_weather default_location).
Local Abbreviation shaped := (weather_spec.weather_shaped default_location).

Lemma conditions_loop_clean (body : weather_body) (entries : list weather_entry) :
  Forall (fun weather => we_main weather <> IsNone) entries ->
  forall incidents,
    loop body entries incidents = ((incidents ++ conditions body entries)%list, None).
Proof.
  unfold weather_spec.condition_incidents.
  induction 1 as [|weather rest N _ IH]; intros incidents; cbn [conditions_loop filter map].
  - now rewrite app_nil_r.
  - unfold weather_spec.severe at 1.
    destruct (we_main weather) eqn:M; [|contradiction|];
      cbn [render]; destruct (is_severe _); rewrite IH; cbn [map];
      rewrite <- ?app_assoc; reflexivity.
Qed.

Lemma conditions_loop_none (body : weather_body)
    (before after : list weather_entry) (weather : weather_entry) :
  Forall (fun weather => we_main weather <> IsNone) before ->
  we_main weather = IsNone ->
  forall incidents,
    loop body (before ++ weather :: after) incidents
    = ((incidents ++ conditions body before)%list, Some "AttributeError").
Proof.
  unfold weather_spec.condition_incidents.
  intros B M.
  induction B as [|w rest N _ IH]; intros incidents; cbn [app conditions_loop filter map].
  - rewrite M. now rewrite app_nil_r.
  - unfold weather_spec.severe at 1.
    destruct (we_main w) eqn:Mw; [|contradiction|];
      cbn [render]; destruct (is_severe _); rewrite IH; cbn [map];
      rewrite <- ?app_assoc; reflexivity.
Qed.

Lemma alerts_part_received (body : weather_body) (incidents : list incident_data) :
  alerts_part dumps_alert default_location alerts_api body incidents
  = (incidents
     ++ map (alert_incident dumps_alert default_location)
          (weather_spec.alerts_received alerts_api body))%list.
Proof.
  unfold alerts_part, weather_spec.alerts_received.
  destruct (wb_coord body) as [| |lat lon]; cbn [map]; try now rewrite app_nil_r.
  destruct (alerts_api lat lon) as [e|status_code [[alerts|]|e]];
    cbn [map]; try now rewrite app_nil_r.
  - destruct (Z.eqb_spec status_code 200) as [->|N]; [reflexivity|].
    destruct status_code as [|p|p]; cbn [map]; try now rewrite app_nil_r.
    repeat (destruct p as [p|p|]; cbn [map]; try now rewrite app_nil_r).
    contradiction.
  - destruct (status_code =? 200)%Z; cbn [map];
      destruct status_code as [|p|p]; cbn [map]; try now rewrite app_nil_r.
    all: repeat (destruct p as [p|p|]; cbn [map]; try now rewrite app_nil_r).
  - destruct (status_code =? 200)%Z; cbn [map];
      destruct status_code as [|p|p]; cbn [map]; try now rewrite app_nil_r.
    all: repeat (destruct p as [p|p|]; cbn [map]; try now rewrite app_nil_r).
Qed.

Lemma condition_incident_shaped (body : weather_body) (weather : weather_entry) :
  shaped (condition_incident dumps_weather default_location body weather).
Proof.
  unfold weather_spec.weather_shaped, condition_incident. cbn.
  repeat split; try discriminate. apply (prefix_app "Weather Alert: ").
Qed.

Lemma alert_incident_shaped (a : alert) :
  shaped (alert_incident dumps_alert default_location a).
Proof.
  unfold weather_spec.weather_shaped, alert_incident. cbn.
  repeat split; try discriminate. apply (prefix_app "Weather Alert: ").
Qed.

Lemma conditions_loop_all (P : incident_data -> Prop) (body : weather_body)
    (entries : list weather_entry) :
  (forall weather, P (condition_incident dumps_weather default_location body weather)) ->
  forall incidents,
    Forall P incidents -> Forall P (fst (loop body entries incidents)).
Proof.
  intros C.
  induction entries as [|weather rest IH]; intros incidents H; cbn [conditions_loop].
  - exact H.
  - destruct (we_main weather); try exact H;
      destruct (is_severe _); apply IH; try exact H;
      apply Forall_app; (split; [exact H|]);
      constructor; [apply C | constructor | apply C | constructor].
Qed.

(** What holds of every incident of the two kinds holds of every incident
    returned. *)
Lemma fetch_weather_data_all (P : incident_data -> Prop) :
  (forall body weather,
      P (condition_incident dumps_weather default_location body weather)) ->
  (forall a, P (alert_incident dumps_alert default_location a)) ->
  Forall P fetch.
Proof.
  intros C A. unfold fetch_weather_data.
  destruct (weather_api default_location) as [e|body]; [constructor|].
  assert (L : forall entries, Forall P (fst (loop body entries []))).
  { intros entries. apply conditions_loop_all; [apply C | constructor]. }
  assert (R : forall alerts,
             Forall P (map (alert_incident dumps_alert default_location) alerts)).
  { intros alerts. apply Forall_forall. intros d I. apply in_map_iff in I.
    destruct I as (a & <- & _). apply A. }
  destruct (wb_weather body) as [entries|].
  - specialize (L entries).
    destruct (loop body entries []) as [incidents [e|]]; cbn [fst] in L; [exact L|].
    rewrite alerts_part_received. apply Forall_app. split; [exact L | apply R].
  - rewrite alerts_part_received. cbn [app]. apply R.
Qed.

(** X13: whatever the weather provider answers, every incident
    [fetch_weather_data] returns has source and category "weather", the
    configured location, a title that starts with "Weather Alert: ", a
    URL and the raw payload. *)
Theorem weather_incidents_are_shaped :
  Forall (weather_spec.weather_shaped default_location)
    (fetch_weather_data dumps_weather dumps_alert default_location
       weather_api alerts_api).
Proof.
  apply fetch_weather_data_all.
  - intros body weather. apply condition_incident_shaped.
  - intros a. apply alert_incident_shaped.
Qed.

(** X14: when the first request succeeds and no [weather] entry has a
    [None] for its [main], [fetch_weather_data] returns one incident for
    each entry whose [main] contains, in any case of letters, one of
    thunderstorm, snow, rain, drizzle, mist, fog, in order, followed by
    one incident for every alert the second request delivers. When the
    second request raises, does not return status 200, cannot be decoded
    or has no [alerts], or when the body has no usable coordinates, the
    incidents of the entries are returned all the same. *)
Theorem weather_incidents_and_alerts (body : weather_body) :
  weather_api default_location = WeatherJson body ->
  Forall (fun weather => we_main weather <> IsNone) (weather_spec.entries_of body) ->
  fetch
  = (conditions body (weather_spec.entries_of body)
     ++ map (alert_incident dumps_alert default_location)
          (weather_spec.alerts_received alerts_api body))%list
  /\ List.length fetch
     = (List.length (filter weather_spec.severe (weather_spec.entries_of body))
        + List.length (weather_spec.alerts_received alerts_api body))%nat.
Proof.
  intros W N.
  assert (E : fetch
              = (conditions body (weather_spec.entries_of body)
                 ++ map (alert_incident dumps_alert default_location)
                      (weather_spec.alerts_received alerts_api body))%list).
  { unfold fetch_weather_data. rewrite W.
    unfold weather_spec.entries_of in *.
    destruct (wb_weather body) as [entries|].
    - rewrite (conditions_loop_clean body entries N). cbn [app].
      apply alerts_part_received.
    - apply alerts_part_received. }
  split; [exact E|].
  rewrite E, length_app. unfold weather_spec.condition_incidents.
  now rewrite !length_map.
Qed.

End FetchWeather.

Lemma weather_incidents_and_alerts_witness :
  map d_title
    (data_agent.fetch_weather_data (fun _ => "{}") (fun _ => "{}") "New York"
       sample.weather_provider sample.alerts_provider)
  = ["Weather Alert: Rain"; "Weather Alert: Mist"; "Weather Alert: Flood Warning"]
  /\ map d_title
       (data_agent.fetch_weather_data (fun _ => "{}") (fun _ => "{}") "New York"
          sample.weather_provider sample.failing_alerts)
     = ["Weather Alert: Rain"; "Weather Alert: Mist"].
Proof.
  assert (N : Forall (fun weather => data_agent.we_main weather <> IsNone)
                (weather_spec.entries_of sample.rainy_body)).
  { repeat constructor; discriminate. }
  split.
  - rewrite (proj1 (weather_incidents_and_alerts (fun _ => "{}") (fun _ => "{}")
                      "New York" sample.weather_provider sample.alerts_provider
                      sample.rainy_body eq_refl N)).
    reflexivity.
  - rewrite (proj1 (weather_incidents_and_alerts (fun _ => "{}") (fun _ => "{}")
                      "New York" sample.weather_provider sample.failing_alerts
                      sample.rainy_body eq_refl N)).
    reflexivity.
Defined.

Section FetchWeatherFailures.

Import data_agent.

Variable dumps_weather : weather_body -> string.
Variable dumps_alert : alert -> string.
Variable default_location : string.
Variable weather_api : string -> weather_reply.
Variable alerts_api : string -> string -> alerts_reply.

(** X15: when the first weather request fails, [fetch_weather_data]
    returns the empty list. When a [weather] entry has [None] for its
    [main], the scan stops there: the incidents of the entries before it
    are returned, and the alerts are not asked for. *)
Theorem weather_scan_failures :
  (forall e,
      weather_api default_location = WeatherFailed e ->
      fetch_weather_data dumps_weather dumps_alert default_location weather_api alerts_api
      = [])
  /\ (forall body before weather after,
        weather_api default_location = WeatherJson body ->
        wb_weather body = Some (before ++ weather :: after)%list ->
        Forall (fun weather => we_main weather <> IsNone) before ->
        we_main weather = IsNone ->
        fetch_weather_data dumps_weather dumps_alert default_location weather_api alerts_api
        = weather_spec.condition_incidents dumps_weather default_location body before).
Proof.
  split.
  - intros e W. unfold fetch_weather_data. now rewrite W.
  - intros body before weather after W B N M.
    unfold fetch_weather_data. rewrite W, B.
    now rewrite (conditions_loop_none dumps_weather default_location body
                   before after weather N M).
Qed.

End FetchWeatherFailures.

(** Rain, then an entry without a usable [main], then mist: only the rain
    is reported, and the alert that the provider holds is not fetched. *)
Example weather_scan_stops :
  map d_title
    (data_agent.fetch_weather_data (fun _ => "{}") (fun _ => "{}") "New York"
       (fun _ => data_agent.WeatherJson
                   (data_agent.mkWeatherBody
                      (Some [data_agent.mkWeatherEntry (Text "Rain") (Text "light rain");
                             data_agent.mkWeatherEntry IsNone (Text "unknown");
                             data_agent.mkWeatherEntry (Text "Mist") Missing])
                      "7.5" "5128581" (data_agent.Coord "40.71" "-74.01")))
       sample.alerts_provider)
  = ["Weather Alert: Rain"].
Proof. reflexivity. Qed.

(* ================================================================== *)
(** * fetch_all_data *)
(* ================================================================== *)

Section FetchCycle.

Import notification_agent.

Lemma update_first_Forall_keep {A} (P : A -> Prop) (p : A -> bool) (f : A -> A)
    (rows : list A) :
  (forall r, P r -> P (f r)) -> Forall P rows -> Forall P (update_first p f rows).
Proof.
  intros F. induction 1 as [|r rows H HF IH]; cbn [update_first]; [constructor|].
  destruct (p r); constructor; auto.
Qed.

Lemma save_analyzed_incident_rows (P : Incident -> Prop) (db : Db) (w : World)
    (d : incident_data) (a : gemini.IncidentAnalysis) :
  (forall now e, P e -> P (update_existing now a e)) ->
  (forall new_id now, P (new_incident new_id now d a)) ->
  Forall P (incidents db) ->
  Forall P (incidents (fst (save_analyzed_incident db w d a))).
Proof.
  intros U N H.
  unfold save_analyzed_incident, save_analyzed_incident_try, commit.
  destruct (first _ (incidents db)) as [e|]; destruct (incident_commit_ok w);
    destruct (rollback_ok w); cbn; auto.
  - apply update_first_Forall_keep; auto.
  - apply update_first_Forall_keep; auto.
  - apply Forall_app. split; [exact H|]. constructor; [apply N | constructor].
  - apply Forall_app. split; [exact H|]. constructor; [apply N | constructor].
Qed.

Lemma process_incident_rows (P : Incident -> Prop) (db : Db) (w : World)
    (d : incident_data) :
  (forall now a e, P e -> P (update_existing now a e)) ->
  (forall new_id now a, P (new_incident new_id now d a)) ->
  Forall P (incidents db) ->
  Forall P (incidents (fst (process_incident db w d))).
Proof.
  intros U N H.
  destruct (primary_analysis_returns w d) as [primary Hp].
  destruct (credibility_check_returns w d) as [c Hc].
  rewrite (process_incident_unfold db w d primary c Hp Hc).
  unfold process_analysed.
  destruct (meets_minimum_criteria _); [|exact H].
  pose proof (save_analyzed_incident_rows P db w d (override primary c)
                (fun now e => U now _ e) (fun i now => N i now _) H) as K.
  destruct (save_analyzed_incident db w d (override primary c)) as [db1 [[i|]|e]];
    cbn [fst] in *; try exact K.
  destruct (high_priority _); cbn [fst]; [|exact K].
  pose proof (send_notifications_extends db1 w i) as [_ X].
  destruct (send_notifications db1 w i) as [db2 dispatch]. cbn [fst] in X.
  destruct (raised dispatch); cbn [fst]; rewrite X; exact K.
Qed.

Lemma loop_rows (P : Incident -> Prop) (D : incident_data -> Prop)
    (env : nat -> World) (l : list incident_data) :
  (forall now a e, P e -> P (update_existing now a e)) ->
  (forall new_id now a d, D d -> P (new_incident new_id now d a)) ->
  Forall D l ->
  forall n db, Forall P (incidents db) -> Forall P (incidents (loop_db env n db l)).
Proof.
  intros U N. induction 1 as [|d rest Hd _ IH]; intros n db H; cbn [loop_db].
  - exact H.
  - apply IH. apply process_incident_rows; auto.
Qed.

Lemma process_incidents_db (env : nat -> World) (db : Db) (l : list incident_data) :
  fst (fst (process_incidents env db l)) = loop_db env 0 db l.
Proof. unfold process_incidents. now rewrite process_loop_results. Qed.

Lemma news_incidents_source (json_dumps : data_agent.article -> string)
    (default_location : string) (news_api : string -> nat -> data_agent.http_reply) :
  Forall (fun d => d_source d = "news")
    (data_agent.fetch_news_data json_dumps default_location news_api).
Proof.
  unfold data_agent.fetch_news_data. rewrite keyword_loop_received. cbn [app].
  apply Forall_forall. intros d I.
  apply in_flat_map in I. destruct I as (articles & _ & I).
  apply in_flat_map in I. destruct I as (a & _ & I).
  apply extract_spec in I.
  destruct I as (t & de & _ & _ & _ & _ & _ & ->). reflexivity.
Qed.

Variable dumps_weather : data_agent.weather_body -> string.
Variable dumps_alert : data_agent.alert -> string.
Variable default_location : string.
Variable weather_api : string -> data_agent.weather_reply.
Variable alerts_api : string -> string -> data_agent.alerts_reply.
Variable json_dumps : data_agent.article -> string.
Variable news_api : string -> nat -> data_agent.http_reply.

Local Abbreviation cycle :=
  (data_agent.fetch_all_data dumps_weather dumps_alert default_location
     weather_api alerts_api json_dumps news_api).

Lemma fetched_sources :
  Forall (fun d => d_source d = "weather" \/ d_source d = "news")
    (data_agent.fetch_weather_data dumps_weather dumps_alert default_location
       weather_api alerts_api
     ++ data_agent.fetch_news_data json_dumps default_location news_api).
Proof.
  apply Forall_app. split.
  - apply fetch_weather_data_all; intros; now left.
  - eapply Forall_impl; [|apply news_incidents_source].
    intros d S. now right.
Qed.

Lemma cycle_cases (agent_ready : bool) (env : nat -> World) (db : Db) :
  fst (cycle agent_ready env db) = db
  \/ fst (cycle agent_ready env db)
     = loop_db env 0 db
         (data_agent.fetch_weather_data dumps_weather dumps_alert default_location
            weather_api alerts_api
          ++ data_agent.fetch_news_data json_dumps default_location news_api).
Proof.
  unfold data_agent.fetch_all_data.
  destruct (_ ++ _)%list as [|d l] eqn:E; [now left|].
  destruct agent_ready; [right | now left].
  cbn [fst]. apply process_incidents_db.
Qed.

(** X16: a fetch cycle keeps the incident table in shape. When all rows
    came from a provider (source "weather" or "news") this is so after
    the cycle too, and likewise when all rows passed the store gate; the
    users and subscriptions are not touched and no incident row is lost.
    When both providers fail at the first request, or the notification
    agent cannot be had, nothing is processed and the tables stay as they
    were. *)
Theorem fetch_cycle_keeps_the_table (agent_ready : bool) (env : nat -> World) (db : Db) :
  (Forall from_a_provider (incidents db) ->
   Forall from_a_provider (incidents (fst (cycle agent_ready env db))))
  /\ (Forall stored_well (incidents db) ->
      Forall stored_well (incidents (fst (cycle agent_ready env db))))
  /\ users (fst (cycle agent_ready env db)) = users db
  /\ subscriptions (fst (cycle agent_ready env db)) = subscriptions db
  /\ (List.length (incidents db)
      <= List.length (incidents (fst (cycle agent_ready env db))))%nat
  /\ (agent_ready = false -> cycle agent_ready env db = (db, []))
  /\ (forall e e',
        weather_api default_location = data_agent.WeatherFailed e ->
        news_api (data_agent.query_of default_location "accident") data_agent.page_size
        = data_agent.RequestFailed e' ->
        cycle agent_ready env db = (db, [])).
Proof.
  split; [|split; [|split; [|split; [|split; [|split]]]]].
  - intros H. destruct (cycle_cases agent_ready env db) as [->| ->]; [exact H|].
    apply (loop_rows from_a_provider
             (fun d => d_source d = "weather" \/ d_source d = "news")); auto.
    apply fetched_sources.
  - intros H. destruct (cycle_cases agent_ready env db) as [->| ->]; [exact H|].
    now apply loop_stored_well.
  - destruct (cycle_cases agent_ready env db) as [->| ->]; [reflexivity|].
    apply loop_db_extends.
  - destruct (cycle_cases agent_ready env db) as [->| ->]; [reflexivity|].
    apply loop_db_extends.
  - destruct (cycle_cases agent_ready env db) as [->| ->]; [lia|].
    apply loop_db_extends.
  - intros ->. unfold data_agent.fetch_all_data.
    destruct (_ ++ _)%list; reflexivity.
  - intros e e' W N. unfold data_agent.fetch_all_data, data_agent.fetch_weather_data,
      data_agent.fetch_news_data.
    rewrite W. cbn [firstn data_agent.keywords data_agent.keyword_loop].
    rewrite N. reflexivity.
Qed.

End FetchCycle.

(* ================================================================== *)
(** * The views of routes.py *)
(* ================================================================== *)

Section Views.

Import routes.

Lemma count_two_kinds {A} (p q r : A -> bool) (rows : list A) :
  (forall x, p x = true -> q x = false) ->
  (forall x, p x = true -> r x = true) ->
  (forall x, q x = true -> r x = true) ->
  (count p rows + count q rows <= count r rows)%nat.
Proof.
  intros D Pr Qr. unfold count.
  induction rows as [|x rows IH]; cbn [filter]; [cbn; lia|].
  destruct (p x) eqn:Hp.
  - rewrite (D x Hp), (Pr x Hp). cbn [List.length]. lia.
  - destruct (q x) eqn:Hq.
    + rewrite (Qr x Hq). cbn [List.length]. lia.
    + destruct (r x); cbn [List.length]; lia.
Qed.

Lemma count_two_kinds_all {A} (p q r : A -> bool) (rows : list A) :
  (forall x, p x = true -> q x = false) ->
  (forall x, p x = true -> r x = true) ->
  (forall x, q x = true -> r x = true) ->
  Forall (fun x => r x = true -> p x = true \/ q x = true) rows ->
  (count p rows + count q rows = count r rows)%nat.
Proof.
  intros D Pr Qr. unfold count.
  induction 1 as [|x rows C _ IH]; cbn [filter]; [reflexivity|].
  destruct (p x) eqn:Hp.
  - rewrite (D x Hp), (Pr x Hp). cbn [List.length]. lia.
  - destruct (q x) eqn:Hq.
    + rewrite (Qr x Hq). cbn [List.length]. lia.
    + destruct (r x); cbn [List.length]; [|lia].
      destruct (C eq_refl); congruence.
Qed.

(** X17: the numbers of [get_stats] fit together. The critical and the
    high incidents of the last 24 hours are together no more than the
    total, and so are those from the weather and from the news; when
    every row of the table came from a provider, weather and news add up
    to the total. The subscriber count is the number of users with
    [email_notifications] set. A failing query gives status 500. *)
Theorem stats_add_up (db : Db) (now now' : Z) (query_ok : bool) (stats : Stats) :
  get_stats db now now' query_ok = Success stats ->
  (critical_incidents_24h stats + high_incidents_24h stats
   <= total_incidents_24h stats)%nat
  /\ (weather_incidents_24h stats + news_incidents_24h stats
      <= total_incidents_24h stats)%nat
  /\ (Forall from_a_provider (incidents db) ->
      (weather_incidents_24h stats + news_incidents_24h stats
       = total_incidents_24h stats)%nat)
  /\ active_subscribers stats
     = List.length (filter email_notifications (users db))
  /\ get_stats db now now' false = Failure 500 "Failed to fetch statistics".
Proof.
  unfold get_stats. destruct query_ok; [|discriminate].
  intros E. injection E as <-. cbn [critical_incidents_24h high_incidents_24h
    total_incidents_24h weather_incidents_24h news_incidents_24h active_subscribers].
  assert (X : forall (s : string) a b, String.eqb s a = true -> a <> b ->
                                        String.eqb s b = false).
  { intros s a b Ea N. apply String.eqb_eq in Ea. subst s.
    now apply String.eqb_neq. }
  split; [|split; [|split; [|split; reflexivity]]].
  - apply count_two_kinds; intros i H;
      repeat (apply andb_true_iff in H; destruct H as [H ?]).
    + rewrite (X _ "critical" "high"); [| assumption | discriminate].
      now rewrite andb_false_r.
    + now rewrite H.
    + now rewrite H.
  - apply count_two_kinds; intros i H;
      repeat (apply andb_true_iff in H; destruct H as [H ?]).
    + rewrite (X _ "weather" "news"); [| assumption | discriminate].
      now rewrite andb_false_r.
    + now rewrite H.
    + now rewrite H.
  - intros P. apply count_two_kinds_all.
    + intros i H. repeat (apply andb_true_iff in H; destruct H as [H ?]).
      rewrite (X _ "weather" "news"); [| assumption | discriminate].
      now rewrite andb_false_r.
    + intros i H. repeat (apply andb_true_iff in H; destruct H as [H ?]).
      now rewrite H.
    + intros i H. repeat (apply andb_true_iff in H; destruct H as [H ?]).
      now rewrite H.
    + eapply Forall_impl; [|exact P]. intros i [S|S] H;
        apply andb_true_iff in H; destruct H as [H V]; rewrite H, V, S;
        [left | right]; reflexivity.
Qed.

Lemma stats_add_up_witness :
  exists stats,
    get_stats (fst (fst (sample.run (sample.verdict 0.8 "high" true))))
      (sample.hours 1) (sample.hours 1) true = Success stats
    /\ total_incidents_24h stats = 1%nat
    /\ (weather_incidents_24h stats + news_incidents_24h stats
        = total_incidents_24h stats)%nat.
Proof.
  eexists. split; [reflexivity|]. split; [reflexivity|].
  refine (proj1 (proj2 (proj2 (stats_add_up
                                 (fst (fst (sample.run (sample.verdict 0.8 "high" true))))
                                 (sample.hours 1) (sample.hours 1) true _ eq_refl))) _).
  repeat constructor.
Defined.

Lemma newer_first_sorted (rows : list Incident) :
  StronglySorted (fun a b => (created_at b <= created_at a)%Z)
    (order_by newer_first rows).
Proof.
  assert (S : StronglySorted (fun a b => newer_first a b = true)
                (order_by newer_first rows)).
  { apply (order_by_sorted newer_first (fun _ => True)).
    - intros x y _ _. unfold newer_first. rewrite !Z.leb_le. lia.
    - intros x y z _ _ _. unfold newer_first. rewrite !Z.leb_le. lia.
    - apply Forall_forall. auto. }
  induction S as [|a l S IH F]; constructor; [exact IH|].
  eapply Forall_impl; [|exact F]. intros b H. now apply Z.leb_le in H.
Qed.

(** X18: [get_incidents_by_severity] answers 400 for a level that is not
    low, medium, high or critical, whatever the table holds. For a valid
    level it answers with rows of the table that have this severity and
    are verified, at most 10, the newest first; all of them when there
    are at most 10. *)
Theorem incidents_by_severity (db : Db) (query_ok : bool) (sev : string) :
  (~ In sev ["low"; "medium"; "high"; "critical"] ->
   get_incidents_by_severity db query_ok sev = Failure 400 "Invalid severity level")
  /\ (In sev ["low"; "medium"; "high"; "critical"] ->
      query_ok = true ->
      exists rows,
        get_incidents_by_severity db query_ok sev = Success rows
        /\ (forall i, In i rows ->
                      In i (incidents db) /\ severity i = sev /\ is_verified i = true)
        /\ (List.length rows <= 10)%nat
        /\ StronglySorted (fun a b => (created_at b <= created_at a)%Z) rows
        /\ ((count (fun i => String.eqb (severity i) sev && is_verified i)
               (incidents db) <= 10)%nat ->
            Permutation rows
              (filter (fun i => String.eqb (severity i) sev && is_verified i)
                 (incidents db)))).
Proof.
  assert (V : in_list sev valid_severities = true
              <-> In sev ["low"; "medium"; "high"; "critical"]).
  { unfold in_list, valid_severities. rewrite existsb_exists. split.
    - intros (x & I & E). apply String.eqb_eq in E. now subst.
    - intros I. exists sev. split; [exact I | apply String.eqb_refl]. }
  split.
  - intros N. unfold get_incidents_by_severity.
    destruct (in_list sev valid_severities); [|reflexivity].
    exfalso. apply N. now apply V.
  - intros I ->. apply V in I. unfold get_incidents_by_severity. rewrite I. cbn [negb].
    set (matching := filter (fun i => String.eqb (severity i) sev && is_verified i)
                       (incidents db)).
    eexists. split; [reflexivity|].
    pose proof (newer_first_sorted matching) as S.
    split; [|split; [apply firstn_le_length|split]].
    + intros i Ii. apply in_firstn in Ii.
      apply (Permutation_in _ (order_by_perm _ _)) in Ii.
      apply filter_In in Ii. destruct Ii as [Ii H].
      apply andb_true_iff in H. destruct H as [H Ve].
      apply String.eqb_eq in H. auto.
    + rewrite <- (firstn_skipn 10) in S.
      now apply StronglySorted_app_inv in S.
    + intros L. rewrite firstn_all2; [apply order_by_perm|].
      now rewrite (Permutation_length (order_by_perm _ _)).
Qed.

Lemma lstrip_all_space (s : string) : all_space s = true -> lstrip s = "".
Proof.
  induction s as [|c s IH]; cbn; [reflexivity|].
  intros H. apply andb_true_iff in H. destruct H as [C H]. now rewrite C, IH.
Qed.

Lemma strip_all_space (s : string) : all_space s = true -> strip s = "".
Proof. intros H. unfold strip. now rewrite (lstrip_all_space s H). Qed.

Lemma commit_user_users (commit_ok : bool) (db db' : Db) (user : User) :
  commit_user commit_ok db user = Ok db' ->
  users db' = (users db ++ [user])%list
  /\ incidents db' = incidents db
  /\ subscriptions db' = subscriptions db
  /\ notification_logs db' = notification_logs db
  /\ ~ In (email user) (map email (users db))
  /\ ~ In (username user) (map username (users db)).
Proof.
  unfold commit_user.
  destruct commit_ok; cbn [andb]; [|discriminate].
  destruct (existsb (fun u => String.eqb (username u) (username user)) (users db))
    eqn:U; cbn [negb andb]; [discriminate|].
  destruct (existsb (fun u => String.eqb (email u) (email user)) (users db))
    eqn:E; cbn [negb]; [discriminate|].
  intros H. injection H as <-. cbn. repeat split.
  - intros I. apply in_map_iff in I. destruct I as (u & Eu & I).
    assert (existsb (fun u => String.eqb (email u) (email user)) (users db) = true)
      as X; [|congruence].
    apply existsb_exists. exists u. split; [exact I|]. now apply String.eqb_eq.
  - intros I. apply in_map_iff in I. destruct I as (u & Eu & I).
    assert (existsb (fun u => String.eqb (username u) (username user)) (users db) = true)
      as X; [|congruence].
    apply existsb_exists. exists u. split; [exact I|]. now apply String.eqb_eq.
Qed.

(** What [subscribe] does to the tables: nothing, or one user more. *)
Lemma subscribe_cases (db : Db) (now : Z) (query_ok commit_ok : bool) (form : Form) :
  fst (subscribe db now query_ok commit_ok form) = db
  \/ (snd (subscribe db now query_ok commit_ok form)
      = ToIndex "Successfully subscribed to CityGuard AI notifications!"
      /\ strip (form_email form) <> ""
      /\ strip (form_location form) <> ""
      /\ strip (form_username form) <> ""
      /\ commit_user commit_ok db
           (mkUser (next_id (map user_id (users db))) (strip (form_username form))
              (strip (form_email form)) (strip (form_location form)) true now)
         = Ok (fst (subscribe db now query_ok commit_ok form))).
Proof.
  unfold subscribe, subscribe_try.
  destruct (truthy (Some (strip (form_email form)))) eqn:Te; cbn [negb orb];
    [|now left].
  destruct (truthy (Some (strip (form_location form)))) eqn:Tl; cbn [negb orb];
    [|now left].
  destruct (truthy (Some (strip (form_username form)))) eqn:Tu; cbn [negb orb];
    [|now left].
  apply truthy_some in Te, Tl, Tu.
  destruct query_ok; cbn [bind]; [|now left].
  destruct (first _ (users db)); [now left|].
  destruct (commit_user commit_ok db _) as [db'|e] eqn:C; cbn [bind fst snd];
    [right; auto | now left].
Qed.

(** X19: [subscribe] either leaves the tables as they are or adds exactly
    one user, with the white space around the fields removed and
    notifications switched on; it never touches another table. It is
    refused when one of the three fields is empty or white space only.
    Email addresses and user names that were unique stay unique. *)
Theorem subscribe_keeps_users_unique (db : Db) (now : Z) (query_ok commit_ok : bool)
    (form : Form) :
  (all_space (form_email form) = true \/ all_space (form_location form) = true
   \/ all_space (form_username form) = true ->
   subscribe db now query_ok commit_ok form
   = (db, ToSubscribe "Please fill in all required fields."))
  /\ (fst (subscribe db now query_ok commit_ok form) = db
      \/ users (fst (subscribe db now query_ok commit_ok form))
         = (users db
            ++ [mkUser (next_id (map user_id (users db))) (strip (form_username form))
                  (strip (form_email form)) (strip (form_location form)) true now])%list)
  /\ incidents (fst (subscribe db now query_ok commit_ok form)) = incidents db
  /\ subscriptions (fst (subscribe db now query_ok commit_ok form)) = subscriptions db
  /\ notification_logs (fst (subscribe db now query_ok commit_ok form))
     = notification_logs db
  /\ (NoDup (map email (users db)) ->
      NoDup (map email (users (fst (subscribe db now query_ok commit_ok form)))))
  /\ (NoDup (map username (users db)) ->
      NoDup (map username (users (fst (subscribe db now query_ok commit_ok form))))).
Proof.
  split.
  - intros B. unfold subscribe.
    destruct B as [B|[B|B]]; rewrite (strip_all_space _ B); cbn [truthy negb orb];
      rewrite ?orb_true_r; reflexivity.
  - destruct (subscribe_cases db now query_ok commit_ok form)
      as [E | (_ & _ & _ & _ & C)].
    + rewrite E. repeat split; auto.
    + apply commit_user_users in C.
      destruct C as (U & I & S & N & Ne & Nu). rewrite U, I, S, N.
      split; [now right|]. repeat split.
      * intros D. rewrite map_app. apply NoDup_app; [exact D | | ].
        -- cbn. constructor; [intros [] | constructor].
        -- intros k Ik [<-|[]]. exact (Ne Ik).
      * intros D. rewrite map_app. apply NoDup_app; [exact D | | ].
        -- cbn. constructor; [intros [] | constructor].
        -- intros k Ik [<-|[]]. exact (Nu Ik).
Qed.

(** X20: a user who has just subscribed gets the next alert for the
    place: after a successful [subscribe], [get_eligible_users] selects
    the new user for every incident whose location is the one of the
    form and whose severity is not "low". *)
Theorem subscriber_is_eligible (db : Db) (now : Z) (query_ok commit_ok : bool)
    (form : Form) (w : notification_agent.World) (incident : Incident) :
  snd (subscribe db now query_ok commit_ok form)
  = ToIndex "Successfully subscribed to CityGuard AI notifications!" ->
  notification_agent.users_query_ok w = true ->
  location incident = strip (form_location form) ->
  severity incident <> "low" ->
  exists user,
    In user (notification_agent.get_eligible_users
               (fst (subscribe db now query_ok commit_ok form)) w incident)
    /\ email user = strip (form_email form)
    /\ username user = strip (form_username form).
Proof.
  intros R Q L S.
  destruct (subscribe_cases db now query_ok commit_ok form)
    as [E | (_ & _ & _ & _ & C)].
  - exfalso. revert R E. unfold subscribe, subscribe_try.
    destruct (_ || _ || _)%bool; [discriminate|].
    destruct query_ok; cbn [bind]; [|discriminate].
    destruct (first _ (users db)); [discriminate|].
    destruct (commit_user commit_ok db _) as [db'|e] eqn:C; cbn [bind fst snd];
      [|discriminate].
    intros _ E. subst db'. apply commit_user_users in C.
    destruct C as (U & _). apply (f_equal (@List.length _)) in U.
    rewrite length_app in U. cbn in U. lia.
  - apply commit_user_users in C. destruct C as (U & _).
    exists (mkUser (next_id (map user_id (users db))) (strip (form_username form))
              (strip (form_email form)) (strip (form_location form)) true now).
    split; [|split; reflexivity].
    rewrite (get_eligible_users_filter _ w incident Q). apply filter_In. split.
    + rewrite U. apply in_or_app. right. now left.
    + cbn [email_notifications andb]. unfold passes.
      rewrite severity_ordinal_levels, severity_floor.
      apply andb_true_iff. split.
      * unfold notification_agent.location_matches. cbn [user_location].
        rewrite L, contains_refl. reflexivity.
      * apply negb_true_iff. now apply String.eqb_neq.
Qed.

Lemma subscriber_is_eligible_witness :
  exists user,
    In user (notification_agent.get_eligible_users
               (fst (subscribe sample.db0 0 true true sample.erin_form))
               (sample.world (sample.verdict 0.8 "high" true) "true" 0)
               (sample.row 9 0.8 true 0))
    /\ email user = "erin@example.org"
    /\ username user = "erin".
Proof.
  refine (subscriber_is_eligible sample.db0 0 true true sample.erin_form
            (sample.world (sample.verdict 0.8 "high" true) "true" 0)
            (sample.row 9 0.8 true 0) eq_refl eq_refl eq_refl _).
  discriminate.
Defined.

End Views.

(* ================================================================== *)
(** * Raw saves and the dashboard *)
(* ================================================================== *)

Section RawSaves.

Import notification_agent.

Lemma recent_rows_raw_insert (db : Db) (now now' hours : Z) (commit_ok : bool)
    (d : incident_data) (min_relevance : float) :
  first (data_agent.same_title_source d) (incidents db) = None ->
  recent_rows (data_agent.save_incident db now commit_ok d None) now' hours min_relevance
  = recent_rows db now' hours min_relevance.
Proof.
  intros F. unfold recent_rows, data_agent.save_incident, data_agent.save_incident_try,
    commit. rewrite F.
  destruct commit_ok; [|reflexivity].
  cbn [incidents with_incidents]. rewrite filter_app. cbn [filter].
  unfold recent_filter at 2. cbn [data_agent.new_incident is_verified].
  rewrite andb_false_r. now rewrite app_nil_r.
Qed.

(** X21: an incident that [DataAgent.save_incident] stores for the first
    time without an analysis is not verified, so the dashboard does not
    show it: [get_recent_incidents] returns the same rows after the save
    as before, whatever its arguments. *)
Theorem raw_save_is_not_shown (db : Db) (now : Z) (commit_ok : bool)
    (d : incident_data) (now' : Z) (query_ok : bool) (hours : Z)
    (min_relevance : float) :
  first (data_agent.same_title_source d) (incidents db) = None ->
  get_recent_incidents (data_agent.save_incident db now commit_ok d None)
    now' query_ok hours min_relevance
  = get_recent_incidents db now' query_ok hours min_relevance.
Proof.
  intros F.
  unfold get_recent_incidents, get_recent_incidents_try.
  destruct (timedelta_hours hours) as [delta|] eqn:T; cbn [bind]; [|reflexivity].
  destruct (datetime_sub now' delta) as [cutoff|] eqn:D; cbn [bind]; [|reflexivity].
  destruct query_ok; [|reflexivity].
  unfold timedelta_hours in T. destruct (_ && _)%bool; [|discriminate T].
  injection T as <-.
  unfold datetime_sub in D. destruct (_ && _)%bool; [|discriminate D].
  injection D as <-.
  pose proof (recent_rows_raw_insert db now now' hours commit_ok d min_relevance F)
    as R'.
  unfold recent_rows in R'. now rewrite R'.
Qed.

Lemma raw_save_is_not_shown_witness :
  get_recent_incidents
    (data_agent.save_incident sample.db_dash (sample.hours 3) true sample.storm None)
    (sample.hours 3) true 24 0.3
  = get_recent_incidents sample.db_dash (sample.hours 3) true 24 0.3.
Proof.
  exact (raw_save_is_not_shown sample.db_dash (sample.hours 3) true sample.storm
           (sample.hours 3) true 24 0.3 eq_refl).
Defined.

End RawSaves.
